(** * ffmpeg-minio-solutions: the browser pipeline, embedded and verified

    A shallow embedding of the TypeScript sources of the Next.js demo:

    - [cacheFfmpeg/ffmpegCoreConfig.ts] and [cacheFfmpeg/ffmpegCache.ts]
      (the Cache Storage wrapper), and the state of
      [cacheFfmpeg/FfmpegCacheManager.tsx],
    - [recorder/media.ts], [recorder/reducer.ts] and [recorder/context.tsx]
      (the capture session), and what [recorder/RecorderDashboard.tsx]
      enables,
    - [worker/workerMessages.ts] and [worker/ffmpegWorker.ts] (the Web Worker
      that owns the FFmpeg instance),
    - [worker/useFfmpegWorker.ts] (the React hook on the page side), and the
      progress bar and the buttons of [worker/FfmpegWorkerPanel.tsx].

    JavaScript numbers are IEEE 754 doubles, so they are Rocq's primitive
    floats.  Objects of the platform that the code only talks to (the Cache
    Storage, the network, the FFmpeg engine, MediaRecorder, the blob URL
    store) are modelled by their documented behaviour, and what they decide
    on their own is taken from a [Platform] the definitions are
    parameterised by. *)

From Stdlib Require Import ZArith PrimFloat FloatOps SpecFloat.
From stdpp Require Import gmap strings list fin_maps pretty.

Set Warnings "-inexact-float".
Local Open Scope string_scope.

(* ===================================================================== *)
(** * JavaScript values *)
(* ===================================================================== *)

Module Js.

(** [number]: a double. *)
Abbreviation number := float (only parsing).

(** An [Error] object: the constructor's name and the message. *)
Record Error := mkError { name : string; message : string }.

Definition new_Error (msg : string) : Error := mkError "Error" msg.
Definition new_TypeError (msg : string) : Error := mkError "TypeError" msg.

(** What reading a property of [null] throws. *)
Definition null_read (prop : string) : Error :=
  new_TypeError ("Cannot read properties of null (reading '" +:+ prop +:+ "')").

(** [String(e)] for an [Error]: the name alone when the message is empty. *)
Definition Error_toString (e : Error) : string :=
  if decide (message e = "") then name e else name e +:+ ": " +:+ message e.

(** [e?.message || String(e)]: the empty string is falsy. *)
Definition message_or_string (e : Error) : string :=
  if decide (message e = "") then Error_toString e else message e.

(** A promise's end: the value it resolves with or the error it rejects with. *)
Inductive Result (A : Type) : Type :=
| Resolved (a : A)
| Rejected (e : Error).
Arguments Resolved {A} a.
Arguments Rejected {A} e.

(** [ToBoolean] of a number: [+0], [-0] and [NaN] are falsy. *)
Definition truthy (x : number) : bool := negb (is_zero x || is_nan x).

(** [ToBoolean] of an optional number ([undefined] is falsy). *)
Definition truthy_opt (x : option number) : bool :=
  match x with Some v => truthy v | None => false end.

(** The integer a double denotes, when it denotes one. *)
Definition integral (x : number) : option Z :=
  match Prim2SF x with
  | S754_zero _ => Some 0%Z
  | S754_finite s m e =>
      let n := Z.pos m in
      let v := if (0 <=? e)%Z then Some (n * 2 ^ e)%Z
               else if (n mod 2 ^ (- e) =? 0)%Z then Some (n / 2 ^ (- e))%Z
               else None in
      (fun z => if s then (- z)%Z else z) <$> v
  | S754_infinity _ | S754_nan => None
  end.

End Js.

Export Js.

(* ===================================================================== *)
(** * The platform *)
(* ===================================================================== *)

(** File contents, response bodies and transferred buffers. *)
Abbreviation bytes := (list Byte.byte) (only parsing).

(** The engine's virtual file system. *)
Abbreviation FS := (gmap string (list Byte.byte)) (only parsing).

(** What the engine reports while it runs a command. *)
Inductive EngineNote :=
| NoteLog (message : string)
| NoteProgress (progress : option float) (time : option float).

(** What the surroundings of the code decide:
    - [shortest_digits]: [Number::toString] where it is not a plain run of
      digits (a fraction, an exponent);
    - [ffmpeg_exec]: what a command line does to the virtual file system,
      what it reports meanwhile, and whether the call rejects;
    - [ffmpeg_load]: whether loading the core from the two URLs fails;
    - [toBlobURL]: fetching an asset and minting a blob URL for it. *)
Class Platform := {
  shortest_digits : float -> string;
  ffmpeg_exec : list string -> FS -> FS * list EngineNote * Result unit;
  ffmpeg_load : string -> string -> Result unit;
  toBlobURL : string -> string -> Result string
}.

(** [Number::toString] (radix 10): [NaN], the infinities, and the decimal
    digits of an integer up to 2^53, where every integer is a double and the
    shortest digits that read back as the number are its own; the platform
    prints the rest (above 2^53 the shortest digits may end in zeros the
    number does not have). *)
Definition Number_toString `{Platform} (x : float) : string :=
  if is_nan x then "NaN"
  else if is_infinity x then (if (x <? 0)%float then "-Infinity" else "Infinity")
  else match integral x with
       | Some z => if (Z.abs z <=? 2 ^ 53)%Z then pretty z else shortest_digits x
       | None => shortest_digits x
       end.

(* ===================================================================== *)
(** * worker/ffmpegWorker.ts: the scale filter *)
(* ===================================================================== *)

Module ScaleFilter.

(** [opts: { width?: number; height?: number }] *)
Record Opts := mkOpts { width : option float; height : option float }.

(** [`${x}`] for an optional number. *)
Definition shown `{Platform} (x : option float) : string :=
  match x with Some v => Number_toString v | None => "undefined" end.

(** [vf.join(",")] *)
Definition join (sep : string) (l : list string) : string :=
  match l with
  | [] => ""
  | s :: rest => fold_left (fun acc t => acc +:+ sep +:+ t) rest s
  end.

(** [function scaleFilter(opts)] *)
Definition scaleFilter `{Platform} (opts : Opts) : list string :=
  let vf : list string := [] in
  let vf := if truthy_opt (height opts) && negb (truthy_opt (width opts))
            then (vf ++ ["scale=-2:" +:+ shown (height opts)])%list else vf in
  let vf := if truthy_opt (width opts) && negb (truthy_opt (height opts))
            then (vf ++ ["scale=" +:+ shown (width opts) +:+ ":-2"])%list else vf in
  let vf := if truthy_opt (width opts) && truthy_opt (height opts)
            then (vf ++ ["scale=" +:+ shown (width opts) +:+ ":" +:+ shown (height opts)])%list
            else vf in
  if decide (length vf = 0) then [] else ["-vf"; join "," vf].

End ScaleFilter.

Export ScaleFilter.

(* ===================================================================== *)
(** * cacheFfmpeg/ffmpegCoreConfig.ts *)
(* ===================================================================== *)

Module FfmpegCoreConfig.

Definition FFMPEG_CORE_VERSION : string := "0.12.10".
Definition FFMPEG_CORE_BASE : string :=
  "https://cdn.jsdelivr.net/npm/@ffmpeg/core@" +:+ FFMPEG_CORE_VERSION +:+ "/dist/umd".
Definition CORE_JS_URL : string := FFMPEG_CORE_BASE +:+ "/ffmpeg-core.js".
Definition CORE_WASM_URL : string := FFMPEG_CORE_BASE +:+ "/ffmpeg-core.wasm".
Definition FFMPEG_CACHE_NAME : string := "ffmpeg-core-cache-v1".

End FfmpegCoreConfig.

Export FfmpegCoreConfig.

(* ===================================================================== *)
(** * worker/workerMessages.ts *)
(* ===================================================================== *)

Module WorkerMessages.

Inductive Preset :=
| ultrafast | superfast | veryfast | faster | fast | medium | slow | slower | veryslow.

Definition Preset_string (p : Preset) : string :=
  match p with
  | ultrafast => "ultrafast" | superfast => "superfast" | veryfast => "veryfast"
  | faster => "faster" | fast => "fast" | medium => "medium"
  | slow => "slow" | slower => "slower" | veryslow => "veryslow"
  end.

Module PreviewParams.
Record t := mk {
  data : bytes;
  inputName : option string;
  start : option float;
  duration : option float;
  scaleHeight : option float;
  scaleWidth : option float;
  toMp4 : option bool;
  crf : option float;
  preset : option Preset
}.
End PreviewParams.

Module SnapshotParams.
Record t := mk {
  data : bytes;
  inputName : option string;
  at_ : option float;
  scaleWidth : option float;
  scaleHeight : option float;
  quality : option float
}.
End SnapshotParams.

Record LoadPayload := mkLoadPayload { coreURL : option string; wasmURL : option string }.

Inductive WorkerCommand :=
| CmdLoad (payload : option LoadPayload)
| CmdPreview (payload : PreviewParams.t)
| CmdSnapshot (payload : SnapshotParams.t)
| CmdCancel
| CmdTerminate.

Inductive Kind := preview | snapshot.

Record ResultPayload := mkResult {
  kind : Kind;
  name : string;
  mime : string;
  data : bytes
}.

(** The engine's progress event may come without a ratio (the hook reads it
    with [??]), so the field is optional here. *)
Inductive WorkerEvent :=
| EvLoaded
| EvProgress (ratio : option float) (time : option float)
| EvLog (message : string)
| EvResult (payload : ResultPayload)
| EvError (message : string)
| EvCanceled
| EvTerminated.

End WorkerMessages.

Export WorkerMessages.

(* ===================================================================== *)
(** * The FFmpeg engine (the class [FFmpeg] of @ffmpeg/ffmpeg) *)
(* ===================================================================== *)

Module Engine.

(** An instance: the virtual files of its core ([None] until the core is
    loaded), and whether the worker script has wired the "log" and
    "progress" listeners. *)
Record FFmpeg := mkFFmpeg { core : option FS; wired : bool }.

(** [new FFmpeg()] *)
Definition new_FFmpeg : FFmpeg := mkFFmpeg None false.

Definition ERROR_NOT_LOADED : Error :=
  new_Error "ffmpeg is not loaded, call `await ffmpeg.load()` first".
Definition ERROR_TERMINATED : Error := new_Error "called FFmpeg.terminate()".
Definition ERROR_NO_ENTRY : Error := new_Error "ErrnoError: FS error".

(** The promises the worker script awaits. *)
Inductive Request :=
| RqToBlobURL (url mimeType : string)
| RqLoad (coreURL wasmURL : string)
| RqWriteFile (path : string) (data : bytes)
| RqExec (args : list string)
| RqReadFile (path : string)
| RqDeleteFile (path : string).

(** What a promise resolves with. *)
Inductive Value :=
| VUndefined
| VString (s : string)
| VBytes (b : bytes).

Definition is_engine_request (rq : Request) : bool :=
  match rq with RqToBlobURL _ _ => false | _ => true end.

Definition with_fs (eng : FFmpeg) (fs' : FS) : FFmpeg := mkFFmpeg (Some fs') (wired eng).

(** A file operation on the loaded core's files; it rejects before the core
    is loaded. *)
Definition on_core (eng : FFmpeg)
  (op : FS -> FFmpeg * list EngineNote * Result Value)
  : FFmpeg * list EngineNote * Result Value :=
  match core eng with
  | Some fs => op fs
  | None => (eng, [], Rejected ERROR_NOT_LOADED)
  end.

(** The engine serving a request: the instance afterwards, what it reported
    meanwhile, and how the promise ends.  Loading starts a fresh core with an
    empty file system; reading or deleting a file that is not there
    rejects. *)
Definition engine_settle `{Platform} (rq : Request) (eng : FFmpeg)
  : FFmpeg * list EngineNote * Result Value :=
  match rq with
  | RqToBlobURL _ _ => (eng, [], Resolved VUndefined)
  | RqLoad c w =>
      match ffmpeg_load c w with
      | Resolved _ => (with_fs eng ∅, [], Resolved VUndefined)
      | Rejected e => (eng, [], Rejected e)
      end
  | RqWriteFile path d =>
      on_core eng (fun fs => (with_fs eng (<[path := d]> fs), [], Resolved VUndefined))
  | RqExec args =>
      on_core eng (fun fs =>
        let '(fs', notes, r) := ffmpeg_exec args fs in
        (with_fs eng fs', notes,
         match r with Resolved _ => Resolved VUndefined | Rejected e => Rejected e end))
  | RqReadFile path =>
      on_core eng (fun fs =>
        match fs !! path with
        | Some d => (eng, [], Resolved (VBytes d))
        | None => (eng, [], Rejected ERROR_NO_ENTRY)
        end)
  | RqDeleteFile path =>
      on_core eng (fun fs =>
        match fs !! path with
        | Some _ => (with_fs eng (delete path fs), [], Resolved VUndefined)
        | None => (eng, [], Rejected ERROR_NO_ENTRY)
        end)
  end.

End Engine.

Export Engine.

(* ===================================================================== *)
(** * worker/ffmpegWorker.ts *)
(* ===================================================================== *)

Module FfmpegWorker.

(** The module's variables. *)
Record Worker := mkWorker {
  ffmpeg : option FFmpeg;
  loading : bool;
  busy : bool
}.

(** [let ffmpeg = null; let loading = false; let busy = false;] *)
Definition initial : Worker := mkWorker None false false.

Definition set_ffmpeg (v : option FFmpeg) (w : Worker) : Worker :=
  mkWorker v (loading w) (busy w).
Definition set_loading (b : bool) (w : Worker) : Worker :=
  mkWorker (ffmpeg w) b (busy w).
Definition set_busy (b : bool) (w : Worker) : Worker :=
  mkWorker (ffmpeg w) (loading w) b.

(** ** Asynchronous functions

    An [async] function runs, posting events to the main thread on its way,
    until it returns, throws or reaches an [await] of a pending promise;
    there it gives the thread away, and goes on, from whatever the module's
    variables have become, when the promise ends.  An [await] of a call that
    ended without waiting gives no other message a turn, and is no
    suspension here. *)
Inductive Run (A : Type) : Type :=
| Return (w : Worker) (a : A)
| Raise (w : Worker) (e : Error)
| Emit (event : WorkerEvent) (rest : Run A)
| Suspend (w : Worker) (rq : Request) (k : Result Value -> Worker -> Run A).
Arguments Return {A} w a.
Arguments Raise {A} w e.
Arguments Emit {A} event rest.
Arguments Suspend {A} w rq k.

Definition Async (A : Type) : Type := Worker -> Run A.

Definition ret {A} (a : A) : Async A := fun w => Return w a.
Definition throw {A} (e : Error) : Async A := fun w => Raise w e.

Fixpoint bind_run {A B} (r : Run A) (f : A -> Async B) : Run B :=
  match r with
  | Return w a => f a w
  | Raise w e => Raise w e
  | Emit ev r' => Emit ev (bind_run r' f)
  | Suspend w rq k => Suspend w rq (fun o w' => bind_run (k o w') f)
  end.

Definition bind {A B} (m : Async A) (f : A -> Async B) : Async B :=
  fun w => bind_run (m w) f.

(** [try { m } catch (e) { h e }] *)
Fixpoint catch_run {A} (r : Run A) (h : Error -> Async A) : Run A :=
  match r with
  | Return w a => Return w a
  | Raise w e => h e w
  | Emit ev r' => Emit ev (catch_run r' h)
  | Suspend w rq k => Suspend w rq (fun o w' => catch_run (k o w') h)
  end.

Definition try_catch {A} (m : Async A) (h : Error -> Async A) : Async A :=
  fun w => catch_run (m w) h.

(** [try { m } finally { fin }]: the block's own end stands unless [fin]
    throws. *)
Fixpoint finally_run {A} (r : Run A) (fin : Async unit) : Run A :=
  match r with
  | Return w a => bind_run (fin w) (fun _ => ret a)
  | Raise w e => bind_run (fin w) (fun _ => throw e)
  | Emit ev r' => Emit ev (finally_run r' fin)
  | Suspend w rq k => Suspend w rq (fun o w' => finally_run (k o w') fin)
  end.

Definition try_finally {A} (m : Async A) (fin : Async unit) : Async A :=
  fun w => finally_run (m w) fin.

Definition gets {A} (f : Worker -> A) : Async A := fun w => Return w (f w).
Definition modify (f : Worker -> Worker) : Async unit := fun w => Return (f w) tt.

(** [function post(event)]: [self.postMessage(event, ...)] *)
Definition post (event : WorkerEvent) : Async unit := fun w => Emit event (Return w tt).

(** [await promise] *)
Definition await (rq : Request) : Async Value :=
  fun w => Suspend w rq (fun o w' =>
    match o with Resolved v => Return w' v | Rejected e => Raise w' e end).

#[global] Instance Async_ret : MRet Async := @ret.
#[global] Instance Async_bind : MBind Async := fun A B f m => bind m f.

(** [ffmpeg.method(...)] on the module's variable: a [TypeError] when it
    holds [null], the engine's promise otherwise. *)
Definition call_ffmpeg (method : string) (rq : Request) : Async Value :=
  fun w => match ffmpeg w with
           | None => Raise w (null_read method)
           | Some _ => await rq w
           end.

(** [try { await ffmpeg.deleteFile(path); } catch {}] *)
Definition try_deleteFile (path : string) : Async unit :=
  try_catch (call_ffmpeg "deleteFile" (RqDeleteFile path) ;; ret tt) (fun _ => ret tt).

(** [x || d] on an optional string. *)
Definition or_string (x : option string) (d : string) : string :=
  match x with
  | Some s => if decide (s = "") then d else s
  | None => d
  end.

(** [s.endsWith(suffix)] *)
Definition endsWith (s suffix : string) : bool :=
  String.prefix (String.rev suffix) (String.rev s).

(** ** The script's functions *)

(** [ffmpeg!.on("log", ...); ffmpeg!.on("progress", ...)] *)
Definition wire_listeners (w : Worker) : Worker :=
  set_ffmpeg ((fun eng => mkFFmpeg (core eng) true) <$> ffmpeg w) w.

(** [url || (await toBlobURL(asset, mimeType))] *)
Definition or_blob_url (url : option string) (asset mimeType : string) : Async string :=
  match url with
  | Some s => if decide (s = "") then
                v ← await (RqToBlobURL asset mimeType);
                ret (match v with VString u => u | _ => "" end)
              else ret s
  | None => v ← await (RqToBlobURL asset mimeType);
            ret (match v with VString u => u | _ => "" end)
  end.

(** [async function ensureLoaded(coreURL?, wasmURL?)] *)
Definition ensureLoaded (coreURL wasmURL : option string) : Async unit :=
  f ← gets ffmpeg; l ← gets loading;
  if bool_decide (is_Some f) && negb l then ret tt else
  (if bool_decide (is_Some f) then ret tt
   else modify (set_ffmpeg (Some new_FFmpeg)));;
  l ← gets loading;
  if (l : bool) then ret tt else
  modify (set_loading true);;
  modify wire_listeners;;
  resolvedCoreURL ← or_blob_url coreURL CORE_JS_URL "text/javascript";
  resolvedWasmURL ← or_blob_url wasmURL CORE_WASM_URL "application/wasm";
  call_ffmpeg "load" (RqLoad resolvedCoreURL resolvedWasmURL);;
  modify (set_loading false);;
  post EvLoaded.

(** The argument list of the preview command. *)
Definition preview_args `{Platform} (p : PreviewParams.t) (inputName outName : string)
  : list string :=
  let start := default 0%float (PreviewParams.start p) in
  let duration := default 10%float (PreviewParams.duration p) in
  let vf := scaleFilter (mkOpts (PreviewParams.scaleWidth p) (PreviewParams.scaleHeight p)) in
  if bool_decide (PreviewParams.toMp4 p ≠ Some false) then
    let crf := Number_toString (default 28%float (PreviewParams.crf p)) in
    let preset := Preset_string (default veryfast (PreviewParams.preset p)) in
    (["-ss"; Number_toString start; "-t"; Number_toString duration; "-i"; inputName]
     ++ vf ++
     ["-c:v"; "libx264"; "-preset"; preset; "-crf"; crf; "-pix_fmt"; "yuv420p";
      "-c:a"; "aac"; "-b:a"; "128k"; "-movflags"; "+faststart"; outName])%list
  else
    (["-ss"; Number_toString start; "-t"; Number_toString duration; "-i"; inputName]
     ++ vf ++ ["-c"; "copy"; outName])%list.

(** [async function doPreview(p)] *)
Definition doPreview `{Platform} (p : PreviewParams.t) : Async unit :=
  f ← gets ffmpeg;
  if bool_decide (f = None) then throw (new_Error "FFmpeg is not loaded") else
  modify (set_busy true);;
  try_finally
    (let inputName := or_string (PreviewParams.inputName p) "input.webm" in
     let data := PreviewParams.data p in
     call_ffmpeg "writeFile" (RqWriteFile inputName data);;
     let outName :=
       if bool_decide (PreviewParams.toMp4 p ≠ Some false) then "preview.mp4"
       else "preview.webm" in
     let args := preview_args p inputName outName in
     call_ffmpeg "exec" (RqExec args);;
     v ← call_ffmpeg "readFile" (RqReadFile outName);
     let outData := match v with VBytes b => b | _ => [] end in
     post (EvResult (mkResult preview outName
             (if endsWith outName ".mp4" then "video/mp4" else "video/webm")
             outData)))
    (try_deleteFile "preview.mp4";;
     try_deleteFile "preview.webm";;
     try_deleteFile (or_string (PreviewParams.inputName p) "input.webm");;
     modify (set_busy false)).

(** The argument list of the snapshot command. *)
Definition snapshot_args `{Platform} (p : SnapshotParams.t) (inputName outName : string)
  : list string :=
  let at_ := default 1%float (SnapshotParams.at_ p) in
  let vf := scaleFilter (mkOpts (SnapshotParams.scaleWidth p) (SnapshotParams.scaleHeight p)) in
  (["-ss"; Number_toString at_; "-i"; inputName; "-frames:v"; "1";
    "-q:v"; Number_toString (default 2%float (SnapshotParams.quality p))]
   ++ vf ++ [outName])%list.

(** [async function doSnapshot(p)] *)
Definition doSnapshot `{Platform} (p : SnapshotParams.t) : Async unit :=
  f ← gets ffmpeg;
  if bool_decide (f = None) then throw (new_Error "FFmpeg is not loaded") else
  modify (set_busy true);;
  try_finally
    (let inputName := or_string (SnapshotParams.inputName p) "input.webm" in
     let data := SnapshotParams.data p in
     call_ffmpeg "writeFile" (RqWriteFile inputName data);;
     let outName := "thumb.jpg" in
     let args := snapshot_args p inputName outName in
     call_ffmpeg "exec" (RqExec args);;
     v ← call_ffmpeg "readFile" (RqReadFile outName);
     let outData := match v with VBytes b => b | _ => [] end in
     post (EvResult (mkResult snapshot outName "image/jpeg" outData)))
    (try_deleteFile "thumb.jpg";;
     try_deleteFile (or_string (SnapshotParams.inputName p) "input.webm");;
     modify (set_busy false)).

(** [function cancelCurrent()]: [terminate()] ends the instance; the event
    loop below rejects what was pending on it. *)
Definition cancelCurrent : Async unit :=
  f ← gets ffmpeg;
  if bool_decide (f = None) then ret tt else
  modify (set_ffmpeg None);;
  modify (set_loading false);;
  modify (set_busy false);;
  post EvCanceled.

Definition BUSY_MESSAGE : string := "FFmpeg worker is busy".

(** [self.onmessage = async (ev) => { ... }] *)
Definition onmessage `{Platform} (msg : WorkerCommand) : Async unit :=
  try_catch
    (match msg with
     | CmdLoad payload =>
         ensureLoaded (payload ≫= coreURL) (payload ≫= wasmURL)
     | CmdPreview p =>
         ensureLoaded None None;;
         b ← gets busy;
         if (b : bool) then throw (new_Error BUSY_MESSAGE) else doPreview p
     | CmdSnapshot p =>
         ensureLoaded None None;;
         b ← gets busy;
         if (b : bool) then throw (new_Error BUSY_MESSAGE) else doSnapshot p
     | CmdCancel => cancelCurrent
     | CmdTerminate => cancelCurrent;; post EvTerminated
     end)
    (fun e => post (EvError (message_or_string e))).

End FfmpegWorker.

Export FfmpegWorker.

(* ===================================================================== *)
(** * The worker's event loop *)
(* ===================================================================== *)

Module EventLoop.

(** A handler waiting at an [await]: the promise and what runs when it
    ends. *)
Record Task := mkTask {
  awaited : Request;
  resume : Result Value -> Worker -> Run unit
}.

(** The worker between two turns of the loop: the module's variables, the
    waiting handlers, and the events posted to the main thread so far
    (oldest first). *)
Record System := mkSystem {
  vars : Worker;
  pool : list Task;
  outbox : list WorkerEvent
}.

Definition boot : System := mkSystem initial [] [].

(** A handler's turn: its events are posted, and then it has ended, or it
    waits in the pool. *)
Fixpoint absorb (r : Run unit) (waiting : list Task) (out : list WorkerEvent) : System :=
  match r with
  | Return w _ | Raise w _ => mkSystem w waiting out
  | Emit ev r' => absorb r' waiting (out ++ [ev])
  | Suspend w rq k => mkSystem w (waiting ++ [mkTask rq k]) out
  end.

(** What the wired listeners forward of the engine's reports. *)
Definition note_event (n : EngineNote) : WorkerEvent :=
  match n with
  | NoteLog m => EvLog m
  | NoteProgress r t => EvProgress r t
  end.

(** How an awaited promise ends, served in the state [w]: the variables
    afterwards, the events the listeners posted meanwhile, and the end
    itself.  [toBlobURL] is served by the platform; a request to the engine
    by the instance [ffmpeg] holds, and by rejection once that instance has
    been terminated. *)
Definition promise_end `{Platform} (rq : Request) (w : Worker)
  : Worker * list WorkerEvent * Result Value :=
  match rq with
  | RqToBlobURL url mimeType =>
      (w, [], match toBlobURL url mimeType with
              | Resolved u => Resolved (VString u)
              | Rejected e => Rejected e
              end)
  | _ =>
      match ffmpeg w with
      | None => (w, [], Rejected ERROR_TERMINATED)
      | Some eng =>
          let '(eng', notes, o) := engine_settle rq eng in
          (set_ffmpeg (Some eng') w,
           if wired eng then note_event <$> notes else [],
           o)
      end
  end.

(** [terminate()] rejects every call pending on the instance, and the
    handlers waiting for them run on at once, before any other message. *)
Fixpoint reject_pending (ts : list Task) (s : System) : System :=
  match ts with
  | [] => s
  | t :: ts' =>
      if is_engine_request (awaited t) then
        reject_pending ts'
          (absorb (resume t (Rejected ERROR_TERMINATED) (vars s)) (pool s) (outbox s))
      else reject_pending ts' (mkSystem (vars s) (pool s ++ [t]) (outbox s))
  end.

(** A message from the main thread arrives. *)
Definition deliver `{Platform} (msg : WorkerCommand) (s : System) : System :=
  let s1 := absorb (onmessage msg (vars s)) (pool s) (outbox s) in
  if bool_decide (is_Some (ffmpeg (vars s))) && bool_decide (ffmpeg (vars s1) = None)
  then reject_pending (pool s1) (mkSystem (vars s1) [] (outbox s1))
  else s1.

(** The promise of the [i]-th waiting handler ends. *)
Definition settle `{Platform} (i : nat) (s : System) : System :=
  match pool s !! i with
  | None => s
  | Some t =>
      let '(w, evs, o) := promise_end (awaited t) (vars s) in
      absorb (resume t o w) (delete i (pool s)) (outbox s ++ evs)
  end.

Inductive Action :=
| Deliver (msg : WorkerCommand)
| Settle (i : nat).

Definition step `{Platform} (a : Action) (s : System) : System :=
  match a with
  | Deliver msg => deliver msg s
  | Settle i => settle i s
  end.

Definition run `{Platform} (acts : list Action) (s : System) : System :=
  foldl (fun s a => step a s) s acts.

(** The states the worker reaches from its start. *)
Definition reachable `{Platform} (s : System) : Prop := ∃ acts, s = run acts boot.

(** The same variables and waiting handlers, with [out] posted before
    everything in the outbox. *)
Definition posted_before (out : list WorkerEvent) (s : System) : System :=
  mkSystem (vars s) (pool s) (out ++ outbox s)%list.

(** No file of the given names is left in the instance [ffmpeg] holds. *)
Definition removed (names : list string) (w : Worker) : Prop :=
  ∀ eng fs, ffmpeg w = Some eng → core eng = Some fs → ∀ n, n ∈ names → fs !! n = None.

(** ** Every way a handler can go on

    A waiting handler is resumed by [promise_end], served in whatever state
    the other handlers have left by then: the same instance, one whose core
    has been loaded meanwhile, another one, or [null] after a teardown, with
    any flags.  The one thing relied on is that the others write no file:
    the names that had no file when the handler stopped have none when its
    promise is served. *)
Definition resumes `{Platform} (rq : Request) (w : Worker) (o : Result Value)
  (w' : Worker) : Prop :=
  ∃ w1 evs, (∀ names, removed names w → removed names w1)
            ∧ promise_end rq w1 = (w', evs, o).

(** [wpg G R r Qr Qe]: at each of its awaits [r] leaves the variables in [G],
    and if it is resumed as [R] allows, it returns in a state and with a
    value in [Qr], or throws in a state and with an error in [Qe]. *)
Fixpoint wpg {A} (G : Worker -> Prop)
  (R : Request -> Worker -> Result Value -> Worker -> Prop)
  (r : Run A) (Qr : Worker -> A -> Prop) (Qe : Worker -> Error -> Prop) : Prop :=
  match r with
  | Return w a => Qr w a
  | Raise w e => Qe w e
  | Emit _ r' => wpg G R r' Qr Qe
  | Suspend w rq k => G w ∧ ∀ o w', R rq w o w' → wpg G R (k o w') Qr Qe
  end.

(** [wp r Qr Qe]: however the awaits of [r] end, [r] returns in [Qr] or
    throws in [Qe]. *)
Definition wp `{Platform} {A} (r : Run A) (Qr : Worker -> A -> Prop)
  (Qe : Worker -> Error -> Prop) : Prop :=
  wpg (fun _ => True) resumes r Qr Qe.

(** [on_every_path r Q]: [r] ends, and however it ends, in a state in [Q]. *)
Definition on_every_path `{Platform} {A} (r : Run A) (Q : Worker -> Prop) : Prop :=
  wp r (fun w _ => Q w) (fun w _ => Q w).

(** The busy flag is only ever set while [ffmpeg] holds an instance. *)
Definition busy_has_instance (w : Worker) : Prop := busy w = true → ffmpeg w ≠ None.

(** [r] keeps [busy_has_instance]: wherever it waits or ends, provided it
    holds whenever [r] is resumed. *)
Definition keeps_invariant {A} (r : Run A) : Prop :=
  wpg busy_has_instance (fun _ _ _ w' => busy_has_instance w') r
    (fun w _ => busy_has_instance w) (fun w _ => busy_has_instance w).

(** A waiting handler keeps the invariant however it is resumed. *)
Definition task_keeps (t : Task) : Prop :=
  ∀ o w', busy_has_instance w' → keeps_invariant (resume t o w').

Definition system_invariant (s : System) : Prop :=
  busy_has_instance (vars s) ∧ Forall task_keeps (pool s).

(** ** What a job does on its way out

    [deletes_in_turn names f0 r], for [r] running on from a state whose
    [ffmpeg] is [f0]: for each of [names] in turn, where [ffmpeg] holds an
    instance, [r] asks that instance to delete the file and waits, and goes
    on however that ends and whatever the variables are by then (where
    [ffmpeg] is [null] the call throws, and [r] goes on at once); after the
    last name [r] ends, with the busy flag down.  [r] itself never assigns
    [ffmpeg] and posts nothing. *)
Fixpoint deletes_in_turn {A} (names : list string) (f0 : option FFmpeg) (r : Run A) : Prop :=
  match names with
  | [] =>
      match r with
      | Return w _ | Raise w _ => busy w = false ∧ ffmpeg w = f0
      | _ => False
      end
  | n :: rest =>
      match f0 with
      | Some _ =>
          match r with
          | Suspend w rq k =>
              ffmpeg w = f0 ∧ rq = RqDeleteFile n
              ∧ ∀ o w', deletes_in_turn rest (ffmpeg w') (k o w')
          | _ => False
          end
      | None => deletes_in_turn rest None r
      end
  end.

(** [ends_deleting names f0 r]: however its awaits end and whatever the
    variables are when it is resumed, [r] never assigns [ffmpeg] and comes
    to a point from which it [deletes_in_turn] the [names]. *)
Fixpoint ends_deleting {A} (names : list string) (f0 : option FFmpeg) (r : Run A) : Prop :=
  match r with
  | Emit _ r' => ends_deleting names f0 r'
  | Suspend w rq k =>
      deletes_in_turn names f0 r
      ∨ (ffmpeg w = f0 ∧ ∀ o w', ends_deleting names (ffmpeg w') (k o w'))
  | _ => deletes_in_turn names f0 r
  end.

(** [keeps_instance f0 r]: [r] never assigns [ffmpeg]. *)
Fixpoint keeps_instance {A} (f0 : option FFmpeg) (r : Run A) : Prop :=
  match r with
  | Return w _ | Raise w _ => ffmpeg w = f0
  | Emit _ r' => keeps_instance f0 r'
  | Suspend w rq k => ffmpeg w = f0 ∧ ∀ o w', keeps_instance (ffmpeg w') (k o w')
  end.

(** ** What a resumed handler leaves alone

    [unchanged_since w0 w]: [ffmpeg] is what it was in [w0], and if that was
    [null], no flag has been raised since. *)
Definition unchanged_since (w0 w : Worker) : Prop :=
  ffmpeg w = ffmpeg w0
  ∧ (ffmpeg w0 = None →
     (loading w = true → loading w0 = true) ∧ (busy w = true → busy w0 = true)).

(** [settled w0 r]: running from [w0], and from wherever it is resumed
    later, [r] never assigns [ffmpeg], raises no flag while [ffmpeg] is
    [null], and never waits for the engine while [ffmpeg] is [null]. *)
Fixpoint settled {A} (w0 : Worker) (r : Run A) : Prop :=
  match r with
  | Return w _ | Raise w _ => unchanged_since w0 w
  | Emit _ r' => settled w0 r'
  | Suspend w rq k =>
      unchanged_since w0 w
      ∧ (ffmpeg w = None → is_engine_request rq = false)
      ∧ ∀ o w', settled w' (k o w')
  end.

(** [settled_later r]: the same from the first [await] of [r] on. *)
Fixpoint settled_later {A} (r : Run A) : Prop :=
  match r with
  | Return _ _ | Raise _ _ => True
  | Emit _ r' => settled_later r'
  | Suspend w rq k =>
      (ffmpeg w = None → is_engine_request rq = false) ∧ ∀ o w', settled w' (k o w')
  end.

(** A waiting handler that is [settled] however it is resumed. *)
Definition task_settled (t : Task) : Prop := ∀ o w', settled w' (resume t o w').

(** A handler waiting for something else than the engine. *)
Definition awaits_elsewhere (t : Task) : Prop := is_engine_request (awaited t) = false.

End EventLoop.

Export EventLoop.

(* ===================================================================== *)
(** * The page's blob URL store ([URL.createObjectURL] and
      [URL.revokeObjectURL]) *)
(* ===================================================================== *)

Module BlobURL.

Record Blob := mkBlob { parts : bytes; type : string }.

(** A blob URL is named by the number of URLs minted before it; [live] maps
    the URLs not yet revoked to their blobs. *)
Abbreviation objectURL := nat (only parsing).

Record Store := mkStore { minted : nat; live : gmap nat Blob }.

Definition no_urls : Store := mkStore 0 ∅.

Definition createObjectURL (b : Blob) (st : Store) : nat * Store :=
  (minted st, mkStore (S (minted st)) (<[minted st := b]> (live st))).

Definition revokeObjectURL (u : nat) (st : Store) : Store :=
  mkStore (minted st) (delete u (live st)).

(** [if (ref.current) URL.revokeObjectURL(ref.current)] *)
Definition revoke_current (ref : option nat) (st : Store) : Store :=
  match ref with Some u => revokeObjectURL u st | None => st end.

End BlobURL.

Export BlobURL.

(* ===================================================================== *)
(** * worker/useFfmpegWorker.ts *)
(* ===================================================================== *)

Module UseFfmpegWorker.

Module WorkerStatus.
Inductive t := idle | loading | ready | working | canceled | error.
End WorkerStatus.

(** [interface UseFfmpegWorkerState] *)
Record UseFfmpegWorkerState := mkState {
  status : WorkerStatus.t;
  progress : float;
  time : option float;
  lastLog : option string;
  error : option string;
  previewUrl : option nat;
  snapshotUrl : option nat
}.

(** What the hook keeps between renders: the state, the two refs, whether a
    worker exists, the commands posted to it so far, and the page's URLs. *)
Record Hook := mkHook {
  state : UseFfmpegWorkerState;
  previewUrlRef : option nat;
  snapshotUrlRef : option nat;
  workerRef : bool;
  posted : list WorkerCommand;
  urls : Store
}.

(** [useState({ status: "idle", progress: 0 })] and the empty refs. *)
Definition mount : Hook :=
  mkHook (mkState WorkerStatus.idle 0 None None None None None) None None false [] no_urls.

(** [setState(f)] *)
Definition setState (f : UseFfmpegWorkerState -> UseFfmpegWorkerState) (h : Hook) : Hook :=
  mkHook (f (state h)) (previewUrlRef h) (snapshotUrlRef h) (workerRef h) (posted h) (urls h).

(** [w.onmessage = (ev) => { ... }] *)
Definition onmessage (msg : WorkerEvent) (h : Hook) : Hook :=
  match msg with
  | EvLoaded =>
      setState (fun s => mkState WorkerStatus.ready (progress s) (time s) (lastLog s)
                           (error s) (previewUrl s) (snapshotUrl s)) h
  | EvProgress ratio t =>
      setState (fun s => mkState (status s) (default 0%float ratio) t (lastLog s)
                           (error s) (previewUrl s) (snapshotUrl s)) h
  | EvLog m =>
      setState (fun s => mkState (status s) (progress s) (time s) (Some m)
                           (error s) (previewUrl s) (snapshotUrl s)) h
  | EvResult payload =>
      let blob := mkBlob (data payload) (mime payload) in
      let '(url, st) := createObjectURL blob (urls h) in
      match kind payload with
      | preview =>
          let st := revoke_current (previewUrlRef h) st in
          mkHook (mkState WorkerStatus.ready 1 (time (state h)) (lastLog (state h))
                    (error (state h)) (Some url) (snapshotUrl (state h)))
                 (Some url) (snapshotUrlRef h) (workerRef h) (posted h) st
      | snapshot =>
          let st := revoke_current (snapshotUrlRef h) st in
          mkHook (mkState WorkerStatus.ready 1 (time (state h)) (lastLog (state h))
                    (error (state h)) (previewUrl (state h)) (Some url))
                 (previewUrlRef h) (Some url) (workerRef h) (posted h) st
      end
  | EvCanceled =>
      setState (fun s => mkState WorkerStatus.canceled 0 (time s) (lastLog s)
                           (error s) (previewUrl s) (snapshotUrl s)) h
  | EvTerminated =>
      setState (fun _ => mkState WorkerStatus.idle 0 None None None None None) h
  | EvError m =>
      setState (fun s => mkState WorkerStatus.error (progress s) (time s) (lastLog s)
                           (Some m) (previewUrl s) (snapshotUrl s)) h
  end.

(** The handler of a "result" event statement by statement: the hook after
    [URL.createObjectURL(blob)], after the revocation of what the ref of the
    result's kind held, after the assignment of the ref, and after
    [setState]. *)
Definition result_steps (payload : ResultPayload) (h : Hook) : list Hook :=
  let blob := mkBlob (data payload) (mime payload) in
  let '(url, st) := createObjectURL blob (urls h) in
  let h1 := mkHook (state h) (previewUrlRef h) (snapshotUrlRef h) (workerRef h) (posted h) st in
  match kind payload with
  | preview =>
      let h2 := mkHook (state h1) (previewUrlRef h1) (snapshotUrlRef h1) (workerRef h1)
                  (posted h1) (revoke_current (previewUrlRef h1) (urls h1)) in
      let h3 := mkHook (state h2) (Some url) (snapshotUrlRef h2) (workerRef h2)
                  (posted h2) (urls h2) in
      let h4 := setState (fun s => mkState WorkerStatus.ready 1 (time s) (lastLog s)
                                     (error s) (Some url) (snapshotUrl s)) h3 in
      [h1; h2; h3; h4]
  | snapshot =>
      let h2 := mkHook (state h1) (previewUrlRef h1) (snapshotUrlRef h1) (workerRef h1)
                  (posted h1) (revoke_current (snapshotUrlRef h1) (urls h1)) in
      let h3 := mkHook (state h2) (previewUrlRef h2) (Some url) (workerRef h2)
                  (posted h2) (urls h2) in
      let h4 := setState (fun s => mkState WorkerStatus.ready 1 (time s) (lastLog s)
                                     (error s) (previewUrl s) (Some url)) h3 in
      [h1; h2; h3; h4]
  end.

(** [s.includes(sub)] *)
Definition includes (s sub : string) : bool :=
  bool_decide (is_Some (String.index 0 sub s)).

(** [function mimeToExt(mime)] *)
Definition mimeToExt (mime : string) : string :=
  if decide (mime = "") then "webm"
  else if includes mime "mp4" then "mp4"
  else if includes mime "webm" then "webm"
  else if includes mime "ogg" then "ogv"
  else "webm".

(** [function inferInputName(file)] *)
Definition inferInputName (file : Blob) : string := "input." +:+ mimeToExt (type file).

(** The options of [makePreview]: [Omit<PreviewParams, "data">]. *)
Definition preview_command (file : Blob) (opts : option PreviewParams.t) : WorkerCommand :=
  CmdPreview (PreviewParams.mk
    (parts file)
    (Some (default (inferInputName file) (opts ≫= PreviewParams.inputName)))
    (Some (default 0%float (opts ≫= PreviewParams.start)))
    (Some (default 10%float (opts ≫= PreviewParams.duration)))
    (opts ≫= PreviewParams.scaleHeight)
    (opts ≫= PreviewParams.scaleWidth)
    (Some (default true (opts ≫= PreviewParams.toMp4)))
    (Some (default 28%float (opts ≫= PreviewParams.crf)))
    (Some (default veryfast (opts ≫= PreviewParams.preset)))).

Definition snapshot_command (file : Blob) (opts : option SnapshotParams.t) : WorkerCommand :=
  CmdSnapshot (SnapshotParams.mk
    (parts file)
    (Some (default (inferInputName file) (opts ≫= SnapshotParams.inputName)))
    (Some (default 1%float (opts ≫= SnapshotParams.at_)))
    (opts ≫= SnapshotParams.scaleWidth)
    (opts ≫= SnapshotParams.scaleHeight)
    (Some (default 2%float (opts ≫= SnapshotParams.quality)))).

(** [ensureWorker()] then a job command: nothing outside a browser
    ([window] undefined), nothing when the status was "working" at the render
    that made the callback ([state.status] is the closure's, [rendered]
    here, not the status the hook holds when the callback runs). *)
Definition submit_from (window : bool) (rendered : WorkerStatus.t)
    (cmd : WorkerCommand) (h : Hook) : Hook :=
  if negb window then h
  else
    let h := mkHook (state h) (previewUrlRef h) (snapshotUrlRef h) true (posted h) (urls h) in
    match rendered with
    | WorkerStatus.working => h
    | _ =>
        let h := setState (fun s => mkState WorkerStatus.working 0 (time s) (lastLog s)
                                      None (previewUrl s) (snapshotUrl s)) h in
        mkHook (state h) (previewUrlRef h) (snapshotUrlRef h) (workerRef h)
               (posted h ++ [cmd])%list (urls h)
    end.

(** The callback of the latest render: it has seen the status the hook holds. *)
Definition submit (window : bool) (cmd : WorkerCommand) (h : Hook) : Hook :=
  submit_from window (status (state h)) cmd h.

(** [makePreview(file, opts)], the callback of the latest render. *)
Definition makePreview (window : bool) (file : Blob) (opts : option PreviewParams.t)
  : Hook -> Hook := submit window (preview_command file opts).

(** [makeSnapshot(file, opts)], the callback of the latest render. *)
Definition makeSnapshot (window : bool) (file : Blob) (opts : option SnapshotParams.t)
  : Hook -> Hook := submit window (snapshot_command file opts).

(** The worker's events, handled in the order they arrive. *)
Definition receive (evs : list WorkerEvent) (h : Hook) : Hook :=
  foldl (fun h ev => onmessage ev h) h evs.


End UseFfmpegWorker.

(* ===================================================================== *)
(** * worker/FfmpegWorkerPanel.tsx: the progress bar *)
(* ===================================================================== *)

Module Panel.

(** [Math.max(a, b)]: [NaN] if either is, and [+0] above [-0]. *)
Definition Math_max (a b : float) : float :=
  if is_nan a || is_nan b then nan
  else if (a <? b)%float then b
  else if is_zero a && is_zero b then (if get_sign a then b else a)
  else a.

(** [Math.min(a, b)]: [NaN] if either is, and [-0] below [+0]. *)
Definition Math_min (a b : float) : float :=
  if is_nan a || is_nan b then nan
  else if (b <? a)%float then b
  else if is_zero a && is_zero b then (if get_sign a then a else b)
  else a.

(** [Math.min(100, Math.max(0, worker.progress * 100))], the bar's width in
    percent. *)
Definition bar_width (progress : float) : float :=
  Math_min 100 (Math_max 0 (progress * 100)).

End Panel.

(* ===================================================================== *)
(** * cacheFfmpeg/ffmpegCache.ts *)
(* ===================================================================== *)

Module FfmpegCache.

(** A [Response]: the HTTP status and the body. *)
Record Response := mkResponse { status : N; body : bytes }.

(** [response.ok]: a status in 200..299. *)
Definition ok (r : Response) : bool := (200 <=? status r)%N && (status r <=? 299)%N.

(** The global object: no [window] at all, or a window with or without the
    [caches] property; a Cache Storage maps bucket names to buckets, a
    bucket maps request URLs to responses. *)
Inductive Global :=
| NoWindow
| Window (caches : option (gmap string (gmap string Response))).

(** [function getCaches()] *)
Definition getCaches (g : Global) : option (gmap string (gmap string Response)) :=
  match g with
  | NoWindow => None
  | Window c => c
  end.

(** [caches.open(name)]: the bucket, created empty when it is not there. *)
Definition open (name : string) (cs : gmap string (gmap string Response))
  : gmap string (gmap string Response) * gmap string Response :=
  match cs !! name with
  | Some c => (cs, c)
  | None => (<[name := ∅]> cs, ∅)
  end.

(** The entries of our bucket, none when the bucket or the storage is
    missing. *)
Definition bucket (g : Global) : gmap string Response :=
  default ∅ (getCaches g ≫= (.!! FFMPEG_CACHE_NAME)).

(** The entries of our bucket in a Cache Storage, none when the bucket is
    missing. *)
Definition entries (cs : gmap string (gmap string Response)) : gmap string Response :=
  default ∅ (cs !! FFMPEG_CACHE_NAME).

(** [export async function isCoreCached()] *)
Definition isCoreCached (g : Global) : Global * Result bool :=
  match getCaches g with
  | None => (g, Resolved false)
  | Some caches =>
      let '(caches, cache) := open FFMPEG_CACHE_NAME caches in
      let jsRes := cache !! CORE_JS_URL in
      let wasmRes := cache !! CORE_WASM_URL in
      (Window (Some caches),
       Resolved (bool_decide (is_Some jsRes) && bool_decide (is_Some wasmRes)))
  end.

(** [AbortSignal]: whether it is already aborted. *)
Record AbortSignal := mkSignal { aborted : bool }.

Definition AbortError : Error := mkError "AbortError" "signal is aborted without reason".

(** The network: how the request for each URL ends, and, of the two requests
    for the core's assets in flight together, whether the one for the binary
    ends before the one for the script. *)
Record Network := mkNetwork {
  respond :> string -> Result Response;
  binary_first : bool
}.

(** [fetch(url, { cache: "no-store", signal })] over a network [net]. *)
Definition fetch (net : Network) (signal : option AbortSignal)
  (url : string) : Result Response :=
  match signal with
  | Some (mkSignal true) => Rejected AbortError
  | _ => net url
  end.

(** [cache.put(url, response)]: the Cache API refuses a partial (206)
    response. *)
Definition put (url : string) (r : Response) (cache : gmap string Response)
  : gmap string Response * Result unit :=
  if (status r =? 206)%N then (cache, Rejected (new_TypeError "Partial response (status code 206) is unsupported"))
  else (<[url := r]> cache, Resolved tt).

(** [export async function cacheCoreAssets(signal?)].  Both fetches and both
    puts are started together; [Promise.all] rejects with the rejection that
    happens first: of two failed fetches the one the network ends first, of
    two refused puts either (the Cache API's error is the same).  A put that
    is still under way when the other is refused is carried out all the
    same. *)
Definition cacheCoreAssets (net : Network)
  (signal : option AbortSignal) (g : Global) : Global * Result unit :=
  match getCaches g with
  | None => (g, Rejected (new_Error "Cache Storage API is not available in this environment"))
  | Some caches =>
      let '(caches, cache) := open FFMPEG_CACHE_NAME caches in
      let g := Window (Some caches) in
      match fetch net signal CORE_JS_URL, fetch net signal CORE_WASM_URL with
      | Rejected e1, Rejected e2 => (g, Rejected (if binary_first net then e2 else e1))
      | Rejected e, Resolved _ => (g, Rejected e)
      | Resolved _, Rejected e => (g, Rejected e)
      | Resolved js, Resolved wasm =>
          if negb (ok js) then
            (g, Rejected (new_Error ("Failed to fetch ffmpeg-core.js: " +:+ pretty (status js))))
          else if negb (ok wasm) then
            (g, Rejected (new_Error ("Failed to fetch ffmpeg-core.wasm: " +:+ pretty (status wasm))))
          else
            let '(cache, r1) := put CORE_JS_URL js cache in
            let '(cache, r2) := put CORE_WASM_URL wasm cache in
            (Window (Some (<[FFMPEG_CACHE_NAME := cache]> caches)),
             match r1, r2 with
             | Rejected e, _ => Rejected e
             | Resolved _, Rejected e => Rejected e
             | Resolved _, Resolved _ => Resolved tt
             end)
      end
  end.

(** [export async function clearCoreCache()] *)
Definition clearCoreCache (g : Global) : Global * Result unit :=
  match getCaches g with
  | None => (g, Resolved tt)
  | Some caches => (Window (Some (delete FFMPEG_CACHE_NAME caches)), Resolved tt)
  end.

(** [export async function getCoreBlobURLsFromCache()], minting in the
    page's URL store [st]; [contentType] reads the MIME type a response's
    [blob()] gets. *)
Definition getCoreBlobURLsFromCache (contentType : Response -> string)
  (g : Global) (st : Store) : Global * Store * Result (option (nat * nat)) :=
  match getCaches g with
  | None => (g, st, Resolved None)
  | Some caches =>
      let '(caches, cache) := open FFMPEG_CACHE_NAME caches in
      let g := Window (Some caches) in
      match cache !! CORE_JS_URL, cache !! CORE_WASM_URL with
      | Some jsRes, Some wasmRes =>
          let jsBlob := mkBlob (body jsRes) (contentType jsRes) in
          let wasmBlob := mkBlob (body wasmRes) (contentType wasmRes) in
          let '(coreURL, st) := createObjectURL jsBlob st in
          let '(wasmURL, st) := createObjectURL wasmBlob st in
          (g, st, Resolved (Some (coreURL, wasmURL)))
      | _, _ => (g, st, Resolved None)
      end
  end.

End FfmpegCache.

(* ===================================================================== *)
(** * cacheFfmpeg/FfmpegCacheManager.tsx *)
(* ===================================================================== *)

Module FfmpegCacheManager.

(** The component's three pieces of state. *)
Record Manager := mkManager { cached : bool; busy : bool; error : option string }.

(** [useState(false)], [useState(false)], [useState(null)] *)
Definition mount : Manager := mkManager false false None.

Definition setCached (b : bool) (m : Manager) : Manager := mkManager b (busy m) (error m).
Definition setBusy (b : bool) (m : Manager) : Manager := mkManager (cached m) b (error m).
Definition setError (e : option string) (m : Manager) : Manager :=
  mkManager (cached m) (busy m) e.

(** [e?.message || fallback] *)
Definition message_or (e : Js.Error) (fallback : string) : string :=
  if decide (Js.message e = "") then fallback else Js.message e.

(** The effect run on mount: [setCached(await isCoreCached())]; an error is
    only logged. *)
Definition checkOnMount (s : FfmpegCache.Global * Manager) : FfmpegCache.Global * Manager :=
  let '(g, m) := s in
  match FfmpegCache.isCoreCached g with
  | (g, Resolved ok) => (g, setCached ok m)
  | (g, Rejected _) => (g, m)
  end.

(** [async function handlePrecache()] *)
Definition handlePrecache (net : FfmpegCache.Network)
  (s : FfmpegCache.Global * Manager) : FfmpegCache.Global * Manager :=
  let '(g, m) := s in
  let m := setBusy true m in
  let m := setError None m in
  let '(g, r) := FfmpegCache.cacheCoreAssets net None g in
  let m := match r with
           | Resolved _ => setCached true m
           | Rejected e => setError (Some (message_or e "Failed to cache FFmpeg core")) m
           end in
  (g, setBusy false m).

(** [async function handleClear()] *)
Definition handleClear (s : FfmpegCache.Global * Manager) : FfmpegCache.Global * Manager :=
  let '(g, m) := s in
  let m := setBusy true m in
  let m := setError None m in
  let '(g, r) := FfmpegCache.clearCoreCache g in
  let m := match r with
           | Resolved _ => setCached false m
           | Rejected e => setError (Some (message_or e "Failed to clear cache")) m
           end in
  (g, setBusy false m).

(** What happens to the component: its mount effect and its two buttons
    (disabled while [busy], so one action ends before the next starts). *)
Inductive Op :=
| CheckOnMount
| Precache (net : FfmpegCache.Network)
| Clear.

Definition apply (o : Op) (s : FfmpegCache.Global * Manager) : FfmpegCache.Global * Manager :=
  match o with
  | CheckOnMount => checkOnMount s
  | Precache net => handlePrecache net s
  | Clear => handleClear s
  end.

Definition run (ops : list Op) (s : FfmpegCache.Global * Manager)
  : FfmpegCache.Global * Manager :=
  foldl (fun s o => apply o s) s ops.

(** Both assets are in our bucket. *)
Definition both_stored (g : FfmpegCache.Global) : Prop :=
  is_Some (FfmpegCache.bucket g !! CORE_JS_URL)
  ∧ is_Some (FfmpegCache.bucket g !! CORE_WASM_URL).

End FfmpegCacheManager.

(* ===================================================================== *)
(** * worker/useFfmpegWorker.ts: the other callbacks *)
(* ===================================================================== *)

Module UseFfmpegWorkerCallbacks.

Import UseFfmpegWorker.

(** The text of an object URL: never empty, and different for different
    URLs. *)
Definition objectURL_string (u : nat) : string := "blob:" +:+ pretty u.

(** [ensureWorker()] in a browser: the worker is created when there is
    none. *)
Definition ensureWorker (h : Hook) : Hook :=
  mkHook (state h) (previewUrlRef h) (snapshotUrlRef h) true (posted h) (urls h).

(** [w.postMessage(cmd)] *)
Definition postMessage (cmd : WorkerCommand) (h : Hook) : Hook :=
  mkHook (state h) (previewUrlRef h) (snapshotUrlRef h) (workerRef h)
         (posted h ++ [cmd])%list (urls h).

(** [loadCore(opts)], with [preferCache] the option as given and [g] the
    browser's Cache Storage at the time. *)
Definition loadCore (window : bool) (preferCache : option bool)
  (contentType : FfmpegCache.Response -> string) (g : FfmpegCache.Global) (h : Hook)
  : FfmpegCache.Global * Hook :=
  if negb window then (g, h)
  else
    let h := ensureWorker h in
    let h := setState (fun s => mkState WorkerStatus.loading 0 (time s) (lastLog s)
                                  None (previewUrl s) (snapshotUrl s)) h in
    if bool_decide (preferCache ≠ Some false) then
      let '(g, st, cached) :=
        FfmpegCache.getCoreBlobURLsFromCache contentType g (urls h) in
      let h := mkHook (state h) (previewUrlRef h) (snapshotUrlRef h) (workerRef h)
                      (posted h) st in
      match cached with
      | Resolved (Some (coreURL, wasmURL)) =>
          (g, postMessage
                (CmdLoad (Some (mkLoadPayload (Some (objectURL_string coreURL))
                                              (Some (objectURL_string wasmURL))))) h)
      | Resolved None => (g, postMessage (CmdLoad None) h)
      | Rejected _ => (g, h)
      end
    else (g, postMessage (CmdLoad None) h).

(** [cancel()] *)
Definition cancel (window : bool) (h : Hook) : Hook :=
  if negb window then h else postMessage CmdCancel (ensureWorker h).

(** [terminate()]: the command is posted, the worker is killed and
    forgotten. *)
Definition terminate (window : bool) (h : Hook) : Hook :=
  if negb window then h
  else
    let h := postMessage CmdTerminate (ensureWorker h) in
    mkHook (state h) (previewUrlRef h) (snapshotUrlRef h) false (posted h) (urls h).

(** The cleanup of the hook's effect, run when the component unmounts. *)
Definition unmount (h : Hook) : Hook :=
  let st := revoke_current (previewUrlRef h) (urls h) in
  let st := revoke_current (snapshotUrlRef h) st in
  mkHook (state h) (previewUrlRef h) (snapshotUrlRef h) false (posted h) st.

(** What happens to the hook: an event from a worker, or one of its five
    callbacks. *)
Inductive Op :=
| Message (ev : WorkerEvent)
| LoadCore (window : bool) (preferCache : option bool)
    (contentType : FfmpegCache.Response -> string) (g : FfmpegCache.Global)
| MakePreview (window : bool) (file : Blob) (opts : option PreviewParams.t)
| MakeSnapshot (window : bool) (file : Blob) (opts : option SnapshotParams.t)
| Cancel (window : bool)
| Terminate (window : bool).

Definition apply (o : Op) (h : Hook) : Hook :=
  match o with
  | Message ev => onmessage ev h
  | LoadCore window preferCache contentType g =>
      (loadCore window preferCache contentType g h).2
  | MakePreview window file opts => makePreview window file opts h
  | MakeSnapshot window file opts => makeSnapshot window file opts h
  | Cancel window => cancel window h
  | Terminate window => terminate window h
  end.

Definition run (ops : list Op) (h : Hook) : Hook := foldl (fun h o => apply o h) h ops.

(** [u] went to a worker as the URL of a core asset. *)
Definition core_url_posted (u : nat) (h : Hook) : Prop :=
  ∃ payload, CmdLoad (Some payload) ∈ posted h
             ∧ (coreURL payload = Some (objectURL_string u)
                ∨ wasmURL payload = Some (objectURL_string u)).

(** The live URLs are the ones the two refs hold and the ones posted for
    the core assets; all were minted before the next one to come; the refs
    hold different URLs, and none that was posted. *)
Definition urls_accounted (h : Hook) : Prop :=
  (∀ u, is_Some (live (urls h) !! u)
        ↔ previewUrlRef h = Some u ∨ snapshotUrlRef h = Some u ∨ core_url_posted u h)
  ∧ (∀ u, is_Some (live (urls h) !! u) → u < minted (urls h))
  ∧ (∀ u, previewUrlRef h = Some u → snapshotUrlRef h ≠ Some u)
  ∧ (∀ u, core_url_posted u h → previewUrlRef h ≠ Some u ∧ snapshotUrlRef h ≠ Some u).

End UseFfmpegWorkerCallbacks.

(* ===================================================================== *)
(** * worker/FfmpegWorkerPanel.tsx: what the buttons allow *)
(* ===================================================================== *)

Module PanelControls.

Import UseFfmpegWorker.

(** [const canWork = hasBlob && (worker.status === "ready" || ... "idle" ||
    ... "error" || ... "canceled")] *)
Definition canWork (hasBlob : bool) (st : WorkerStatus.t) : bool :=
  hasBlob &&
  match st with
  | WorkerStatus.ready | WorkerStatus.idle | WorkerStatus.error | WorkerStatus.canceled => true
  | _ => false
  end.

(** [const isBusy = worker.status === "loading" || worker.status === "working"] *)
Definition isBusy (st : WorkerStatus.t) : bool :=
  match st with
  | WorkerStatus.loading | WorkerStatus.working => true
  | _ => false
  end.

End PanelControls.

(* ===================================================================== *)
(** * recorder/media.ts, recorder/reducer.ts, recorder/context.tsx *)
(* ===================================================================== *)

Module Recorder.

(** [type RecordingStatus] *)
Inductive RecordingStatus := idle | ready | recording | stopped | error.

#[global] Instance RecordingStatus_eq_dec : EqDecision RecordingStatus.
Proof. solve_decision. Defined.

(** A [MediaStream]: whether its tracks are still live. *)
Record MediaStream := mkStream { tracks_live : bool }.

(** A [MediaRecorder]: the type it was created with, whether it records
    (its [state] is "recording" rather than "inactive"), and whether a
    "stop" event is still to be fired. *)
Record MediaRecorder := mkRecorder {
  created_with : option string;
  active : bool;
  stop_pending : bool
}.

(** [interface RecorderState] *)
Record RecorderState := mkRecorderState {
  status : RecordingStatus;
  errorMessage : option string;
  stream : option MediaStream;
  recorder : option MediaRecorder;
  chunks : list Blob;
  blob : option Blob;
  objectUrl : option nat;
  mimeType : option string
}.

(** [type Action] *)
Inductive Action :=
| SET_ERROR (message : string)
| SET_STREAM (stream : option MediaStream)
| SET_RECORDER (recorder : option MediaRecorder) (mimeType : option string)
| SET_STATUS (status : RecordingStatus)
| PUSH_CHUNK (chunk : Blob)
| CLEAR_CHUNKS
| SET_BLOB (blob : option Blob)
| SET_OBJECT_URL (url : option nat).

(** [const initialState] *)
Definition initialState : RecorderState :=
  mkRecorderState idle None None None [] None None None.

(** [function reducer(state, action)] *)
Definition reducer (state : RecorderState) (action : Action) : RecorderState :=
  match action with
  | SET_ERROR message =>
      mkRecorderState error (Some message) (stream state) (recorder state)
        (chunks state) (blob state) (objectUrl state) (mimeType state)
  | SET_STREAM s =>
      mkRecorderState (status state) (errorMessage state) s (recorder state)
        (chunks state) (blob state) (objectUrl state) (mimeType state)
  | SET_RECORDER r m =>
      mkRecorderState (status state) (errorMessage state) (stream state) r
        (chunks state) (blob state) (objectUrl state) m
  | SET_STATUS st =>
      mkRecorderState st (errorMessage state) (stream state) (recorder state)
        (chunks state) (blob state) (objectUrl state) (mimeType state)
  | PUSH_CHUNK chunk =>
      mkRecorderState (status state) (errorMessage state) (stream state) (recorder state)
        (chunks state ++ [chunk])%list (blob state) (objectUrl state) (mimeType state)
  | CLEAR_CHUNKS =>
      mkRecorderState (status state) (errorMessage state) (stream state) (recorder state)
        [] (blob state) (objectUrl state) (mimeType state)
  | SET_BLOB b =>
      mkRecorderState (status state) (errorMessage state) (stream state) (recorder state)
        (chunks state) b (objectUrl state) (mimeType state)
  | SET_OBJECT_URL url =>
      mkRecorderState (status state) (errorMessage state) (stream state) (recorder state)
        (chunks state) (blob state) url (mimeType state)
  end.

(** ** recorder/media.ts *)

(** What the page runs in: the server (no [window]), or a browser with its
    security context, the outcome [getUserMedia] would have through
    [navigator.mediaDevices] and through a legacy entry point (when there is
    one), and [MediaRecorder.isTypeSupported] (when [MediaRecorder] is
    defined). *)
Record Browser := mkBrowser {
  isSecureContext : bool;
  hostname : string;
  mediaDevices_getUserMedia : option (Result MediaStream);
  legacy_getUserMedia : option (Result MediaStream);
  isTypeSupported : option (string -> bool)
}.

(** [export function pickSupportedMimeType(candidates)] *)
Definition pickSupportedMimeType (window : option Browser) (candidates : list string)
  : option string :=
  match window with
  | None => None
  | Some b =>
      match isTypeSupported b with
      | None => None
      | Some supported => head (filter (fun t => supported t = true) candidates)
      end
  end.

(** [export async function requestUserMedia(constraints)] *)
Definition requestUserMedia (window : option Browser) : Result MediaStream :=
  match window with
  | None => Rejected (new_Error "getUserMedia cannot run on the server")
  | Some b =>
      if negb (isSecureContext b) && negb (bool_decide (hostname b = "localhost")) then
        Rejected (new_Error
          "MediaDevices API requires a secure context (HTTPS). Please use HTTPS or localhost.")
      else
        match mediaDevices_getUserMedia b with
        | Some r => r
        | None =>
            match legacy_getUserMedia b with
            | Some r => r
            | None => Rejected (new_Error
                "MediaDevices.getUserMedia is not supported in this browser. Please try a modern browser and ensure HTTPS or localhost.")
            end
        end
  end.

(** ** recorder/context.tsx *)

(** What [RecorderProvider] keeps: the reducer's state, the two refs and the
    page's URLs; and what it has let go of: the streams and the recorders
    the state referred to once and does not any more.  These objects live
    on, the streams with their tracks and the recorders with the handlers
    [init] gave them. *)
Record Provider := mkProvider {
  state : RecorderState;
  urlRef : option nat;
  chunksRef : list Blob;
  urls : Store;
  released : list MediaStream;
  orphans : list MediaRecorder
}.

Definition mount : Provider := mkProvider initialState None [] no_urls [] [].

Definition dispatch (a : Action) (p : Provider) : Provider :=
  mkProvider (reducer (state p) a) (urlRef p) (chunksRef p) (urls p)
    (released p) (orphans p).

Definition set_chunksRef (l : list Blob) (p : Provider) : Provider :=
  mkProvider (state p) (urlRef p) l (urls p) (released p) (orphans p).

(** The recorder object the state refers to, changed in place. *)
Definition mutate_recorder (f : MediaRecorder -> MediaRecorder) (p : Provider) : Provider :=
  mkProvider
    (mkRecorderState (status (state p)) (errorMessage (state p)) (stream (state p))
       (f <$> recorder (state p)) (chunks (state p)) (blob (state p))
       (objectUrl (state p)) (mimeType (state p)))
    (urlRef p) (chunksRef p) (urls p) (released p) (orphans p).

(** The stream object the state refers to, changed in place. *)
Definition mutate_stream (f : MediaStream -> MediaStream) (p : Provider) : Provider :=
  mkProvider
    (mkRecorderState (status (state p)) (errorMessage (state p)) (f <$> stream (state p))
       (recorder (state p)) (chunks (state p)) (blob (state p))
       (objectUrl (state p)) (mimeType (state p)))
    (urlRef p) (chunksRef p) (urls p) (released p) (orphans p).

(** [dispatch({ type: "SET_STREAM", stream })]: the stream the state
    referred to is let go of. *)
Definition dispatch_SET_STREAM (s : option MediaStream) (p : Provider) : Provider :=
  let p := mkProvider (state p) (urlRef p) (chunksRef p) (urls p)
             (released p ++ option_list (stream (state p)))%list (orphans p) in
  dispatch (SET_STREAM s) p.

(** [dispatch({ type: "SET_RECORDER", recorder, mimeType })]: the recorder
    the state referred to is let go of. *)
Definition dispatch_SET_RECORDER (r : option MediaRecorder) (m : option string)
  (p : Provider) : Provider :=
  let p := mkProvider (state p) (urlRef p) (chunksRef p) (urls p)
             (released p) (orphans p ++ option_list (recorder (state p)))%list in
  dispatch (SET_RECORDER r m) p.

(** [if (urlRef.current) { URL.revokeObjectURL(urlRef.current); urlRef.current = null; }] *)
Definition revoke_urlRef (p : Provider) : Provider :=
  mkProvider (state p) None (chunksRef p) (revoke_current (urlRef p) (urls p))
    (released p) (orphans p).

Definition mimeCandidates : list string :=
  ["video/webm;codecs=vp9,opus"; "video/webm;codecs=vp8,opus"; "video/webm"; "video/mp4"].

Definition MediaRecorder_undefined : Error :=
  mkError "ReferenceError" "MediaRecorder is not defined".

(** [const init = useCallback(async (constraints) => { ... })].  Where
    [MediaRecorder] is not defined, [new MediaRecorder(stream)] throws with
    the stream already obtained: nothing refers to it then. *)
Definition init (window : option Browser) (p : Provider) : Provider :=
  match window with
  | None => p
  | Some b =>
      match requestUserMedia window with
      | Rejected e => dispatch (SET_ERROR (Js.message e)) p
      | Resolved s =>
          let picked := pickSupportedMimeType window mimeCandidates in
          match isTypeSupported b with
          | None =>
              let p := mkProvider (state p) (urlRef p) (chunksRef p) (urls p)
                         (released p ++ [s])%list (orphans p) in
              dispatch (SET_ERROR (Js.message MediaRecorder_undefined)) p
          | Some _ =>
              let recorder := mkRecorder picked false false in
              let p := dispatch_SET_STREAM (Some s) p in
              let p := dispatch_SET_RECORDER (Some recorder) picked p in
              let p := dispatch (SET_STATUS ready) p in
              let p := dispatch CLEAR_CHUNKS p in
              let p := dispatch (SET_BLOB None) p in
              dispatch (SET_OBJECT_URL None) p
          end
      end
  end.

(** [recorder.ondataavailable] *)
Definition ondataavailable (data : option Blob) (p : Provider) : Provider :=
  match data with
  | Some d =>
      if bool_decide (0 < length (parts d)) then
        dispatch (PUSH_CHUNK d) (set_chunksRef (chunksRef p ++ [d])%list p)
      else p
  | None => p
  end.

(** [recorder.onerror] *)
Definition onerror (message : option string) (p : Provider) : Provider :=
  dispatch (SET_ERROR (default "Recorder error" message)) p.

(** [new Blob(chunks, { type })] *)
Definition new_Blob (chunks : list Blob) (type : string) : Blob :=
  mkBlob (concat (parts <$> chunks)) type.

(** [recorder.onstop], with [picked] the type the recorder was created
    with. *)
Definition onstop (picked : option string) (p : Provider) : Provider :=
  let type := or_string picked "video/webm" in
  let blob := new_Blob (chunksRef p) type in
  let p := dispatch (SET_BLOB (Some blob)) p in
  let p := dispatch CLEAR_CHUNKS p in
  let p := set_chunksRef [] p in
  let st := revoke_current (urlRef p) (urls p) in
  let '(url, st) := createObjectURL blob st in
  let p := mkProvider (state p) (Some url) (chunksRef p) st (released p) (orphans p) in
  let p := dispatch (SET_OBJECT_URL (Some url)) p in
  dispatch (SET_STATUS stopped) p.

Definition InvalidStateError (method state : string) : Error :=
  mkError "InvalidStateError"
    ("Failed to execute '" +:+ method +:+ "' on 'MediaRecorder': The MediaRecorder's state is '"
       +:+ state +:+ "'.").

(** [const start = useCallback(() => { ... })]; [recorder.start()] throws
    unless the recorder is inactive. *)
Definition start (p : Provider) : Provider :=
  match recorder (state p) with
  | None => p
  | Some r =>
      if bool_decide (status (state p) = recording) then p
      else
        let p := dispatch CLEAR_CHUNKS p in
        let p := set_chunksRef [] p in
        if active r then
          dispatch (SET_ERROR (Js.message (InvalidStateError "start" "recording"))) p
        else
          let p := mutate_recorder (fun r => mkRecorder (created_with r) true (stop_pending r)) p in
          dispatch (SET_STATUS recording) p
  end.

(** [const stop = useCallback(() => { ... })]; [recorder.stop()] on an
    inactive recorder does nothing, on a recording one it makes it inactive
    and queues the "stop" event. *)
Definition stop (p : Provider) : Provider :=
  match recorder (state p) with
  | None => p
  | Some r =>
      if bool_decide (status (state p) = recording) then
        if active r then
          mutate_recorder (fun r => mkRecorder (created_with r) false true) p
        else p
      else p
  end.

(** [const reset = useCallback(() => { ... })] *)
Definition reset (p : Provider) : Provider :=
  let p := revoke_urlRef p in
  let p := dispatch (SET_OBJECT_URL None) p in
  let p := dispatch CLEAR_CHUNKS p in
  let p := set_chunksRef [] p in
  dispatch (SET_STATUS (if bool_decide (is_Some (stream (state p))) then ready else idle)) p.

(** [track.stop()] on every track of a stream. *)
Definition stop_tracks (s : MediaStream) : MediaStream := mkStream false.

(** [recorder.stop()]: nothing on an inactive recorder (or an error, which
    [cleanup] swallows); a recording one becomes inactive, and its "stop"
    event is queued. *)
Definition MediaRecorder_stop (r : MediaRecorder) : MediaRecorder :=
  if active r then mkRecorder (created_with r) false true else r.

(** [const cleanup = useCallback(() => { ... })] *)
Definition cleanup (p : Provider) : Provider :=
  let mime := mimeType (state p) in
  let p := mutate_stream stop_tracks p in
  let p := mutate_recorder MediaRecorder_stop p in
  let p := revoke_urlRef p in
  let p := dispatch_SET_STREAM None p in
  let p := dispatch_SET_RECORDER None mime p in
  let p := dispatch (SET_BLOB None) p in
  let p := dispatch (SET_OBJECT_URL None) p in
  let p := dispatch CLEAR_CHUNKS p in
  let p := set_chunksRef [] p in
  dispatch (SET_STATUS idle) p.

(** What can happen to the session: the five operations, the events of the
    recorder the state refers to, and the events of the recorders it has let
    go of (the [i]-th of them), whose handlers are still the ones [init]
    set.  A "stop" event comes once, after the recorder was stopped; chunks
    and errors may come at any time here, which is more than a browser
    does. *)
Inductive Op :=
| Init (window : option Browser)
| Start
| Stop
| Reset
| Cleanup
| DataAvailable (data : option Blob)
| Stopped
| Failed (message : option string)
| OrphanDataAvailable (i : nat) (data : option Blob)
| OrphanStopped (i : nat)
| OrphanFailed (i : nat) (message : option string).

Definition apply (o : Op) (p : Provider) : Provider :=
  match o with
  | Init window => init window p
  | Start => start p
  | Stop => stop p
  | Reset => reset p
  | Cleanup => cleanup p
  | DataAvailable d =>
      match recorder (state p) with Some _ => ondataavailable d p | None => p end
  | Stopped =>
      match recorder (state p) with
      | Some r =>
          if stop_pending r then
            onstop (created_with r)
              (mutate_recorder (fun r => mkRecorder (created_with r) (active r) false) p)
          else p
      | None => p
      end
  | Failed m =>
      match recorder (state p) with Some _ => onerror m p | None => p end
  | OrphanDataAvailable i d =>
      match orphans p !! i with Some _ => ondataavailable d p | None => p end
  | OrphanStopped i =>
      match orphans p !! i with
      | Some r =>
          if stop_pending r then
            onstop (created_with r)
              (mkProvider (state p) (urlRef p) (chunksRef p) (urls p) (released p)
                 (<[i := mkRecorder (created_with r) (active r) false]> (orphans p)))
          else p
      | None => p
      end
  | OrphanFailed i m =>
      match orphans p !! i with Some _ => onerror m p | None => p end
  end.

Definition run (ops : list Op) (p : Provider) : Provider :=
  foldl (fun p o => apply o p) p ops.

(** The events of the recorders, as opposed to what the page's buttons do. *)
Definition is_event (o : Op) : bool :=
  match o with
  | Init _ | Start | Stop | Reset | Cleanup => false
  | _ => true
  end.

(** recorder/RecorderDashboard.tsx: [const canStart] *)
Definition canStart (st : RecordingStatus) : bool :=
  bool_decide (st = ready) || bool_decide (st = stopped).

(** A browser where everything is granted. *)
Definition granting : Browser :=
  mkBrowser true "localhost" (Some (Resolved (mkStream true))) None
    (Some (fun t => bool_decide (t = "video/webm"))).

(** The stream and the recorder come and go together, and an idle session
    has neither; a URL in the state comes with a blob. *)
Definition session_invariant (p : Provider) : Prop :=
  (stream (state p) = None → recorder (state p) = None)
  ∧ (recorder (state p) = None → stream (state p) = None)
  ∧ (status (state p) = idle → recorder (state p) = None)
  ∧ (blob (state p) = None → objectUrl (state p) = None).

(** The cleanup of the provider's effect, run when it unmounts.  The refs,
    the URLs and the recorders outlive the component, and so do the
    recorders' handlers; what they [dispatch] from then on is rendered by
    nobody. *)
Definition unmount (p : Provider) : Provider := revoke_urlRef p.

(** Every live URL is the one [urlRef] holds; a URL in the state is that
    URL, and it serves the blob in the state. *)
Definition url_invariant (p : Provider) : Prop :=
  (∀ u, is_Some (live (urls p) !! u) → urlRef p = Some u)
  ∧ (∀ u, objectUrl (state p) = Some u →
       urlRef p = Some u ∧ is_Some (blob (state p))
       ∧ live (urls p) !! u = blob (state p)).

(** The chunks [ondataavailable] keeps: the ones that are there and not
    empty. *)
Definition kept (ds : list (option Blob)) : list Blob :=
  filter (fun d => 0 < length (parts d)) (omap id ds).

End Recorder.

(* ===================================================================== *)
(** * recorder/RecorderDashboard.tsx *)
(* ===================================================================== *)

Module RecorderDashboard.

(** The extension of the proposed file name:
    [mimeType?.includes("webm") ? "webm" : mimeType?.includes("mp4") ? "mp4" : "webm"] *)
Definition ext (mimeType : option string) : string :=
  match mimeType with
  | Some m =>
      if UseFfmpegWorker.includes m "webm" then "webm"
      else if UseFfmpegWorker.includes m "mp4" then "mp4"
      else "webm"
  | None => "webm"
  end.

(** [const canInit = status === "idle" || status === "error"] *)
Definition canInit (st : Recorder.RecordingStatus) : bool :=
  bool_decide (st = Recorder.idle) || bool_decide (st = Recorder.error).

(** [const canStop = status === "recording"] *)
Definition canStop (st : Recorder.RecordingStatus) : bool :=
  bool_decide (st = Recorder.recording).

(** [const canDownload = Boolean(objectUrl && blob)] *)
Definition canDownload (s : Recorder.RecorderState) : bool :=
  bool_decide (is_Some (Recorder.objectUrl s)) && bool_decide (is_Some (Recorder.blob s)).

(** [const canReset = status === "ready" || status === "stopped" || status === "error"] *)
Definition canReset (st : Recorder.RecordingStatus) : bool :=
  bool_decide (st = Recorder.ready) || bool_decide (st = Recorder.stopped)
  || bool_decide (st = Recorder.error).

End RecorderDashboard.

(* ===================================================================== *)
(** * Concrete platforms, inputs and schedules *)
(* ===================================================================== *)

(** A platform where commands succeed and leave the file system alone, and
    fractions are left unprinted. *)
Definition quiet_platform : Platform := {|
  shortest_digits := fun _ => "";
  ffmpeg_exec := fun _ fs => (fs, [], Resolved tt);
  ffmpeg_load := fun _ _ => Resolved tt;
  toBlobURL := fun url _ => Resolved ("blob:" +:+ url)
|}.

(** A platform whose engine copies "input.webm" to the output the command
    line names last, reporting a progress of 1.7 on the way. *)
Definition copy_platform : Platform := {|
  shortest_digits := fun _ => "";
  ffmpeg_exec := fun args fs =>
    match last args, fs !! "input.webm" with
    | Some out, Some d => (<[out := d]> fs, [NoteProgress (Some 1.7%float) None], Resolved tt)
    | _, _ => (fs, [], Rejected (new_Error "no input"))
    end;
  ffmpeg_load := fun _ _ => Resolved tt;
  toBlobURL := fun url _ => Resolved ("blob:" +:+ url)
|}.

(** A two-byte recording, to be scaled to a height of 720. *)
Definition clip : PreviewParams.t :=
  PreviewParams.mk [Byte.x01; Byte.x02] None None None (Some 720%float) None None None None.

Definition still : SnapshotParams.t :=
  SnapshotParams.mk [Byte.x01; Byte.x02] None None (Some 1280%float) None None.

(** The core is loaded (two asset URLs, then the load itself), and a preview
    of [clip] is under way. *)
Definition preview_under_way : list EventLoop.Action :=
  [Deliver (CmdLoad None); Settle 0; Settle 0; Settle 0; Deliver (CmdPreview clip)].

(** A CDN that answers every request with a 404. *)
Definition cdn_404 : FfmpegCache.Network :=
  FfmpegCache.mkNetwork (fun _ => Resolved (FfmpegCache.mkResponse 404 [])) false.

(** A CDN that serves every asset. *)
Definition cdn_200 : FfmpegCache.Network :=
  FfmpegCache.mkNetwork (fun _ => Resolved (FfmpegCache.mkResponse 200 [Byte.x00])) false.

(** A browser with an empty Cache Storage. *)
Definition empty_storage : FfmpegCache.Global := FfmpegCache.Window (Some ∅).

(** A CDN that answers the script in full and the binary in part. *)
Definition cdn_partial_wasm : FfmpegCache.Network :=
  FfmpegCache.mkNetwork
    (fun url => if decide (url = CORE_JS_URL)
                then Resolved (FfmpegCache.mkResponse 200 [Byte.x00])
                else Resolved (FfmpegCache.mkResponse 206 [Byte.x00])) false.

(** A CDN that answers the binary in full and the script in part. *)
Definition cdn_partial_js : FfmpegCache.Network :=
  FfmpegCache.mkNetwork
    (fun url => if decide (url = CORE_JS_URL)
                then Resolved (FfmpegCache.mkResponse 206 [Byte.x00])
                else Resolved (FfmpegCache.mkResponse 200 [Byte.x00])) false.

(** A CDN that has lost the script (404) while the connection for the binary
    breaks. *)
Definition cdn_script_404_binary_down : FfmpegCache.Network :=
  FfmpegCache.mkNetwork
    (fun url => if decide (url = CORE_JS_URL)
                then Resolved (FfmpegCache.mkResponse 404 [])
                else Rejected (new_TypeError "Failed to fetch")) false.

(** A Cache Storage whose bucket holds both assets. *)
Definition warm_storage : FfmpegCache.Global :=
  FfmpegCache.Window (Some {[ FFMPEG_CACHE_NAME :=
    {[ CORE_JS_URL := FfmpegCache.mkResponse 200 [Byte.x00];
       CORE_WASM_URL := FfmpegCache.mkResponse 200 [Byte.x01] ]} ]}).

(** A browser where the camera is refused. *)
Definition denying : Recorder.Browser :=
  Recorder.mkBrowser true "localhost"
    (Some (Rejected (mkError "NotAllowedError" "Permission denied"))) None
    (Some (fun t => bool_decide (t = "video/webm"))).

(** One take: the camera is granted, a chunk is recorded, the recorder is
    stopped and fires its "stop" event. *)
Definition one_take : list Recorder.Op :=
  [Recorder.Init (Some Recorder.granting); Recorder.Start;
   Recorder.DataAvailable (Some (mkBlob [Byte.x2a] "video/webm"));
   Recorder.Stop; Recorder.Stopped].

(** The camera is granted once, and refused when asked again. *)
Definition granted_then_denied : list Recorder.Op :=
  [Recorder.Init (Some Recorder.granting); Recorder.Init (Some denying)].


(** The engine serves the six calls of a job one after the other. *)
Definition serve_job : list EventLoop.Action :=
  [Settle 0; Settle 0; Settle 0; Settle 0; Settle 0; Settle 0].

(** A platform whose core never loads. *)
Definition no_core_platform : Platform := {|
  shortest_digits := fun _ => "";
  ffmpeg_exec := fun _ fs => (fs, [], Resolved tt);
  ffmpeg_load := fun _ _ => Rejected (new_Error "failed to import ffmpeg-core.js");
  toBlobURL := fun url _ => Resolved ("blob:" +:+ url)
|}.

(* ===================================================================== *)
(** * Proof tools *)
(* ===================================================================== *)

(** Unfolds the combinators an asynchronous function is written with. *)
Ltac async_unfold :=
  unfold mbind, Async_bind, bind, try_catch, try_finally, gets, modify, ret, throw;
  cbn beta.

(** Closes the implications between equalities a session invariant is made
    of. *)
Ltac session_auto := simpl in *; intuition (try discriminate; try congruence).

(* ===================================================================== *)
(** * Properties: the scale filter *)
(* ===================================================================== *)

Example scaleFilter_height_720 :
  @scaleFilter quiet_platform (mkOpts None (Some 720%float)) = ["-vf"; "scale=-2:720"].
Proof. reflexivity. Qed.

Example scaleFilter_width_1280 :
  @scaleFilter quiet_platform (mkOpts (Some 1280%float) None) = ["-vf"; "scale=1280:-2"].
Proof. reflexivity. Qed.

Example scaleFilter_both :
  @scaleFilter quiet_platform (mkOpts (Some 1280%float) (Some 720%float))
  = ["-vf"; "scale=1280:720"].
Proof. reflexivity. Qed.

Example scaleFilter_neither : @scaleFilter quiet_platform (mkOpts None None) = [].
Proof. reflexivity. Qed.

Lemma truthy_zero (z : float) : is_zero z = true → truthy z = false.
Proof. intros Hz. unfold truthy. now rewrite Hz. Qed.

(** The four cases of [scaleFilter], by the truthiness of the two fields. *)
Lemma scaleFilter_by_truthiness `{Platform} (opts : Opts) :
  scaleFilter opts =
    match truthy_opt (width opts), truthy_opt (height opts) with
    | false, true => ["-vf"; "scale=-2:" +:+ shown (height opts)]
    | true, false => ["-vf"; "scale=" +:+ shown (width opts) +:+ ":-2"]
    | true, true => ["-vf"; "scale=" +:+ shown (width opts) +:+ ":" +:+ shown (height opts)]
    | false, false => []
    end.
Proof.
  unfold scaleFilter.
  destruct (truthy_opt (width opts)), (truthy_opt (height opts)); reflexivity.
Qed.

(** C7, as the spec states it, fails: a height of 0 is given, no width, and
    no filter is emitted. *)
Lemma scaleFilter_height_zero_given :
  @scaleFilter quiet_platform (mkOpts None (Some 0%float))
  ≠ ["-vf"; "scale=-2:" +:+ @Number_toString quiet_platform 0%float].
Proof. vm_compute. discriminate. Qed.

(** C7, amended: a field counts as given when it is present and truthy
    (neither 0 nor NaN).  With only the height given the filter is
    [scale=-2:h], with only the width [scale=w:-2], with both [scale=w:h],
    with neither there is no filter. *)
Theorem scaleFilter_derivation `{Platform} (w h : option float) :
  (∀ y, h = Some y → truthy y = true → truthy_opt w = false →
     scaleFilter (mkOpts w h) = ["-vf"; "scale=-2:" +:+ Number_toString y])
  ∧ (∀ x, w = Some x → truthy x = true → truthy_opt h = false →
     scaleFilter (mkOpts w h) = ["-vf"; "scale=" +:+ Number_toString x +:+ ":-2"])
  ∧ (∀ x y, w = Some x → h = Some y → truthy x = true → truthy y = true →
     scaleFilter (mkOpts w h)
     = ["-vf"; "scale=" +:+ Number_toString x +:+ ":" +:+ Number_toString y])
  ∧ (truthy_opt w = false → truthy_opt h = false → scaleFilter (mkOpts w h) = []).
Proof.
  repeat split.
  - intros y -> Hy Hw. rewrite scaleFilter_by_truthiness. simpl. now rewrite Hw, Hy.
  - intros x -> Hx Hh. rewrite scaleFilter_by_truthiness. simpl. now rewrite Hx, Hh.
  - intros x y -> -> Hx Hy. rewrite scaleFilter_by_truthiness. simpl. now rewrite Hx, Hy.
  - intros Hw Hh. rewrite scaleFilter_by_truthiness. simpl. now rewrite Hw, Hh.
Qed.

Lemma scaleFilter_derivation_witness :
  @scaleFilter quiet_platform (mkOpts None (Some 720%float)) = ["-vf"; "scale=-2:720"].
Proof.
  exact (proj1 (@scaleFilter_derivation quiet_platform None (Some 720%float))
           720%float eq_refl eq_refl eq_refl).
Defined.

(** C10: a width or height of 0 is treated as absent.  With width 0 and a
    truthy height the filter is [scale=-2:h], with height 0 and a truthy
    width it is [scale=w:-2], with both 0 there is none; and whatever the
    options, every dimension the filter names is truthy, so never 0. *)
Theorem scaleFilter_zero_is_absent `{Platform} :
  (∀ z y, is_zero z = true → truthy y = true →
     scaleFilter (mkOpts (Some z) (Some y)) = ["-vf"; "scale=-2:" +:+ Number_toString y])
  ∧ (∀ z x, is_zero z = true → truthy x = true →
     scaleFilter (mkOpts (Some x) (Some z)) = ["-vf"; "scale=" +:+ Number_toString x +:+ ":-2"])
  ∧ (∀ z z', is_zero z = true → is_zero z' = true →
     scaleFilter (mkOpts (Some z) (Some z')) = [])
  ∧ (∀ opts,
       scaleFilter opts = []
       ∨ (∃ y, height opts = Some y ∧ is_zero y = false ∧
            scaleFilter opts = ["-vf"; "scale=-2:" +:+ Number_toString y])
       ∨ (∃ x, width opts = Some x ∧ is_zero x = false ∧
            scaleFilter opts = ["-vf"; "scale=" +:+ Number_toString x +:+ ":-2"])
       ∨ (∃ x y, width opts = Some x ∧ height opts = Some y ∧
            is_zero x = false ∧ is_zero y = false ∧
            scaleFilter opts
            = ["-vf"; "scale=" +:+ Number_toString x +:+ ":" +:+ Number_toString y])).
Proof.
  repeat split.
  - intros z y Hz Hy. rewrite scaleFilter_by_truthiness. simpl.
    now rewrite (truthy_zero z Hz), Hy.
  - intros z x Hz Hx. rewrite scaleFilter_by_truthiness. simpl.
    now rewrite (truthy_zero z Hz), Hx.
  - intros z z' Hz Hz'. rewrite scaleFilter_by_truthiness. simpl.
    now rewrite (truthy_zero z Hz), (truthy_zero z' Hz').
  - intros [w h]. rewrite scaleFilter_by_truthiness. simpl.
    assert (Hnz : ∀ v, truthy v = true → is_zero v = false).
    { intros v. unfold truthy. destruct (is_zero v); [discriminate | reflexivity]. }
    destruct w as [x|], h as [y|]; simpl.
    + destruct (truthy x) eqn:Hx, (truthy y) eqn:Hy.
      * right; right; right. exists x, y. auto 10.
      * right; right; left. exists x. auto.
      * right; left. exists y. auto.
      * now left.
    + destruct (truthy x) eqn:Hx.
      * right; right; left. exists x. auto.
      * now left.
    + destruct (truthy y) eqn:Hy.
      * right; left. exists y. auto.
      * now left.
    + now left.
Qed.

Lemma scaleFilter_zero_is_absent_witness :
  @scaleFilter quiet_platform (mkOpts (Some 0%float) (Some 720%float))
  = ["-vf"; "scale=-2:720"].
Proof.
  exact (proj1 (@scaleFilter_zero_is_absent quiet_platform)
           0%float 720%float eq_refl eq_refl).
Defined.

(* ===================================================================== *)
(** * Properties: the worker *)
(* ===================================================================== *)

Section Paths.
Context `{Platform}.

Lemma wpg_mono {A} G R (r : Run A) (Qr Qr' : Worker → A → Prop)
  (Qe Qe' : Worker → Error → Prop) :
  (∀ w a, Qr w a → Qr' w a) → (∀ w e, Qe w e → Qe' w e) →
  wpg G R r Qr Qe → wpg G R r Qr' Qe'.
Proof.
  intros Hr He. induction r as [w a | w e | ev r IH | w rq k IH]; simpl; auto.
  intros [Hg Hk]. split; [assumption |]. intros o w' Hres. apply IH, Hk, Hres.
Qed.

Lemma wpg_bind {A B} G R (r : Run A) (f : A → Async B) Qr Qe :
  wpg G R r (fun w a => wpg G R (f a w) Qr Qe) Qe → wpg G R (bind_run r f) Qr Qe.
Proof.
  induction r as [w a | w e | ev r IH | w rq k IH]; simpl; auto.
  intros [Hg Hk]. split; [assumption |]. intros o w' Hres. apply IH, Hk, Hres.
Qed.

Lemma wpg_catch {A} G R (r : Run A) (h : Error → Async A) Qr Qe :
  wpg G R r Qr (fun w e => wpg G R (h e w) Qr Qe) → wpg G R (catch_run r h) Qr Qe.
Proof.
  induction r as [w a | w e | ev r IH | w rq k IH]; simpl; auto.
  intros [Hg Hk]. split; [assumption |]. intros o w' Hres. apply IH, Hk, Hres.
Qed.

Lemma wpg_finally {A} G R (r : Run A) (fin : Async unit) Qr Qe :
  wpg G R r (fun w a => wpg G R (fin w) (fun w' _ => Qr w' a) Qe)
            (fun w e => wpg G R (fin w) (fun w' _ => Qe w' e) Qe) →
  wpg G R (finally_run r fin) Qr Qe.
Proof.
  induction r as [w a | w e | ev r IH | w rq k IH]; simpl.
  - intros Hfin. apply wpg_bind. eapply wpg_mono; [| | apply Hfin]; simpl; auto.
  - intros Hfin. apply wpg_bind. eapply wpg_mono; [| | apply Hfin]; simpl; auto.
  - exact IH.
  - intros [Hg Hk]. split; [assumption |]. intros o w' Hres. apply IH, Hk, Hres.
Qed.

Lemma wp_bind {A B} (r : Run A) (f : A → Async B) Qr Qe :
  wp r (fun w a => wp (f a w) Qr Qe) Qe → wp (bind_run r f) Qr Qe.
Proof. apply wpg_bind. Qed.

(** Whatever the block does, the [finally] clause decides where the whole
    ends: by induction on the block's paths. *)
Lemma finally_on_every_path {A} (r : Run A) (fin : Async unit) (Q : Worker → Prop) :
  (∀ w, on_every_path (fin w) Q) → on_every_path (finally_run r fin) Q.
Proof.
  intros Hfin. unfold on_every_path, wp.
  induction r as [w a | w e | ev r IH | w rq k IH]; simpl.
  - apply wpg_bind. eapply wpg_mono; [| | apply Hfin]; simpl; auto.
  - apply wpg_bind. eapply wpg_mono; [| | apply Hfin]; simpl; auto.
  - exact IH.
  - split; [exact I |]. intros o w' _. apply IH.
Qed.

(** Serving [deleteFile(path)] leaves no file [path], and brings none of the
    other names back. *)
Lemma deleteFile_served path names w1 w' evs o :
  removed names w1 →
  promise_end (RqDeleteFile path) w1 = (w', evs, o) →
  removed (path :: names) w'.
Proof.
  intros Hrm Hend. unfold promise_end in Hend.
  destruct (ffmpeg w1) as [eng |] eqn:Hf.
  - simpl in Hend. unfold on_core in Hend.
    destruct (core eng) as [fs0 |] eqn:Hc.
    + destruct (fs0 !! path) eqn:Hp; inversion Hend; subst; clear Hend;
        intros eng' fs' Hf' Hc' n Hn; simpl in Hf'; inversion Hf'; subst; clear Hf'.
      * simpl in Hc'. inversion Hc'; subst.
        apply elem_of_cons in Hn as [-> | Hn].
        -- apply lookup_delete_eq.
        -- destruct (decide (n = path)) as [-> | Hne]; [apply lookup_delete_eq |].
           rewrite lookup_delete_ne by congruence.
           now apply (Hrm eng fs0 Hf Hc).
      * rewrite Hc in Hc'. inversion Hc'; subst.
        apply elem_of_cons in Hn as [-> | Hn]; [assumption |].
        now apply (Hrm eng' fs' Hf Hc).
    + inversion Hend; subst; clear Hend.
      intros eng' fs' Hf' Hc' n Hn. simpl in Hf'. inversion Hf'; subst. congruence.
  - inversion Hend; subst. intros eng fs' Hf'. congruence.
Qed.

Lemma removed_no_instance names w : ffmpeg w = None → removed names w.
Proof. intros Hf eng fs' Hf'. congruence. Qed.

(** [try { await ffmpeg.deleteFile(path); } catch {}] always goes on, with
    [path] gone. *)
Lemma try_deleteFile_removes path names (Q : Worker → unit → Prop) Qe w :
  (∀ w', removed (path :: names) w' → Q w' tt) →
  removed names w →
  wp (try_deleteFile path w) Q Qe.
Proof.
  intros HQ Hrm. unfold try_deleteFile. async_unfold. unfold call_ffmpeg, await.
  destruct (ffmpeg w) as [eng |] eqn:Hf; simpl.
  - split; [exact I |]. intros o w' (w1 & evs & Hrely & Hend).
    pose proof (deleteFile_served _ _ _ _ _ _ (Hrely _ Hrm) Hend) as Hrm'.
    destruct o; simpl; now apply HQ.
  - now apply HQ, removed_no_instance.
Qed.

Lemma removed_nil w : removed [] w.
Proof. intros eng fs' _ _ n Hn. now apply elem_of_nil in Hn. Qed.

Lemma removed_set_busy names b w : removed names w → removed names (set_busy b w).
Proof. intros Hrm eng fs' Hf. apply (Hrm eng fs' Hf). Qed.

(** Of the engine's calls only [writeFile] and [exec] write a file: serving
    any other leaves no file where there was none. *)
Lemma others_write_no_file rq names w w' evs o :
  (∀ path data, rq ≠ RqWriteFile path data) → (∀ args, rq ≠ RqExec args) →
  removed names w → promise_end rq w = (w', evs, o) → removed names w'.
Proof.
  intros Hw He Hrm Hend.
  assert (Hdel : ∀ path, rq = RqDeleteFile path → removed names w').
  { intros path ->. pose proof (deleteFile_served _ _ _ _ _ _ Hrm Hend) as Hd.
    intros eng fs' Hf Hc n Hn. apply (Hd eng fs' Hf Hc). apply elem_of_cons. now right. }
  unfold promise_end in Hend.
  destruct rq as [u m | c wa | path d | args | path | path];
    try (now inversion Hend; subst);
    try (exfalso; now eapply Hw); try (exfalso; now eapply He).
  - destruct (ffmpeg w) as [eng |] eqn:Hf; [| now inversion Hend; subst].
    simpl in Hend. destruct (ffmpeg_load c wa); inversion Hend; subst; clear Hend.
    + intros eng' fs' Hf' Hc' n _. simpl in Hf'. inversion Hf'; subst.
      simpl in Hc'. inversion Hc'; subst. apply lookup_empty.
    + intros eng' fs' Hf' Hc'. simpl in Hf'. inversion Hf'; subst. now apply (Hrm eng' fs').
  - destruct (ffmpeg w) as [eng |] eqn:Hf; [| now inversion Hend; subst].
    simpl in Hend. unfold on_core in Hend.
    destruct (core eng) as [fs0 |] eqn:Hc; [destruct (fs0 !! path) |];
      inversion Hend; subst; clear Hend;
      intros eng' fs' Hf' Hc'; simpl in Hf'; inversion Hf'; subst;
      now apply (Hrm eng' fs').
  - now apply (Hdel path).
Qed.

(** ** The job's way out, await by await *)

Lemma deletes_in_turn_ends {A} names f0 (r : Run A) :
  deletes_in_turn names f0 r → ends_deleting names f0 r.
Proof.
  destruct r as [w a | w e | ev r | w rq k]; simpl; auto.
  intros Hd. exfalso. revert Hd.
  induction names as [| n rest IH]; simpl; [tauto |].
  destruct f0; [tauto | exact IH].
Qed.

(** [try { await ffmpeg.deleteFile(n); } catch {}] asks once, where there is
    an instance, and goes on whatever comes back. *)
Lemma deletes_try_deleteFile {B} n rest (k : unit → Async B) w :
  (∀ w', deletes_in_turn rest (ffmpeg w') (k tt w')) →
  deletes_in_turn (n :: rest) (ffmpeg w) (bind_run (try_deleteFile n w) k).
Proof.
  intros Hk. unfold try_deleteFile. async_unfold. unfold call_ffmpeg, await.
  destruct (ffmpeg w) as [eng |] eqn:Hf; simpl.
  - split; [exact Hf |]. split; [reflexivity |]. intros [v | e] w'; simpl; apply Hk.
  - specialize (Hk w). now rewrite Hf in Hk.
Qed.

Lemma keeps_instance_bind {A B} f0 (r : Run A) (f : A → Async B) :
  keeps_instance f0 r → (∀ a w, keeps_instance (ffmpeg w) (f a w)) →
  keeps_instance f0 (bind_run r f).
Proof.
  intros Hr Hf. revert f0 Hr.
  induction r as [w a | w e | ev r IH | w rq k IH]; intros f0 Hr; simpl in *.
  - subst f0. apply Hf.
  - exact Hr.
  - now apply IH.
  - destruct Hr as [Hw Hk]. split; [exact Hw |]. intros o w'. apply IH, Hk.
Qed.

Lemma keeps_instance_call_ffmpeg method rq w :
  keeps_instance (ffmpeg w) (call_ffmpeg method rq w).
Proof.
  unfold call_ffmpeg, await. destruct (ffmpeg w) eqn:Hf; simpl; [| exact Hf].
  split; [exact Hf |]. intros [v | e] w'; reflexivity.
Qed.

(** A [try ... finally] whose block never assigns [ffmpeg] and whose clause
    deletes the names in turn. *)
Lemma ends_deleting_finally {A} names (r : Run A) (fin : Async unit) f0 :
  keeps_instance f0 r →
  (∀ w (a : A), deletes_in_turn names (ffmpeg w) (bind_run (fin w) (fun _ => ret a))) →
  (∀ w e, deletes_in_turn names (ffmpeg w)
            (bind_run (fin w) (fun _ => throw (A := A) e))) →
  ends_deleting names f0 (finally_run r fin).
Proof.
  intros Hr Hret Hthrow. revert f0 Hr.
  induction r as [w a | w e | ev r IH | w rq k IH]; intros f0 Hr; simpl in *.
  - subst f0. apply deletes_in_turn_ends, Hret.
  - subst f0. apply deletes_in_turn_ends, Hthrow.
  - now apply IH.
  - destruct Hr as [Hw Hk]. right. split; [exact Hw |]. intros o w'. apply IH, Hk.
Qed.

(** ** The busy flag implies an instance, in every reachable state *)

Lemma keeps_await rq w (Q : Worker → Value → Prop) Qe :
  busy_has_instance w →
  (∀ w' v, busy_has_instance w' → Q w' v) →
  (∀ w' e, busy_has_instance w' → Qe w' e) →
  wpg busy_has_instance (fun _ _ _ w' => busy_has_instance w') (await rq w) Q Qe.
Proof.
  intros Hw HQ HQe. simpl. split; [assumption |].
  intros [v | e] w' Hw'; simpl; auto.
Qed.

Lemma keeps_call_ffmpeg method rq w (Q : Worker → Value → Prop) Qe :
  busy_has_instance w →
  (∀ w' v, busy_has_instance w' → Q w' v) →
  (∀ w' e, busy_has_instance w' → Qe w' e) →
  wpg busy_has_instance (fun _ _ _ w' => busy_has_instance w') (call_ffmpeg method rq w) Q Qe.
Proof.
  intros Hw HQ HQe. unfold call_ffmpeg.
  destruct (ffmpeg w); [now apply keeps_await | simpl; auto].
Qed.

Lemma keeps_or_blob_url url asset mimeType w (Q : Worker → string → Prop) Qe :
  busy_has_instance w →
  (∀ w' v, busy_has_instance w' → Q w' v) →
  (∀ w' e, busy_has_instance w' → Qe w' e) →
  wpg busy_has_instance (fun _ _ _ w' => busy_has_instance w')
    (or_blob_url url asset mimeType w) Q Qe.
Proof.
  intros Hw HQ HQe. unfold or_blob_url.
  destruct url as [u |]; [destruct (decide (u = "")) |]; async_unfold;
    first [ now apply HQ
          | apply wpg_bind, keeps_await; [assumption | simpl; auto | auto] ].
Qed.

Lemma keeps_ensureLoaded coreURL wasmURL w (Q : Worker → unit → Prop) Qe :
  busy_has_instance w →
  (∀ w' v, busy_has_instance w' → Q w' v) →
  (∀ w' e, busy_has_instance w' → Qe w' e) →
  wpg busy_has_instance (fun _ _ _ w' => busy_has_instance w')
    (ensureLoaded coreURL wasmURL w) Q Qe.
Proof.
  intros Hw HQ HQe. unfold ensureLoaded, post. async_unfold. simpl.
  assert (Hload : ∀ w0, busy_has_instance w0 →
    wpg busy_has_instance (fun _ _ _ w' => busy_has_instance w')
      (bind_run (or_blob_url coreURL CORE_JS_URL "text/javascript" w0)
         (λ (resolvedCoreURL : string) (w1 : Worker),
            bind_run (or_blob_url wasmURL CORE_WASM_URL "application/wasm" w1)
              (λ (resolvedWasmURL : string) (w2 : Worker),
                 bind_run (call_ffmpeg "load" (RqLoad resolvedCoreURL resolvedWasmURL) w2)
                   (λ (_ : Value) (w3 : Worker),
                      Emit EvLoaded (Return (set_loading false w3) ()))))) Q Qe).
  { intros w0 Hw0.
    apply wpg_bind, keeps_or_blob_url; [assumption | | auto].
    intros w1 c Hw1. apply wpg_bind, keeps_or_blob_url; [assumption | | auto].
    intros w2 u Hw2. apply wpg_bind, keeps_call_ffmpeg; [assumption | | auto].
    intros w3 _ Hw3. simpl. apply HQ. exact Hw3. }
  destruct (ffmpeg w) as [eng |] eqn:Hf, (loading w) eqn:Hl; simpl;
    try (now apply HQ); rewrite Hl; simpl.
  - now apply HQ.
  - apply HQ. intros _. discriminate.
  - apply Hload. intros _. simpl. discriminate.
Qed.

Lemma keeps_try_deleteFile path w (Q : Worker → unit → Prop) Qe :
  busy_has_instance w →
  (∀ w' v, busy_has_instance w' → Q w' v) →
  wpg busy_has_instance (fun _ _ _ w' => busy_has_instance w') (try_deleteFile path w) Q Qe.
Proof.
  intros Hw HQ. unfold try_deleteFile. async_unfold.
  apply wpg_catch, wpg_bind, keeps_call_ffmpeg; [assumption | |]; simpl; auto.
Qed.

Lemma busy_has_instance_released w : busy_has_instance (set_busy false w).
Proof. intros Hb. discriminate. Qed.

(** A [try ... finally] whose block and clause both keep the invariant. *)
Lemma keeps_finally (r : Run unit) (fin : Async unit) (Q : Worker → unit → Prop) Qe :
  keeps_invariant r →
  (∀ w0, busy_has_instance w0 → keeps_invariant (fin w0)) →
  (∀ w' v, busy_has_instance w' → Q w' v) →
  (∀ w' e, busy_has_instance w' → Qe w' e) →
  wpg busy_has_instance (fun _ _ _ w' => busy_has_instance w') (finally_run r fin) Q Qe.
Proof.
  intros Hbody Hfin HQ HQe. apply wpg_finally.
  eapply wpg_mono; [| | apply Hbody]; simpl.
  - intros w1 a Hw1. eapply wpg_mono; [| | apply Hfin, Hw1]; simpl; auto.
  - intros w1 e Hw1. eapply wpg_mono; [| | apply Hfin, Hw1]; simpl; auto.
Qed.

Lemma busy_has_instance_taken w : ffmpeg w ≠ None → busy_has_instance (set_busy true w).
Proof. intros Hf _. exact Hf. Qed.

Lemma keeps_doPreview p w (Q : Worker → unit → Prop) Qe :
  busy_has_instance w →
  (∀ w' v, busy_has_instance w' → Q w' v) →
  (∀ w' e, busy_has_instance w' → Qe w' e) →
  wpg busy_has_instance (fun _ _ _ w' => busy_has_instance w') (doPreview p w) Q Qe.
Proof.
  intros Hw HQ HQe. unfold doPreview, post. async_unfold. simpl.
  destruct (ffmpeg w) as [eng |] eqn:Hf; simpl; [| now apply HQe].
  assert (Hw0 : busy_has_instance (set_busy true w))
    by (apply busy_has_instance_taken; congruence).
  apply keeps_finally; [| | assumption | assumption]; unfold keeps_invariant.
  - apply wpg_bind, keeps_call_ffmpeg; [assumption | | auto].
    intros w1 _ Hw1. apply wpg_bind, keeps_call_ffmpeg; [assumption | | auto].
    intros w2 _ Hw2. apply wpg_bind, keeps_call_ffmpeg; [assumption | | auto].
    intros w3 v Hw3. simpl. exact Hw3.
  - intros w0' Hw0'.
    apply wpg_bind, keeps_try_deleteFile; [assumption |].
    intros w1 _ Hw1. apply wpg_bind, keeps_try_deleteFile; [assumption |].
    intros w2 _ Hw2. apply wpg_bind, keeps_try_deleteFile; [assumption |].
    intros w3 _ Hw3. simpl. apply busy_has_instance_released.
Qed.

Lemma keeps_doSnapshot p w (Q : Worker → unit → Prop) Qe :
  busy_has_instance w →
  (∀ w' v, busy_has_instance w' → Q w' v) →
  (∀ w' e, busy_has_instance w' → Qe w' e) →
  wpg busy_has_instance (fun _ _ _ w' => busy_has_instance w') (doSnapshot p w) Q Qe.
Proof.
  intros Hw HQ HQe. unfold doSnapshot, post. async_unfold. simpl.
  destruct (ffmpeg w) as [eng |] eqn:Hf; simpl; [| now apply HQe].
  assert (Hw0 : busy_has_instance (set_busy true w))
    by (apply busy_has_instance_taken; congruence).
  apply keeps_finally; [| | assumption | assumption]; unfold keeps_invariant.
  - apply wpg_bind, keeps_call_ffmpeg; [assumption | | auto].
    intros w1 _ Hw1. apply wpg_bind, keeps_call_ffmpeg; [assumption | | auto].
    intros w2 _ Hw2. apply wpg_bind, keeps_call_ffmpeg; [assumption | | auto].
    intros w3 v Hw3. simpl. exact Hw3.
  - intros w0' Hw0'.
    apply wpg_bind, keeps_try_deleteFile; [assumption |].
    intros w1 _ Hw1. apply wpg_bind, keeps_try_deleteFile; [assumption |].
    intros w2 _ Hw2. simpl. apply busy_has_instance_released.
Qed.

Lemma keeps_cancelCurrent w (Q : Worker → unit → Prop) Qe :
  busy_has_instance w →
  (∀ w' v, busy_has_instance w' → Q w' v) →
  wpg busy_has_instance (fun _ _ _ w' => busy_has_instance w') (cancelCurrent w) Q Qe.
Proof.
  intros Hw HQ. unfold cancelCurrent, post. async_unfold. simpl.
  destruct (ffmpeg w); simpl; apply HQ; [| assumption].
  intros Hb. discriminate.
Qed.

Lemma keeps_onmessage msg w : busy_has_instance w → keeps_invariant (onmessage msg w).
Proof.
  intros Hw. unfold keeps_invariant, onmessage, post. async_unfold.
  apply wpg_catch.
  assert (Hcatch : ∀ w' (e : Error), busy_has_instance w' →
    wpg busy_has_instance (fun _ _ _ w' => busy_has_instance w')
      (Emit (EvError (message_or_string e)) (Return w' tt))
      (fun w _ => busy_has_instance w) (fun w _ => busy_has_instance w))
    by (intros w' e Hw'; exact Hw').
  destruct msg as [payload | p | p | |].
  - apply keeps_ensureLoaded; auto.
  - apply wpg_bind, keeps_ensureLoaded; [assumption | | auto].
    intros w1 _ Hw1. simpl. destruct (busy w1); simpl; [assumption |].
    apply keeps_doPreview; auto.
  - apply wpg_bind, keeps_ensureLoaded; [assumption | | auto].
    intros w1 _ Hw1. simpl. destruct (busy w1); simpl; [assumption |].
    apply keeps_doSnapshot; auto.
  - apply keeps_cancelCurrent; auto.
  - apply wpg_bind, keeps_cancelCurrent; [assumption |].
    intros w1 _ Hw1. simpl. exact Hw1.
Qed.

Lemma absorb_invariant (r : Run unit) (waiting : list Task) out :
  keeps_invariant r → Forall task_keeps waiting → system_invariant (absorb r waiting out).
Proof.
  intros Hr Hpool. revert out.
  induction r as [w a | w e | ev r IH | w rq k IH]; intros out; simpl in *;
    try (split; assumption).
  - now apply IH.
  - destruct Hr as [Hw Hk]. split; [assumption |].
    apply Forall_app. split; [assumption |].
    apply Forall_singleton. intros o w' Hw'. apply Hk, Hw'.
Qed.

Lemma reject_pending_invariant ts s :
  Forall task_keeps ts → system_invariant s → system_invariant (reject_pending ts s).
Proof.
  revert s. induction ts as [| t ts IH]; intros s Hts Hs; simpl; [assumption |].
  apply Forall_cons in Hts as [Ht Hts]. destruct Hs as [Hw Hpool].
  destruct (is_engine_request (awaited t)); apply IH; try assumption.
  - apply absorb_invariant; [now apply Ht | assumption].
  - split; [assumption |]. apply Forall_app. split; [assumption | now apply Forall_singleton].
Qed.

Lemma promise_end_invariant rq w w' evs o :
  busy_has_instance w → promise_end rq w = (w', evs, o) → busy_has_instance w'.
Proof.
  intros Hw Hend. unfold promise_end in Hend.
  destruct rq; try (inversion Hend; subst; assumption);
    (destruct (ffmpeg w) as [eng |] eqn:Hf; [| inversion Hend; subst; assumption]);
    destruct (engine_settle _ eng) as [[eng' notes] o'] eqn:Hs;
    inversion Hend; subst; intros _; simpl; discriminate.
Qed.

Lemma deliver_invariant msg s : system_invariant s → system_invariant (deliver msg s).
Proof.
  intros [Hw Hpool]. unfold deliver.
  pose proof (absorb_invariant _ _ (outbox s) (keeps_onmessage msg _ Hw) Hpool)
    as [Hw1 Hpool1].
  destruct (bool_decide _ && bool_decide _).
  - apply reject_pending_invariant; [assumption |]. split; [assumption | constructor].
  - split; assumption.
Qed.

Lemma settle_invariant i s : system_invariant s → system_invariant (settle i s).
Proof.
  intros [Hw Hpool]. unfold settle.
  destruct (pool s !! i) as [t |] eqn:Ht; [| split; assumption].
  destruct (promise_end (awaited t) (vars s)) as [[w evs] o] eqn:Hend.
  apply absorb_invariant.
  - eapply Forall_lookup_1 in Hpool; [| exact Ht].
    apply Hpool. eapply promise_end_invariant; eassumption.
  - now apply Forall_delete.
Qed.

Lemma run_invariant acts s : system_invariant s → system_invariant (run acts s).
Proof.
  revert s. induction acts as [| a acts IH]; intros s Hs; simpl; [assumption |].
  apply IH. destruct a; [now apply deliver_invariant | now apply settle_invariant].
Qed.

(** Wherever the worker gets from its start, a set busy flag comes with an
    instance. *)
Lemma reachable_busy_has_instance s : reachable s → busy_has_instance (vars s).
Proof.
  intros [acts ->]. apply run_invariant. split; [| constructor].
  intros Hb. discriminate.
Qed.

(** ** The outbox is written, never read *)

Local Open Scope list_scope.

Lemma absorb_outbox (r : Run unit) waiting out out' :
  absorb r waiting (out ++ out') = posted_before out (absorb r waiting out').
Proof.
  revert out'. induction r as [w a | w e | ev r IH | w rq k IH]; intros out'; simpl;
    try reflexivity.
  now rewrite <- app_assoc, IH.
Qed.

Lemma reject_pending_outbox ts s out :
  reject_pending ts (posted_before out s) = posted_before out (reject_pending ts s).
Proof.
  revert s. induction ts as [| t ts IH]; intros s; simpl; [reflexivity |].
  destruct (is_engine_request (awaited t)).
  - rewrite absorb_outbox. apply IH.
  - apply (IH (mkSystem (vars s) (pool s ++ [t]) (outbox s))).
Qed.

(** A step reads the variables and the waiting handlers, and only appends to
    the outbox. *)
Lemma step_outbox a s out :
  step a (posted_before out s) = posted_before out (step a s).
Proof.
  destruct a as [msg | i]; simpl.
  - unfold deliver. simpl. rewrite absorb_outbox. simpl.
    destruct (bool_decide _ && bool_decide _); [| reflexivity].
    apply (reject_pending_outbox _ (mkSystem _ [] _)).
  - unfold settle. simpl.
    destruct (pool s !! i) as [t |]; [| reflexivity].
    destruct (promise_end (awaited t) (vars s)) as [[w evs] o].
    now rewrite <- app_assoc, absorb_outbox.
Qed.

Lemma run_outbox acts s out :
  run acts (posted_before out s) = posted_before out (run acts s).
Proof.
  revert s. induction acts as [| a acts IH]; intros s; simpl; [reflexivity |].
  now rewrite step_outbox, IH.
Qed.

End Paths.

(** What follows the [finally] clause, the block's own return or throw,
    changes nothing. *)
Lemma deletes_in_turn_bind {A B} names f0 (r : Run A) (g : A → Async B) :
  deletes_in_turn names f0 r →
  (∀ w a, (∃ b, g a w = Return w b) ∨ (∃ e, g a w = Raise w e)) →
  deletes_in_turn names f0 (bind_run r g).
Proof.
  intros Hr Hg. revert f0 r Hr. induction names as [| n rest IH]; intros f0 r Hr.
  - destruct r as [w a | w e | ev r | w rq k]; simpl in *; try tauto.
    destruct (Hg w a) as [[b ->] | [e ->]]; exact Hr.
  - simpl in *. destruct f0 as [eng |]; [| now apply IH].
    destruct r as [w a | w e | ev r | w rq k]; simpl in *; try tauto.
    destruct Hr as (Hw & Hrq & Hk). split; [exact Hw |]. split; [exact Hrq |].
    intros o w'. apply IH, Hk.
Qed.

(** C8: a preview or snapshot job that finds no instance throws at once and
    touches nothing.  One that starts never assigns [ffmpeg], and on every
    path (each awaited call resolving or rejecting, and the variables being
    anything when the job goes on: the same instance, one loaded meanwhile,
    or none after a teardown) it comes to its [finally] clause, which asks
    the instance, where there is one, to delete each output name and the
    input name in turn, goes on whatever each deletion gives, and ends with
    the busy flag released.  Where the other handlers write no file
    meanwhile, no input or output file of the job is left in the instance
    [ffmpeg] holds at the end. *)
Theorem cleanup_on_every_path `{Platform} (w : Worker) :
  (∀ p : PreviewParams.t,
     match ffmpeg w with
     | None => doPreview p w = Raise w (new_Error "FFmpeg is not loaded")
     | Some _ =>
         ends_deleting ["preview.mp4"; "preview.webm";
                        or_string (PreviewParams.inputName p) "input.webm"]
           (ffmpeg w) (doPreview p w)
         ∧ on_every_path (doPreview p w) (fun w' =>
             busy w' = false ∧
             removed [or_string (PreviewParams.inputName p) "input.webm";
                      "preview.webm"; "preview.mp4"] w')
     end)
  ∧ (∀ p : SnapshotParams.t,
     match ffmpeg w with
     | None => doSnapshot p w = Raise w (new_Error "FFmpeg is not loaded")
     | Some _ =>
         ends_deleting ["thumb.jpg"; or_string (SnapshotParams.inputName p) "input.webm"]
           (ffmpeg w) (doSnapshot p w)
         ∧ on_every_path (doSnapshot p w) (fun w' =>
             busy w' = false ∧
             removed [or_string (SnapshotParams.inputName p) "input.webm"; "thumb.jpg"] w')
     end).
Proof.
  split; intros p; destruct (ffmpeg w) as [eng |] eqn:Hf.
  - split.
    + unfold doPreview. async_unfold. simpl. rewrite Hf. simpl.
      apply ends_deleting_finally.
      * apply keeps_instance_bind;
          [rewrite <- Hf; apply (keeps_instance_call_ffmpeg _ _ (set_busy true w)) |].
        intros _ w1. apply keeps_instance_bind; [apply keeps_instance_call_ffmpeg |].
        intros _ w2. apply keeps_instance_bind; [apply keeps_instance_call_ffmpeg |].
        intros v w3. reflexivity.
      * intros w0 a. apply deletes_in_turn_bind; [| intros; left; eexists; reflexivity].
        apply deletes_try_deleteFile. intros w1.
        apply deletes_try_deleteFile. intros w2.
        apply deletes_try_deleteFile. intros w3. simpl. auto.
      * intros w0 e. apply deletes_in_turn_bind; [| intros; right; eexists; reflexivity].
        apply deletes_try_deleteFile. intros w1.
        apply deletes_try_deleteFile. intros w2.
        apply deletes_try_deleteFile. intros w3. simpl. auto.
    + unfold doPreview. async_unfold. simpl. rewrite Hf. simpl.
      apply finally_on_every_path. intros w0. unfold on_every_path.
      apply wp_bind, (try_deleteFile_removes _ []); [| apply removed_nil]. intros w1 H1.
      apply wp_bind; eapply try_deleteFile_removes; [| exact H1]. intros w2 H2.
      apply wp_bind; eapply try_deleteFile_removes; [| exact H2]. intros w3 H3.
      simpl. split; [reflexivity | now apply removed_set_busy].
  - unfold doPreview. async_unfold. simpl. now rewrite Hf.
  - split.
    + unfold doSnapshot. async_unfold. simpl. rewrite Hf. simpl.
      apply ends_deleting_finally.
      * apply keeps_instance_bind;
          [rewrite <- Hf; apply (keeps_instance_call_ffmpeg _ _ (set_busy true w)) |].
        intros _ w1. apply keeps_instance_bind; [apply keeps_instance_call_ffmpeg |].
        intros _ w2. apply keeps_instance_bind; [apply keeps_instance_call_ffmpeg |].
        intros v w3. reflexivity.
      * intros w0 a. apply deletes_in_turn_bind; [| intros; left; eexists; reflexivity].
        apply deletes_try_deleteFile. intros w1.
        apply deletes_try_deleteFile. intros w2. simpl. auto.
      * intros w0 e. apply deletes_in_turn_bind; [| intros; right; eexists; reflexivity].
        apply deletes_try_deleteFile. intros w1.
        apply deletes_try_deleteFile. intros w2. simpl. auto.
    + unfold doSnapshot. async_unfold. simpl. rewrite Hf. simpl.
      apply finally_on_every_path. intros w0. unfold on_every_path.
      apply wp_bind, (try_deleteFile_removes _ []); [| apply removed_nil]. intros w1 H1.
      apply wp_bind; eapply try_deleteFile_removes; [| exact H1]. intros w2 H2.
      simpl. split; [reflexivity | now apply removed_set_busy].
  - unfold doSnapshot. async_unfold. simpl. now rewrite Hf.
Qed.

(** A job started on an instance that is still loading: the load settles
    while the job waits for [writeFile], the job goes on with the loaded
    core, and ends with the flag released and its files deleted. *)
Example job_on_loading_instance :
  let s := @run copy_platform
             ([Deliver (CmdLoad None); Deliver (CmdPreview clip);
               Settle 0; Settle 1; Settle 1] ++ serve_job) boot in
  vars s = mkWorker (Some (mkFFmpeg (Some ∅) true)) false false
  ∧ pool s = []
  ∧ outbox s
    = [EvLoaded; EvProgress (Some 1.7%float) None;
       EvResult (mkResult preview "preview.mp4" "video/mp4" [Byte.x01; Byte.x02])].
Proof. vm_compute. repeat split. Qed.

(** The handler of a job command in a busy worker: the error is posted,
    nothing else changes, no handler is left waiting. *)
Lemma onmessage_busy `{Platform} (w : Worker) (job : Async unit) :
  busy w = true → ffmpeg w ≠ None →
  catch_run
    (bind_run (ensureLoaded None None w)
       (fun _ w1 => bind_run (Return w1 (busy w1))
          (fun b => if (b : bool) then throw (new_Error BUSY_MESSAGE) else job)))
    (fun e => post (EvError (message_or_string e)))
  = Emit (EvError BUSY_MESSAGE) (Return w tt).
Proof.
  intros Hb Hf. unfold ensureLoaded, post. async_unfold. simpl.
  destruct (ffmpeg w) as [eng |] eqn:He; [| congruence].
  destruct (loading w) eqn:Hl; simpl; rewrite ?Hl; simpl; now rewrite Hb.
Qed.

Lemma deliver_busy `{Platform} (s : System) (msg : WorkerCommand) :
  busy (vars s) = true → ffmpeg (vars s) ≠ None →
  (∃ p, msg = CmdPreview p) ∨ (∃ p, msg = CmdSnapshot p) →
  deliver msg s = mkSystem (vars s) (pool s) (outbox s ++ [EvError BUSY_MESSAGE])%list.
Proof.
  intros Hb Hf Hmsg. unfold deliver.
  assert (Hon : onmessage msg (vars s) = Emit (EvError BUSY_MESSAGE) (Return (vars s) tt)).
  { destruct Hmsg as [[p ->] | [p ->]]; unfold onmessage; async_unfold;
      now apply onmessage_busy. }
  rewrite Hon. simpl.
  destruct (ffmpeg (vars s)); [| congruence].
  now rewrite andb_false_r.
Qed.

(** What the worker posts from a state on depends on its variables and its
    waiting handlers only; what was posted before stays in front. *)
Lemma run_later `{Platform} acts (s : System) (out : list WorkerEvent) :
  run acts (mkSystem (vars s) (pool s) out)
  = posted_before out (run acts (mkSystem (vars s) (pool s) [])).
Proof.
  rewrite <- run_outbox. unfold posted_before. simpl. now rewrite app_nil_r.
Qed.

(** After a rejected job command the worker goes on as if the command had
    never come, the error event apart. *)
Lemma busy_later `{Platform} (s : System) (msg : WorkerCommand) acts :
  deliver msg s = mkSystem (vars s) (pool s) (outbox s ++ [EvError BUSY_MESSAGE])%list →
  vars (run acts (deliver msg s)) = vars (run acts s)
  ∧ pool (run acts (deliver msg s)) = pool (run acts s)
  ∧ ∃ later,
      outbox (run acts s) = (outbox s ++ later)%list
      ∧ outbox (run acts (deliver msg s))
        = (outbox s ++ [EvError BUSY_MESSAGE] ++ later)%list.
Proof.
  intros ->. rewrite run_later.
  assert (Hs : run acts s = posted_before (outbox s)
                              (run acts (mkSystem (vars s) (pool s) []))).
  { rewrite <- run_later. now destruct s. }
  rewrite Hs. simpl. split; [reflexivity |]. split; [reflexivity |].
  eexists. split; [reflexivity |]. now rewrite <- app_assoc.
Qed.

(** C1: in every state the worker reaches with the busy flag set, a
    [preview] or [snapshot] command is answered by the one event
    [error "FFmpeg worker is busy"] and by nothing else: the instance with
    its files, the flags and the waiting handlers (the job in flight among
    them) are as they were.  Whatever comes next, the worker then passes
    through the states it would have passed through without the command and
    posts the events it would have posted, so the job in flight ends as it
    would have.  On the page, the error event leaves both result URLs, both
    refs and the URL store alone, and a job asked for while the status is
    "working" posts no command at all. *)
Theorem busy_rejects `{Platform} (s : System) :
  reachable s → busy (vars s) = true →
  (∀ msg, (∃ p, msg = CmdPreview p) ∨ (∃ p, msg = CmdSnapshot p) →
     deliver msg s = mkSystem (vars s) (pool s) (outbox s ++ [EvError BUSY_MESSAGE])%list
     ∧ ∀ acts,
         vars (run acts (deliver msg s)) = vars (run acts s)
         ∧ pool (run acts (deliver msg s)) = pool (run acts s)
         ∧ ∃ later,
             outbox (run acts s) = (outbox s ++ later)%list
             ∧ outbox (run acts (deliver msg s))
               = (outbox s ++ [EvError BUSY_MESSAGE] ++ later)%list)
  ∧ (∀ h : UseFfmpegWorker.Hook,
       let h' := UseFfmpegWorker.onmessage (EvError BUSY_MESSAGE) h in
       UseFfmpegWorker.previewUrlRef h' = UseFfmpegWorker.previewUrlRef h
       ∧ UseFfmpegWorker.snapshotUrlRef h' = UseFfmpegWorker.snapshotUrlRef h
       ∧ UseFfmpegWorker.previewUrl (UseFfmpegWorker.state h')
         = UseFfmpegWorker.previewUrl (UseFfmpegWorker.state h)
       ∧ UseFfmpegWorker.snapshotUrl (UseFfmpegWorker.state h')
         = UseFfmpegWorker.snapshotUrl (UseFfmpegWorker.state h)
       ∧ UseFfmpegWorker.urls h' = UseFfmpegWorker.urls h)
  ∧ (∀ (h : UseFfmpegWorker.Hook) window cmd,
       UseFfmpegWorker.status (UseFfmpegWorker.state h) = UseFfmpegWorker.WorkerStatus.working →
       let h' := UseFfmpegWorker.submit window cmd h in
       UseFfmpegWorker.posted h' = UseFfmpegWorker.posted h
       ∧ UseFfmpegWorker.state h' = UseFfmpegWorker.state h
       ∧ UseFfmpegWorker.previewUrlRef h' = UseFfmpegWorker.previewUrlRef h
       ∧ UseFfmpegWorker.snapshotUrlRef h' = UseFfmpegWorker.snapshotUrlRef h
       ∧ UseFfmpegWorker.urls h' = UseFfmpegWorker.urls h).
Proof.
  intros Hreach Hb.
  pose proof (reachable_busy_has_instance s Hreach Hb) as Hf.
  split; [| split].
  - intros msg Hmsg.
    pose proof (deliver_busy s msg Hb Hf Hmsg) as Hd.
    split; [exact Hd |]. intros acts. now apply busy_later.
  - intros h. simpl. auto.
  - intros h window cmd Hst.
    unfold UseFfmpegWorker.submit, UseFfmpegWorker.submit_from.
    destruct window; simpl; [| auto]. rewrite Hst. simpl. auto.
Qed.

Lemma busy_rejects_witness :
  let s := @run copy_platform preview_under_way boot in
  @deliver copy_platform (CmdPreview clip) s
  = mkSystem (vars s) (pool s) (outbox s ++ [EvError BUSY_MESSAGE])%list.
Proof.
  exact (proj1 (proj1 (@busy_rejects copy_platform
                         (@run copy_platform preview_under_way boot)
                         (ex_intro _ preview_under_way eq_refl) eq_refl)
                  (CmdPreview clip) (or_introl (ex_intro _ clip eq_refl)))).
Defined.

(** A second preview sent while the first is under way: the page hears the
    busy error, then the first job's progress and result. *)
Example second_preview_rejected :
  outbox (@run copy_platform
            (preview_under_way ++ [Deliver (CmdPreview clip)] ++ serve_job) boot)
  = [EvLoaded; EvError "FFmpeg worker is busy"; EvProgress (Some 1.7%float) None;
     EvResult (mkResult preview "preview.mp4" "video/mp4" [Byte.x01; Byte.x02])].
Proof. vm_compute. reflexivity. Qed.

(** The same job without the second command: the same events but the
    error. *)
Example first_preview_alone :
  outbox (@run copy_platform (preview_under_way ++ serve_job) boot)
  = [EvLoaded; EvProgress (Some 1.7%float) None;
     EvResult (mkResult preview "preview.mp4" "video/mp4" [Byte.x01; Byte.x02])].
Proof. vm_compute. reflexivity. Qed.

(** A job cut short by [cancel]: the handler ends at once, with the flag
    released and no result. *)
Example preview_canceled :
  @run copy_platform (preview_under_way ++ [Settle 0; Deliver CmdCancel]) boot
  = mkSystem (mkWorker None false false) []
      [EvLoaded; EvCanceled; EvError "called FFmpeg.terminate()"].
Proof. vm_compute. reflexivity. Qed.

(** The hook's own guard is the render's: two calls of a job callback made
    from one render that saw a status other than "working" post both
    commands, the second on a hook whose status is "working" already. *)
Lemma submit_from_same_render rendered cmd1 cmd2 h :
  rendered ≠ UseFfmpegWorker.WorkerStatus.working →
  let h1 := UseFfmpegWorker.submit_from true rendered cmd1 h in
  let h2 := UseFfmpegWorker.submit_from true rendered cmd2 h1 in
  UseFfmpegWorker.status (UseFfmpegWorker.state h1) = UseFfmpegWorker.WorkerStatus.working
  ∧ UseFfmpegWorker.posted h2 = (UseFfmpegWorker.posted h ++ [cmd1; cmd2])%list.
Proof.
  intros Hr. unfold UseFfmpegWorker.submit_from.
  destruct rendered; try congruence; simpl; (split; [reflexivity |]);
    rewrite <- app_assoc; reflexivity.
Qed.

(* ===================================================================== *)
(** * Properties: the hook and the progress bar *)
(* ===================================================================== *)

(** C2 fails on the code, which breaks its own declaration
    ([progress: number; // 0..1]): the handler of a progress event stores the
    ratio as it comes (0 when the event has none), whatever the hook held
    before.  A progress event with ratio -0.2 leaves the hook's progress at
    -0.2, below 0, and one with ratio 1.7 leaves it at 1.7, above 1. *)
Theorem progress_not_clamped :
  (∀ h ratio t,
     UseFfmpegWorker.progress
       (UseFfmpegWorker.state (UseFfmpegWorker.onmessage (EvProgress ratio t) h))
     = default 0%float ratio)
  ∧ (let below := UseFfmpegWorker.onmessage (EvProgress (Some (-0.2)%float) None)
                    UseFfmpegWorker.mount in
     let above := UseFfmpegWorker.onmessage (EvProgress (Some 1.7%float) None)
                    UseFfmpegWorker.mount in
     UseFfmpegWorker.progress (UseFfmpegWorker.state below) = (-0.2)%float
     ∧ (UseFfmpegWorker.progress (UseFfmpegWorker.state below) <? 0)%float = true
     ∧ UseFfmpegWorker.progress (UseFfmpegWorker.state above) = 1.7%float
     ∧ (1 <? UseFfmpegWorker.progress (UseFfmpegWorker.state above))%float = true).
Proof. split; [intros h ratio t; reflexivity | repeat split]. Qed.

Lemma bar_width_clamped (x : float) :
  is_nan (x * 100) = false →
  Panel.bar_width x = 0%float ∨ Panel.bar_width x = 100%float
  ∨ (Panel.bar_width x = (x * 100)%float
     ∧ (0 <? x * 100)%float = true ∧ (x * 100 <? 100)%float = true).
Proof.
  intros Hnan. unfold Panel.bar_width, Panel.Math_max, Panel.Math_min.
  set (y := (x * 100)%float) in *.
  change (is_nan 0) with false. change (is_nan 100) with false.
  change (is_zero 100) with false. change (is_zero 0) with true.
  change (get_sign 0) with false.
  rewrite Hnan. simpl.
  destruct (0 <? y)%float eqn:Hlow; simpl.
  - rewrite Hnan. destruct (y <? 100)%float eqn:Hhigh; simpl; auto.
  - assert (Hm : (if is_zero y then 0%float else 0%float) = 0%float)
      by (destruct (is_zero y); reflexivity).
    rewrite Hm. change (is_nan 0) with false. change (0 <? 100)%float with true.
    simpl. now left.
Qed.

(** The panel clamps what the hook does not: the width of the progress bar
    is, for every progress whose hundredfold is a number, 0, 100 or that
    hundredfold strictly between the two.  A progress of -0.2 gives a bar
    of 0 percent, one of 1.7 a bar of 100 percent. *)
Theorem bar_width_in_range :
  (∀ x, is_nan (x * 100) = false →
       Panel.bar_width x = 0%float ∨ Panel.bar_width x = 100%float
       ∨ (Panel.bar_width x = (x * 100)%float
          ∧ (0 <? x * 100)%float = true ∧ (x * 100 <? 100)%float = true))
  ∧ Panel.bar_width (-0.2) = 0%float
  ∧ Panel.bar_width 1.7 = 100%float.
Proof.
  split; [| split].
  - exact bar_width_clamped.
  - reflexivity.
  - reflexivity.
Qed.

Lemma bar_width_in_range_witness :
  Panel.bar_width 0.5 = 0%float ∨ Panel.bar_width 0.5 = 100%float
  ∨ (Panel.bar_width 0.5 = (0.5 * 100)%float
     ∧ (0 <? 0.5 * 100)%float = true ∧ (0.5 * 100 <? 100)%float = true).
Proof.
  exact (proj1 bar_width_in_range 0.5%float eq_refl).
Defined.





(** The handler of a result ends where its last statement leaves the hook. *)
Lemma result_steps_last payload h :
  last (UseFfmpegWorker.result_steps payload h)
  = Some (UseFfmpegWorker.onmessage (EvResult payload) h).
Proof.
  unfold UseFfmpegWorker.result_steps, UseFfmpegWorker.onmessage.
  destruct (kind payload); reflexivity.
Qed.




(* ===================================================================== *)
(** * Properties: the asset cache *)
(* ===================================================================== *)

(** Opening our bucket may create it, empty; its entries are the same. *)
Lemma open_bucket cs :
  (FfmpegCache.open FFMPEG_CACHE_NAME cs).2 = FfmpegCache.bucket (FfmpegCache.Window (Some cs))
  ∧ FfmpegCache.bucket (FfmpegCache.Window (Some (FfmpegCache.open FFMPEG_CACHE_NAME cs).1))
    = FfmpegCache.bucket (FfmpegCache.Window (Some cs)).
Proof.
  unfold FfmpegCache.open, FfmpegCache.bucket. simpl.
  destruct (cs !! FFMPEG_CACHE_NAME) as [c |] eqn:Hc; simpl.
  - now rewrite Hc.
  - now rewrite lookup_insert_eq.
Qed.

(** C5: [isCoreCached] never throws.  In a browser with a Cache Storage it
    answers true exactly when the storage has our bucket and both asset URLs
    are keys of it (the bucket is opened, so created empty when missing, and
    nothing else changes); in a browser without Cache Storage, and outside a
    browser, it answers false and touches nothing. *)
Theorem isCoreCached_iff_both :
  (∀ cs : gmap string (gmap string FfmpegCache.Response),
     ∃ b, FfmpegCache.isCoreCached (FfmpegCache.Window (Some cs))
          = (FfmpegCache.Window
               (Some (match cs !! FFMPEG_CACHE_NAME with
                      | Some _ => cs
                      | None => <[FFMPEG_CACHE_NAME := ∅]> cs
                      end)),
             Resolved b)
          ∧ (b = true ↔ ∃ c, cs !! FFMPEG_CACHE_NAME = Some c
                             ∧ is_Some (c !! CORE_JS_URL)
                             ∧ is_Some (c !! CORE_WASM_URL)))
  ∧ FfmpegCache.isCoreCached (FfmpegCache.Window None)
    = (FfmpegCache.Window None, Resolved false)
  ∧ FfmpegCache.isCoreCached FfmpegCache.NoWindow
    = (FfmpegCache.NoWindow, Resolved false).
Proof.
  split; [| split; reflexivity].
  intros cs. unfold FfmpegCache.isCoreCached, FfmpegCache.open. simpl.
  destruct (cs !! FFMPEG_CACHE_NAME) as [c |] eqn:Hc.
  - eexists. split; [reflexivity |].
    rewrite andb_true_iff, !bool_decide_eq_true. split.
    + intros [Hjs Hwasm]. exists c. auto.
    + intros (c' & Hc' & Hjs & Hwasm). now inversion Hc'; subst.
  - eexists. split; [reflexivity |].
    rewrite andb_true_iff, !bool_decide_eq_true, !lookup_empty. split.
    + intros [[? ?] _]. discriminate.
    + intros (c' & Hc' & _). discriminate.
Qed.

(** A storage that holds both assets answers true; one that holds only the
    script answers false. *)
Example isCoreCached_warm :
  (FfmpegCache.isCoreCached warm_storage).2 = Resolved true
  ∧ (FfmpegCache.isCoreCached
       (FfmpegCache.cacheCoreAssets cdn_partial_wasm None empty_storage).1).2
    = Resolved false.
Proof. vm_compute. split; reflexivity. Qed.

Lemma bucket_stored cs c :
  FfmpegCache.bucket (FfmpegCache.Window (Some (<[FFMPEG_CACHE_NAME := c]> cs))) = c.
Proof. unfold FfmpegCache.bucket. simpl. now rewrite lookup_insert_eq. Qed.

Lemma entries_stored cs c : FfmpegCache.entries (<[FFMPEG_CACHE_NAME := c]> cs) = c.
Proof. unfold FfmpegCache.entries. now rewrite lookup_insert_eq. Qed.

Lemma open_entries cs :
  (FfmpegCache.open FFMPEG_CACHE_NAME cs).2 = FfmpegCache.entries cs
  ∧ FfmpegCache.entries (FfmpegCache.open FFMPEG_CACHE_NAME cs).1 = FfmpegCache.entries cs
  ∧ is_Some ((FfmpegCache.open FFMPEG_CACHE_NAME cs).1 !! FFMPEG_CACHE_NAME)
  ∧ (∀ name, name ≠ FFMPEG_CACHE_NAME →
       (FfmpegCache.open FFMPEG_CACHE_NAME cs).1 !! name = cs !! name).
Proof.
  unfold FfmpegCache.open, FfmpegCache.entries.
  destruct (cs !! FFMPEG_CACHE_NAME) as [c |] eqn:Hc; simpl.
  - rewrite Hc. repeat split; eauto.
  - rewrite lookup_insert_eq. repeat split; eauto.
    intros name Hne. now rewrite lookup_insert_ne by congruence.
Qed.

(** C6 as the spec states it fails twice.  When the script comes back with a
    404 and the request for the binary breaks, the error is the fetch's own
    and carries no status; when the script is served in full and the binary
    in part (206), the call fails and yet the script is stored. *)
Lemma cacheCoreAssets_not_all_or_nothing :
  (FfmpegCache.fetch cdn_script_404_binary_down None CORE_JS_URL
   = Resolved (FfmpegCache.mkResponse 404 [])
   ∧ (FfmpegCache.cacheCoreAssets cdn_script_404_binary_down None empty_storage).2
     = Rejected (new_TypeError "Failed to fetch"))
  ∧ ((FfmpegCache.cacheCoreAssets cdn_partial_wasm None empty_storage).2
     = Rejected (new_TypeError "Partial response (status code 206) is unsupported")
     ∧ FfmpegCache.bucket empty_storage !! CORE_JS_URL = None
     ∧ FfmpegCache.bucket (FfmpegCache.cacheCoreAssets cdn_partial_wasm None empty_storage).1
         !! CORE_JS_URL
       = Some (FfmpegCache.mkResponse 200 [Byte.x00])).
Proof. vm_compute. repeat split. Qed.

(** C6, amended: without a Cache Storage (in a browser or outside one)
    [cacheCoreAssets] fails with the message "Cache Storage API is not
    available in this environment" and touches nothing.  With one, no other
    bucket changes, and by the ends of the two fetches: when a fetch is
    rejected the call fails with that rejection (of two, the one that
    happens first) and the entries are what they were; when both come back
    and one has a status outside 200..299 the call fails with a message
    that ends in that status (the script's when both have one) and the
    entries are what they were; when both come back with a status in
    200..299 each response but a partial one (206) is stored under its URL,
    and the call succeeds when neither is partial and fails with the Cache
    API's error otherwise. *)
Theorem cacheCoreAssets_errors (net : FfmpegCache.Network)
  (signal : option FfmpegCache.AbortSignal) :
  FfmpegCache.cacheCoreAssets net signal FfmpegCache.NoWindow
  = (FfmpegCache.NoWindow,
     Rejected (new_Error "Cache Storage API is not available in this environment"))
  ∧ FfmpegCache.cacheCoreAssets net signal (FfmpegCache.Window None)
    = (FfmpegCache.Window None,
       Rejected (new_Error "Cache Storage API is not available in this environment"))
  ∧ ∀ cs, ∃ cs' r,
      FfmpegCache.cacheCoreAssets net signal (FfmpegCache.Window (Some cs))
      = (FfmpegCache.Window (Some cs'), r)
      ∧ (∀ name, name ≠ FFMPEG_CACHE_NAME → cs' !! name = cs !! name)
      ∧ match FfmpegCache.fetch net signal CORE_JS_URL,
              FfmpegCache.fetch net signal CORE_WASM_URL with
        | Rejected e1, Rejected e2 =>
            r = Rejected (if FfmpegCache.binary_first net then e2 else e1)
            ∧ FfmpegCache.entries cs' = FfmpegCache.entries cs
        | Rejected e, Resolved _ | Resolved _, Rejected e =>
            r = Rejected e ∧ FfmpegCache.entries cs' = FfmpegCache.entries cs
        | Resolved js, Resolved wasm =>
            if negb (FfmpegCache.ok js) then
              r = Rejected (new_Error ("Failed to fetch ffmpeg-core.js: "
                                       +:+ pretty (FfmpegCache.status js)))
              ∧ FfmpegCache.entries cs' = FfmpegCache.entries cs
            else if negb (FfmpegCache.ok wasm) then
              r = Rejected (new_Error ("Failed to fetch ffmpeg-core.wasm: "
                                       +:+ pretty (FfmpegCache.status wasm)))
              ∧ FfmpegCache.entries cs' = FfmpegCache.entries cs
            else
              r = (if (FfmpegCache.status js =? 206)%N || (FfmpegCache.status wasm =? 206)%N
                   then Rejected (new_TypeError
                                    "Partial response (status code 206) is unsupported")
                   else Resolved tt)
              ∧ FfmpegCache.entries cs'
                = (if (FfmpegCache.status wasm =? 206)%N then id
                   else <[CORE_WASM_URL := wasm]>)
                    ((if (FfmpegCache.status js =? 206)%N then id
                      else <[CORE_JS_URL := js]>) (FfmpegCache.entries cs))
        end.
Proof.
  split; [reflexivity | split; [reflexivity |]].
  intros cs. unfold FfmpegCache.cacheCoreAssets. simpl.
  destruct (open_entries cs) as (Hopen & Hsame & Hthere & Hother).
  destruct (FfmpegCache.open FFMPEG_CACHE_NAME cs) as [cs1 c] eqn:Ho. simpl in *.
  destruct (FfmpegCache.fetch net signal CORE_JS_URL) as [js | e1];
    destruct (FfmpegCache.fetch net signal CORE_WASM_URL) as [wasm | e2];
    try (eexists _, _; split; [reflexivity |]; split; [exact Hother |];
         split; [reflexivity | exact Hsame]).
  destruct (negb (FfmpegCache.ok js));
    [eexists _, _; split; [reflexivity |]; split; [exact Hother |];
     split; [reflexivity | exact Hsame] |].
  destruct (negb (FfmpegCache.ok wasm));
    [eexists _, _; split; [reflexivity |]; split; [exact Hother |];
     split; [reflexivity | exact Hsame] |].
  unfold FfmpegCache.put. rewrite <- Hopen.
  destruct (FfmpegCache.status js =? 206)%N, (FfmpegCache.status wasm =? 206)%N; simpl;
    (eexists _, _; split; [reflexivity |]; split;
     [intros name Hne; rewrite lookup_insert_ne by congruence; now apply Hother |];
     split; [reflexivity | apply entries_stored]).
Qed.


(* ===================================================================== *)
(** * Properties: the capture session *)
(* ===================================================================== *)

(** After one take the state has the blob and its URL. *)
Example one_take_output :
  let p := Recorder.run one_take Recorder.mount in
  Recorder.status (Recorder.state p) = Recorder.stopped
  ∧ Recorder.blob (Recorder.state p) = Some (mkBlob [Byte.x2a] "video/webm")
  ∧ Recorder.objectUrl (Recorder.state p) = Some 0
  ∧ Recorder.urlRef p = Some 0
  ∧ is_Some (live (Recorder.urls p) !! 0).
Proof. vm_compute. repeat split; eauto. Qed.

(** C4 fails on [reset]: after one take and a reset the URL is gone from the
    state, from the ref and from the store, and the blob is still there. *)
Theorem reset_keeps_blob :
  let p := Recorder.run (one_take ++ [Recorder.Reset]) Recorder.mount in
  Recorder.status (Recorder.state p) = Recorder.ready
  ∧ Recorder.objectUrl (Recorder.state p) = None
  ∧ Recorder.urlRef p = None
  ∧ live (Recorder.urls p) = ∅
  ∧ Recorder.blob (Recorder.state p) = Some (mkBlob [Byte.x2a] "video/webm").
Proof. vm_compute. repeat split. Qed.

Lemma session_invariant_mount : Recorder.session_invariant Recorder.mount.
Proof. unfold Recorder.session_invariant. session_auto. Qed.

Lemma session_invariant_apply o p :
  Recorder.session_invariant p → Recorder.session_invariant (Recorder.apply o p).
Proof.
  unfold Recorder.session_invariant.
  destruct p as [[st em sm rc ch bl ou mt] ur cr us rl orp]. simpl.
  intros (Hsr & Hrs & Hidle & Hurl).
  destruct o as [window | | | | | d | | m | i d | i | i m]; unfold Recorder.apply.
  - unfold Recorder.init. destruct window as [b |]; [| session_auto]. cbv beta iota.
    destruct (Recorder.requestUserMedia (Some b)) as [s | e]; [| session_auto].
    destruct (Recorder.isTypeSupported b); session_auto.
  - unfold Recorder.start. simpl. destruct rc as [r |]; [| session_auto]. simpl.
    destruct (bool_decide (st = Recorder.recording)); [session_auto |].
    destruct (Recorder.active r); session_auto.
  - unfold Recorder.stop. simpl. destruct rc as [r |]; [| session_auto]. simpl.
    destruct (bool_decide (st = Recorder.recording)); [| session_auto].
    destruct (Recorder.active r); session_auto.
  - unfold Recorder.reset. simpl. destruct sm; session_auto.
  - unfold Recorder.cleanup. session_auto.
  - destruct rc as [r |]; [| session_auto]. simpl.
    unfold Recorder.ondataavailable. destruct d as [d |]; [| session_auto].
    destruct (bool_decide _); session_auto.
  - destruct rc as [r |]; [| session_auto]. simpl.
    destruct (Recorder.stop_pending r); [| session_auto].
    unfold Recorder.onstop. session_auto.
  - destruct rc as [r |]; [| session_auto]. simpl.
    unfold Recorder.onerror. session_auto.
  - simpl. destruct (orp !! i) as [r |]; [| session_auto].
    unfold Recorder.ondataavailable. destruct d as [d |]; [| session_auto].
    destruct (bool_decide _); session_auto.
  - simpl. destruct (orp !! i) as [r |]; [| session_auto].
    destruct (Recorder.stop_pending r); [| session_auto].
    unfold Recorder.onstop. session_auto.
  - simpl. destruct (orp !! i) as [r |]; [| session_auto].
    unfold Recorder.onerror. session_auto.
Qed.

Lemma session_invariant_run ops p :
  Recorder.session_invariant p → Recorder.session_invariant (Recorder.run ops p).
Proof.
  revert p. induction ops as [| o ops IH]; intros p Hp; simpl; [assumption |].
  apply IH, session_invariant_apply, Hp.
Qed.

(** C9, as the spec states it, fails: the camera granted once and refused
    on a second [init], the status is "error" and the recorder of the first
    [init] is still there; [start()] then records. *)
Lemma start_from_error_records :
  let p := Recorder.run granted_then_denied Recorder.mount in
  Recorder.status (Recorder.state p) = Recorder.error
  ∧ Recorder.canStart (Recorder.status (Recorder.state p)) = false
  ∧ Recorder.status (Recorder.state (Recorder.start p)) = Recorder.recording
  ∧ Recorder.start p ≠ p.
Proof.
  vm_compute. repeat split. intros Heq. discriminate.
Qed.

(** C9, amended: [start()] returns at once when there is no recorder or the
    status is "recording".  Otherwise, whatever the status ("ready",
    "stopped", and "error" too), it clears the chunks and calls
    [recorder.start()]: the status becomes "recording", or "error" with the
    recorder's message when the call throws, which it does when the
    recorder is already recording.  From "idle" it changes nothing in any
    state the session reaches: an idle session has no recorder. *)
Theorem start_guard (p : Recorder.Provider) :
  (Recorder.recorder (Recorder.state p) = None
   ∨ Recorder.status (Recorder.state p) = Recorder.recording →
   Recorder.start p = p)
  ∧ (∀ r, Recorder.recorder (Recorder.state p) = Some r →
          Recorder.status (Recorder.state p) ≠ Recorder.recording →
          Recorder.chunks (Recorder.state (Recorder.start p)) = []
          ∧ Recorder.chunksRef (Recorder.start p) = []
          ∧ (Recorder.active r = false →
               Recorder.status (Recorder.state (Recorder.start p)) = Recorder.recording
               ∧ Recorder.recorder (Recorder.state (Recorder.start p))
                 = Some (Recorder.mkRecorder (Recorder.created_with r) true
                           (Recorder.stop_pending r)))
          ∧ (Recorder.active r = true →
               Recorder.status (Recorder.state (Recorder.start p)) = Recorder.error
               ∧ Recorder.errorMessage (Recorder.state (Recorder.start p))
                 = Some (Js.message (Recorder.InvalidStateError "start" "recording"))
               ∧ Recorder.recorder (Recorder.state (Recorder.start p)) = Some r))
  ∧ (∀ ops, p = Recorder.run ops Recorder.mount →
            Recorder.status (Recorder.state p) = Recorder.idle →
            Recorder.start p = p).
Proof.
  split; [| split].
  - intros [Hnone | Hrec]; unfold Recorder.start.
    + now rewrite Hnone.
    + destruct (Recorder.recorder (Recorder.state p)); [| reflexivity].
      now rewrite bool_decide_eq_true_2.
  - intros r Hr Hst. unfold Recorder.start. rewrite Hr.
    rewrite bool_decide_eq_false_2 by assumption.
    destruct (Recorder.active r) eqn:Ha; simpl.
    + repeat split; try discriminate. exact Hr.
    + repeat split; try discriminate. now rewrite Hr.
  - intros ops -> Hidle.
    destruct (session_invariant_run ops _ session_invariant_mount) as (_ & _ & Hnone & _).
    unfold Recorder.start. now rewrite (Hnone Hidle).
Qed.

Lemma start_guard_witness :
  let p := Recorder.run granted_then_denied Recorder.mount in
  Recorder.status (Recorder.state (Recorder.start p)) = Recorder.recording
  ∧ Recorder.recorder (Recorder.state (Recorder.start p))
    = Some (Recorder.mkRecorder (Some "video/webm") true false).
Proof.
  intros p.
  destruct (start_guard p) as (_ & Hstart & _).
  destruct (Hstart (Recorder.mkRecorder (Some "video/webm") false false) eq_refl)
    as (_ & _ & Hinactive & _); [discriminate |].
  exact (Hinactive eq_refl).
Defined.

(* ===================================================================== *)
(** * Further properties *)
(* ===================================================================== *)

(** A snapshot at the default second, scaled to a width of 1280: the page
    gets a JPEG-typed result of kind "snapshot", and the flag is released. *)
Example snapshot_result :
  @run copy_platform
    ([Deliver (CmdLoad None); Settle 0; Settle 0; Settle 0; Deliver (CmdSnapshot still)]
     ++ serve_job) boot
  = mkSystem (mkWorker (Some (mkFFmpeg (Some ∅) true)) false false) []
      [EvLoaded; EvProgress (Some 1.7%float) None;
       EvResult (mkResult snapshot "thumb.jpg" "image/jpeg" [Byte.x01; Byte.x02])].
Proof. vm_compute. reflexivity. Qed.

(** The command line of the snapshot above. *)
Example snapshot_command_line :
  @snapshot_args copy_platform still "input.webm" "thumb.jpg"
  = ["-ss"; "1"; "-i"; "input.webm"; "-frames:v"; "1"; "-q:v"; "2";
     "-vf"; "scale=1280:-2"; "thumb.jpg"].
Proof. vm_compute. reflexivity. Qed.

(** The command line of the preview of [clip]. *)
Example preview_command_line :
  @preview_args copy_platform clip "input.webm" "preview.mp4"
  = ["-ss"; "0"; "-t"; "10"; "-i"; "input.webm"; "-vf"; "scale=-2:720";
     "-c:v"; "libx264"; "-preset"; "veryfast"; "-crf"; "28"; "-pix_fmt"; "yuv420p";
     "-c:a"; "aac"; "-b:a"; "128k"; "-movflags"; "+faststart"; "preview.mp4"].
Proof. vm_compute. reflexivity. Qed.

(** Cancel idempotence: [cancel] with no instance posts nothing and changes
    nothing. *)
Theorem cancel_without_instance `{Platform} (s : System) :
  ffmpeg (vars s) = None → deliver CmdCancel s = s.
Proof.
  intros Hf. unfold deliver, onmessage, cancelCurrent. async_unfold. simpl.
  rewrite Hf. simpl. now destruct s.
Qed.

Lemma cancel_without_instance_witness : @deliver quiet_platform CmdCancel boot = boot.
Proof. exact (@cancel_without_instance quiet_platform boot eq_refl). Defined.

(** In every state the worker reaches, a set busy flag comes with an
    instance in [ffmpeg]. *)
Theorem busy_flag_has_instance `{Platform} (acts : list EventLoop.Action) :
  busy (vars (run acts boot)) = true → ffmpeg (vars (run acts boot)) ≠ None.
Proof. apply reachable_busy_has_instance. now exists acts. Qed.

Lemma busy_flag_has_instance_witness :
  ffmpeg (vars (@run copy_platform preview_under_way boot)) ≠ None.
Proof. exact (@busy_flag_has_instance copy_platform preview_under_way eq_refl). Defined.

(** In every state the capture session reaches, a URL in the state comes
    with a blob: without a blob there is no URL. *)
Theorem url_has_blob (ops : list Recorder.Op) :
  Recorder.blob (Recorder.state (Recorder.run ops Recorder.mount)) = None →
  Recorder.objectUrl (Recorder.state (Recorder.run ops Recorder.mount)) = None.
Proof.
  destruct (session_invariant_run ops _ session_invariant_mount) as (_ & _ & _ & Hurl).
  exact Hurl.
Qed.

Lemma url_has_blob_witness :
  Recorder.objectUrl
    (Recorder.state (Recorder.run (one_take ++ [Recorder.Init (Some Recorder.granting)])
                       Recorder.mount)) = None.
Proof.
  exact (url_has_blob (one_take ++ [Recorder.Init (Some Recorder.granting)]) eq_refl).
Defined.

(** Cache atomicity: after [clearCoreCache] the assets are not cached, and
    after a [cacheCoreAssets] that succeeded they are. *)
Theorem cache_atomicity (net : FfmpegCache.Network)
  (signal : option FfmpegCache.AbortSignal) (g : FfmpegCache.Global) :
  (FfmpegCache.isCoreCached (FfmpegCache.clearCoreCache g).1).2 = Resolved false
  ∧ ((FfmpegCache.cacheCoreAssets net signal g).2 = Resolved tt →
     (FfmpegCache.isCoreCached (FfmpegCache.cacheCoreAssets net signal g).1).2
     = Resolved true).
Proof.
  split.
  - unfold FfmpegCache.clearCoreCache, FfmpegCache.isCoreCached.
    destruct (FfmpegCache.getCaches g) as [cs |] eqn:Hg; simpl.
    + unfold FfmpegCache.open. rewrite lookup_delete_eq. simpl.
      now rewrite !lookup_empty.
    + now rewrite Hg.
  - unfold FfmpegCache.cacheCoreAssets.
    destruct (FfmpegCache.getCaches g) as [cs |] eqn:Hg; [| discriminate].
    destruct (FfmpegCache.open FFMPEG_CACHE_NAME cs) as [cs' c].
    destruct (FfmpegCache.fetch net signal CORE_JS_URL) as [js | e1];
      destruct (FfmpegCache.fetch net signal CORE_WASM_URL) as [wasm | e2];
      try discriminate.
    destruct (negb (FfmpegCache.ok js)); [discriminate |].
    destruct (negb (FfmpegCache.ok wasm)); [discriminate |].
    unfold FfmpegCache.put.
    destruct (FfmpegCache.status js =? 206)%N, (FfmpegCache.status wasm =? 206)%N;
      simpl; try discriminate.
    intros _. unfold FfmpegCache.isCoreCached, FfmpegCache.open. simpl.
    rewrite lookup_insert_eq. simpl.
    rewrite lookup_insert_eq.
    rewrite lookup_insert_ne
      by (apply (bool_decide_eq_false_1 (CORE_WASM_URL = CORE_JS_URL)); reflexivity).
    rewrite lookup_insert_eq. reflexivity.
Qed.

Lemma cache_atomicity_witness :
  (FfmpegCache.isCoreCached (FfmpegCache.cacheCoreAssets cdn_200 None empty_storage).1).2
  = Resolved true.
Proof. exact (proj2 (cache_atomicity cdn_200 None empty_storage) eq_refl). Defined.

(* ===================================================================== *)
(** * Further properties: the worker *)
(* ===================================================================== *)

Lemma deliver_load_ignored `{Platform} (s : System) (payload : option LoadPayload) :
  ffmpeg (vars s) ≠ None → deliver (CmdLoad payload) s = s.
Proof.
  intros Hf. unfold deliver, onmessage, ensureLoaded. async_unfold. simpl.
  destruct (ffmpeg (vars s)) as [eng |] eqn:He; [| congruence].
  destruct (loading (vars s)) eqn:Hl; simpl; rewrite ?Hl; simpl; rewrite He; simpl;
    now destruct s.
Qed.

(** Once [ffmpeg] holds an instance, a [load] command does nothing: no event
    is posted (not even "loaded"), no handler is left waiting, no variable
    changes.  This is so whether the instance is loaded, is being loaded or
    has failed to load. *)
Theorem load_with_instance_ignored `{Platform} (s : System) (payload : option LoadPayload) :
  ffmpeg (vars s) ≠ None → deliver (CmdLoad payload) s = s.
Proof. apply deliver_load_ignored. Qed.

Lemma load_with_instance_ignored_witness :
  let s := @run quiet_platform [Deliver (CmdLoad None)] boot in
  @deliver quiet_platform (CmdLoad None) s = s.
Proof.
  apply (@load_with_instance_ignored quiet_platform). discriminate.
Defined.

(** A load that fails is never tried again: when the engine's [load]
    rejects, the error is posted, [loading] stays set with the unloaded
    instance in [ffmpeg], and from then on every [load] command is ignored. *)
Theorem load_failure_sticks `{Platform} (e : Error) (u1 u2 : string) :
  toBlobURL CORE_JS_URL "text/javascript" = Resolved u1 →
  toBlobURL CORE_WASM_URL "application/wasm" = Resolved u2 →
  ffmpeg_load u1 u2 = Rejected e →
  let s := run [Deliver (CmdLoad None); Settle 0; Settle 0; Settle 0] boot in
  s = mkSystem (mkWorker (Some (mkFFmpeg None true)) true false) []
        [EvError (message_or_string e)]
  ∧ ∀ payloads, run (Deliver ∘ CmdLoad <$> payloads) s = s.
Proof.
  intros H1 H2 Hload.
  assert (Hs : run [Deliver (CmdLoad None); Settle 0; Settle 0; Settle 0] boot
               = mkSystem (mkWorker (Some (mkFFmpeg None true)) true false) []
                   [EvError (message_or_string e)]).
  { unfold run, boot, initial. simpl. unfold settle, deliver. simpl.
    rewrite H1. simpl. rewrite H2. simpl. rewrite Hload. reflexivity. }
  cbv zeta. rewrite Hs. split; [reflexivity |].
  intros payloads. induction payloads as [| payload payloads IH]; [reflexivity |].
  simpl. rewrite deliver_load_ignored by discriminate. exact IH.
Qed.

Lemma load_failure_sticks_witness :
  @run no_core_platform
    (Deliver ∘ CmdLoad <$> [None; None])
    (@run no_core_platform [Deliver (CmdLoad None); Settle 0; Settle 0; Settle 0] boot)
  = @run no_core_platform [Deliver (CmdLoad None); Settle 0; Settle 0; Settle 0] boot.
Proof.
  exact (proj2 (@load_failure_sticks no_core_platform _ _ _ eq_refl eq_refl eq_refl)
           [None; None]).
Defined.

(** ** A job, served call by call *)

Section Jobs.
Context `{Platform}.

Lemma settle_first t rest w out :
  settle 0 (mkSystem w (t :: rest) out)
  = (let '(w', evs, o) := promise_end (awaited t) w in
     absorb (resume t o w') rest (out ++ evs)%list).
Proof. reflexivity. Qed.

Lemma writeFile_served path d fs wd l b :
  promise_end (RqWriteFile path d) (mkWorker (Some (mkFFmpeg (Some fs) wd)) l b)
  = (mkWorker (Some (mkFFmpeg (Some (<[path := d]> fs)) wd)) l b, [], Resolved VUndefined).
Proof. now destruct wd. Qed.

Lemma exec_served args fs fs' notes r wd l b :
  ffmpeg_exec args fs = (fs', notes, r) →
  promise_end (RqExec args) (mkWorker (Some (mkFFmpeg (Some fs) wd)) l b)
  = (mkWorker (Some (mkFFmpeg (Some fs') wd)) l b,
     if wd then note_event <$> notes else [],
     match r with Resolved _ => Resolved VUndefined | Rejected e => Rejected e end).
Proof.
  intros Hexec. unfold promise_end. simpl. unfold on_core. simpl. now rewrite Hexec.
Qed.

Lemma readFile_served path fs wd l b :
  promise_end (RqReadFile path) (mkWorker (Some (mkFFmpeg (Some fs) wd)) l b)
  = (mkWorker (Some (mkFFmpeg (Some fs) wd)) l b, [],
     match fs !! path with
     | Some d => Resolved (VBytes d)
     | None => Rejected ERROR_NO_ENTRY
     end).
Proof.
  unfold promise_end. simpl. unfold on_core. simpl.
  destruct (fs !! path); now destruct wd.
Qed.

(** However [deleteFile(path)] ends, the file is not there afterwards. *)
Lemma deleteFile_gone path fs wd l b :
  ∃ o, promise_end (RqDeleteFile path) (mkWorker (Some (mkFFmpeg (Some fs) wd)) l b)
       = (mkWorker (Some (mkFFmpeg (Some (delete path fs)) wd)) l b, [], o).
Proof.
  unfold promise_end. simpl. unfold on_core. simpl.
  destruct (fs !! path) eqn:Hp; eexists; destruct wd; simpl; try reflexivity.
  all: now rewrite delete_id.
Qed.

End Jobs.

(** Serves the call of the first waiting handler. *)
Ltac serve_with lem := rewrite settle_first; cbn [awaited]; rewrite lem; cbn [resume]; simpl.

Ltac serve_delete :=
  rewrite settle_first; cbn [awaited];
  match goal with
  | |- context [promise_end (RqDeleteFile ?path)
                  (mkWorker (Some (mkFFmpeg (Some ?fs) ?wd)) ?l ?b)] =>
      let o := fresh "o" in
      let Ho := fresh "Ho" in
      destruct (deleteFile_gone path fs wd l b) as [o Ho];
      rewrite Ho; clear Ho; cbn [resume]; destruct o; simpl
  end.

(** A preview on a loaded, idle worker whose command succeeds and leaves
    the output file: served call by call, the job posts what the engine
    reported (when the listeners are wired) and then one result of kind
    "preview" carrying the bytes of the output file, named "preview.mp4"
    and typed "video/mp4" unless [toMp4] is [false], "preview.webm" and
    "video/webm" then.  It ends with the busy flag released, no handler
    waiting, and the input and both outputs removed from the files the
    command left. *)
Theorem preview_job_result `{Platform} (p : PreviewParams.t) (fs fs' : FS)
  (wd : bool) (out0 : list WorkerEvent) (notes : list EngineNote) (d : bytes) :
  let inputName := or_string (PreviewParams.inputName p) "input.webm" in
  let mp4 := bool_decide (PreviewParams.toMp4 p ≠ Some false) in
  let outName := if mp4 then "preview.mp4" else "preview.webm" in
  ffmpeg_exec (preview_args p inputName outName) (<[inputName := PreviewParams.data p]> fs)
  = (fs', notes, Resolved tt) →
  fs' !! outName = Some d →
  run (Deliver (CmdPreview p) :: replicate 6 (Settle 0))
    (mkSystem (mkWorker (Some (mkFFmpeg (Some fs) wd)) false false) [] out0)
  = mkSystem
      (mkWorker
         (Some (mkFFmpeg
                  (Some (delete inputName (delete "preview.webm" (delete "preview.mp4" fs'))))
                  wd))
         false false)
      []
      (out0 ++ (if wd then note_event <$> notes else [])
       ++ [EvResult (mkResult preview outName
                       (if mp4 then "video/mp4" else "video/webm") d)])%list.
Proof.
  intros inputName mp4 outName Hexec Hout.
  unfold run. simpl foldl. unfold deliver at 1.
  unfold onmessage, ensureLoaded, doPreview. async_unfold. simpl.
  fold mp4. fold outName. fold inputName. unfold set_busy. simpl.
  serve_with writeFile_served.
  serve_with (exec_served _ _ _ _ _ wd false true Hexec).
  serve_with readFile_served. rewrite Hout. simpl.
  assert (Hmime : (if endsWith outName ".mp4" then "video/mp4" else "video/webm")
                  = if mp4 then "video/mp4" else "video/webm")
    by (unfold outName; now destruct mp4).
  rewrite Hmime, !app_nil_r, <- app_assoc.
  do 3 serve_delete; now rewrite !app_nil_r.
Qed.

Lemma preview_job_result_witness :
  @run copy_platform (Deliver (CmdPreview clip) :: replicate 6 (Settle 0))
    (mkSystem (mkWorker (Some (mkFFmpeg (Some ∅) true)) false false) [] [EvLoaded])
  = mkSystem
      (mkWorker
         (Some (mkFFmpeg
                  (Some (delete "input.webm"
                           (delete "preview.webm"
                              (delete "preview.mp4"
                                 (<["preview.mp4" := [Byte.x01; Byte.x02]]>
                                    (<["input.webm" := [Byte.x01; Byte.x02]]> ∅))))))
                  true))
         false false)
      []
      ([EvLoaded] ++ [EvProgress (Some 1.7%float) None]
       ++ [EvResult (mkResult preview "preview.mp4" "video/mp4" [Byte.x01; Byte.x02])])%list.
Proof.
  exact (@preview_job_result copy_platform clip ∅ _ true [EvLoaded] _ _ eq_refl eq_refl).
Defined.

(** A snapshot on a loaded, idle worker whose command succeeds and leaves
    "thumb.jpg": the job posts what the engine reported (when the listeners
    are wired) and then one result of kind "snapshot", named "thumb.jpg" and
    typed "image/jpeg", carrying the bytes of that file.  It ends with the
    busy flag released, no handler waiting, and the input and the output
    removed from the files the command left. *)
Theorem snapshot_job_result `{Platform} (p : SnapshotParams.t) (fs fs' : FS)
  (wd : bool) (out0 : list WorkerEvent) (notes : list EngineNote) (d : bytes) :
  let inputName := or_string (SnapshotParams.inputName p) "input.webm" in
  ffmpeg_exec (snapshot_args p inputName "thumb.jpg") (<[inputName := SnapshotParams.data p]> fs)
  = (fs', notes, Resolved tt) →
  fs' !! "thumb.jpg" = Some d →
  run (Deliver (CmdSnapshot p) :: replicate 5 (Settle 0))
    (mkSystem (mkWorker (Some (mkFFmpeg (Some fs) wd)) false false) [] out0)
  = mkSystem
      (mkWorker (Some (mkFFmpeg (Some (delete inputName (delete "thumb.jpg" fs'))) wd))
         false false)
      []
      (out0 ++ (if wd then note_event <$> notes else [])
       ++ [EvResult (mkResult snapshot "thumb.jpg" "image/jpeg" d)])%list.
Proof.
  intros inputName Hexec Hout.
  unfold run. simpl foldl. unfold deliver at 1.
  unfold onmessage, ensureLoaded, doSnapshot. async_unfold. simpl.
  fold inputName. unfold set_busy. simpl.
  serve_with writeFile_served.
  serve_with (exec_served _ _ _ _ _ wd false true Hexec).
  serve_with readFile_served. rewrite Hout. simpl.
  rewrite !app_nil_r, <- app_assoc.
  do 2 serve_delete; now rewrite !app_nil_r.
Qed.

Lemma snapshot_job_result_witness :
  @run copy_platform (Deliver (CmdSnapshot still) :: replicate 5 (Settle 0))
    (mkSystem (mkWorker (Some (mkFFmpeg (Some ∅) true)) false false) [] [])
  = mkSystem
      (mkWorker
         (Some (mkFFmpeg
                  (Some (delete "input.webm"
                           (delete "thumb.jpg"
                              (<["thumb.jpg" := [Byte.x01; Byte.x02]]>
                                 (<["input.webm" := [Byte.x01; Byte.x02]]> ∅)))))
                  true))
         false false)
      []
      ([] ++ [EvProgress (Some 1.7%float) None]
       ++ [EvResult (mkResult snapshot "thumb.jpg" "image/jpeg" [Byte.x01; Byte.x02])])%list.
Proof.
  exact (@snapshot_job_result copy_platform still ∅ _ true [] _ _ eq_refl eq_refl).
Defined.

(** A job whose command line the engine rejects: the page gets what the
    engine reported and then one error event with the rejection's message,
    and no result.  The cleanup has run before the error is posted: the busy
    flag is released, no handler waits, and the input and the outputs are
    removed from the files the command left. *)
Theorem job_failure_reported `{Platform} (fs fs' : FS) (wd : bool)
  (out0 : list WorkerEvent) (notes : list EngineNote) (e : Error) :
  (∀ p : PreviewParams.t,
     let inputName := or_string (PreviewParams.inputName p) "input.webm" in
     let outName := if bool_decide (PreviewParams.toMp4 p ≠ Some false)
                    then "preview.mp4" else "preview.webm" in
     ffmpeg_exec (preview_args p inputName outName)
       (<[inputName := PreviewParams.data p]> fs) = (fs', notes, Rejected e) →
     run (Deliver (CmdPreview p) :: replicate 5 (Settle 0))
       (mkSystem (mkWorker (Some (mkFFmpeg (Some fs) wd)) false false) [] out0)
     = mkSystem
         (mkWorker
            (Some (mkFFmpeg
                     (Some (delete inputName
                              (delete "preview.webm" (delete "preview.mp4" fs'))))
                     wd))
            false false)
         []
         (out0 ++ (if wd then note_event <$> notes else [])
          ++ [EvError (message_or_string e)])%list)
  ∧ (∀ p : SnapshotParams.t,
       let inputName := or_string (SnapshotParams.inputName p) "input.webm" in
       ffmpeg_exec (snapshot_args p inputName "thumb.jpg")
         (<[inputName := SnapshotParams.data p]> fs) = (fs', notes, Rejected e) →
       run (Deliver (CmdSnapshot p) :: replicate 4 (Settle 0))
         (mkSystem (mkWorker (Some (mkFFmpeg (Some fs) wd)) false false) [] out0)
       = mkSystem
           (mkWorker
              (Some (mkFFmpeg (Some (delete inputName (delete "thumb.jpg" fs'))) wd))
              false false)
           []
           (out0 ++ (if wd then note_event <$> notes else [])
            ++ [EvError (message_or_string e)])%list).
Proof.
  split.
  - intros p inputName outName Hexec.
    unfold run. simpl foldl. unfold deliver at 1.
    unfold onmessage, ensureLoaded, doPreview. async_unfold. simpl.
    fold outName. fold inputName. unfold set_busy. simpl.
    serve_with writeFile_served.
    serve_with (exec_served _ _ _ _ _ wd false true Hexec).
    rewrite !app_nil_r.
    do 3 serve_delete; now rewrite !app_nil_r, <- app_assoc.
  - intros p inputName Hexec.
    unfold run. simpl foldl. unfold deliver at 1.
    unfold onmessage, ensureLoaded, doSnapshot. async_unfold. simpl.
    fold inputName. unfold set_busy. simpl.
    serve_with writeFile_served.
    serve_with (exec_served _ _ _ _ _ wd false true Hexec).
    rewrite !app_nil_r.
    do 2 serve_delete; now rewrite !app_nil_r, <- app_assoc.
Qed.

Lemma job_failure_reported_witness :
  let p := PreviewParams.mk [Byte.x01] (Some "take.webm") None None None None None None None in
  @run copy_platform (Deliver (CmdPreview p) :: replicate 5 (Settle 0))
    (mkSystem (mkWorker (Some (mkFFmpeg (Some ∅) true)) false false) [] [])
  = mkSystem
      (mkWorker
         (Some (mkFFmpeg
                  (Some (delete "take.webm"
                           (delete "preview.webm"
                              (delete "preview.mp4" (<["take.webm" := [Byte.x01]]> ∅)))))
                  true))
         false false)
      []
      ([] ++ [] ++ [EvError "no input"])%list.
Proof.
  exact (proj1 (@job_failure_reported copy_platform ∅ _ true [] _ _)
           (PreviewParams.mk [Byte.x01] (Some "take.webm") None None None None None None None)
           eq_refl).
Defined.

(** ** What a teardown leaves behind *)

Section Teardown.
Context `{Platform}.

Lemma unchanged_since_refl w : unchanged_since w w.
Proof. split; auto. Qed.

Lemma unchanged_since_trans w0 w1 w2 :
  unchanged_since w0 w1 → unchanged_since w1 w2 → unchanged_since w0 w2.
Proof.
  intros [Hf1 Hn1] [Hf2 Hn2]. split; [congruence |].
  intros Hnone. destruct (Hn1 Hnone) as [Hl1 Hb1].
  destruct Hn2 as [Hl2 Hb2]; [congruence |]. auto.
Qed.

Lemma settled_from {A} w0 w1 (r : Run A) :
  unchanged_since w0 w1 → settled w1 r → settled w0 r.
Proof.
  intros Hw. induction r as [w a | w e | ev r IH | w rq k IH]; simpl; auto.
  - now apply unchanged_since_trans.
  - now apply unchanged_since_trans.
  - intros (Hu & Hrq & Hk). split; [now apply (unchanged_since_trans _ w1) | auto].
Qed.

Lemma settled_bind {A B} w0 (r : Run A) (f : A → Async B) :
  settled w0 r → (∀ a w, settled w (f a w)) → settled w0 (bind_run r f).
Proof.
  intros Hr Hf. revert w0 Hr.
  induction r as [w a | w e | ev r IH | w rq k IH]; intros w0; simpl; auto.
  - intros Hu. eapply settled_from; [exact Hu | apply Hf].
  - intros (Hu & Hrq & Hk). split; [assumption |]. split; [assumption |].
    intros o w'. apply IH, Hk.
Qed.

Lemma settled_catch {A} w0 (r : Run A) (h : Error → Async A) :
  settled w0 r → (∀ e w, settled w (h e w)) → settled w0 (catch_run r h).
Proof.
  intros Hr Hh. revert w0 Hr.
  induction r as [w a | w e | ev r IH | w rq k IH]; intros w0; simpl; auto.
  - intros Hu. eapply settled_from; [exact Hu | apply Hh].
  - intros (Hu & Hrq & Hk). split; [assumption |]. split; [assumption |].
    intros o w'. apply IH, Hk.
Qed.

Lemma settled_finally {A} w0 (r : Run A) (fin : Async unit) :
  settled w0 r → (∀ w, settled w (fin w)) → settled w0 (finally_run r fin).
Proof.
  intros Hr Hfin. revert w0 Hr.
  induction r as [w a | w e | ev r IH | w rq k IH]; intros w0; simpl; auto.
  - intros Hu. apply settled_bind.
    + eapply settled_from; [exact Hu | apply Hfin].
    + intros _ w1. apply unchanged_since_refl.
  - intros Hu. apply settled_bind.
    + eapply settled_from; [exact Hu | apply Hfin].
    + intros _ w1. apply unchanged_since_refl.
  - intros (Hu & Hrq & Hk). split; [assumption |]. split; [assumption |].
    intros o w'. apply IH, Hk.
Qed.

Lemma settled_is_later {A} w0 (r : Run A) : settled w0 r → settled_later r.
Proof.
  induction r as [w a | w e | ev r IH | w rq k IH]; simpl; auto.
  intros (_ & Hrq & Hk). auto.
Qed.

Lemma settled_later_bind {A B} (r : Run A) (f : A → Async B) :
  settled_later r → (∀ a w, settled w (f a w)) → settled_later (bind_run r f).
Proof.
  intros Hr Hf.
  induction r as [w a | w e | ev r IH | w rq k IH]; simpl in *; auto.
  - eapply settled_is_later, Hf.
  - destruct Hr as [Hrq Hk]. split; [assumption |].
    intros o w'. now apply settled_bind.
Qed.

Lemma settled_later_catch {A} (r : Run A) (h : Error → Async A) :
  settled_later r → (∀ e w, settled w (h e w)) → settled_later (catch_run r h).
Proof.
  intros Hr Hh.
  induction r as [w a | w e | ev r IH | w rq k IH]; simpl in *; auto.
  - eapply settled_is_later, Hh.
  - destruct Hr as [Hrq Hk]. split; [assumption |].
    intros o w'. now apply settled_catch.
Qed.

Lemma settled_call_ffmpeg method rq w : settled w (call_ffmpeg method rq w).
Proof.
  unfold call_ffmpeg. destruct (ffmpeg w) eqn:Hf; simpl.
  - split; [apply unchanged_since_refl |]. split; [congruence |].
    intros [v | e] w'; apply unchanged_since_refl.
  - apply unchanged_since_refl.
Qed.

Lemma settled_toBlobURL url mimeType w : settled w (await (RqToBlobURL url mimeType) w).
Proof.
  simpl. split; [apply unchanged_since_refl |]. split; [reflexivity |].
  intros [v | e] w'; apply unchanged_since_refl.
Qed.

Lemma settled_or_blob_url url asset mimeType w : settled w (or_blob_url url asset mimeType w).
Proof.
  unfold or_blob_url.
  destruct url as [u |]; [destruct (decide (u = "")) |]; async_unfold;
    first [ apply unchanged_since_refl
          | apply settled_bind; [apply settled_toBlobURL |];
            intros v w1; apply unchanged_since_refl ].
Qed.

Lemma settled_try_deleteFile path w : settled w (try_deleteFile path w).
Proof.
  unfold try_deleteFile. async_unfold. apply settled_catch.
  - apply settled_bind; [apply settled_call_ffmpeg |].
    intros v w1. apply unchanged_since_refl.
  - intros e w1. apply unchanged_since_refl.
Qed.

Lemma unchanged_since_released w : unchanged_since w (set_busy false w).
Proof. split; [reflexivity |]. intros _. split; [auto | discriminate]. Qed.

Lemma unchanged_since_taken w : ffmpeg w ≠ None → unchanged_since w (set_busy true w).
Proof. intros Hf. split; [reflexivity |]. intros Hnone. now destruct Hf. Qed.

Lemma settled_doPreview p w : settled w (doPreview p w).
Proof.
  unfold doPreview, post. async_unfold. simpl.
  destruct (ffmpeg w) as [eng |] eqn:Hf; simpl; [| apply unchanged_since_refl].
  apply (settled_from _ (set_busy true w)); [apply unchanged_since_taken; congruence |].
  apply settled_finally.
  - apply settled_bind; [apply settled_call_ffmpeg |]. intros _ w1.
    apply settled_bind; [apply settled_call_ffmpeg |]. intros _ w2.
    apply settled_bind; [apply settled_call_ffmpeg |]. intros v w3.
    apply unchanged_since_refl.
  - intros w1.
    apply settled_bind; [apply settled_try_deleteFile |]. intros _ w2.
    apply settled_bind; [apply settled_try_deleteFile |]. intros _ w3.
    apply settled_bind; [apply settled_try_deleteFile |]. intros _ w4.
    apply unchanged_since_released.
Qed.

Lemma settled_doSnapshot p w : settled w (doSnapshot p w).
Proof.
  unfold doSnapshot, post. async_unfold. simpl.
  destruct (ffmpeg w) as [eng |] eqn:Hf; simpl; [| apply unchanged_since_refl].
  apply (settled_from _ (set_busy true w)); [apply unchanged_since_taken; congruence |].
  apply settled_finally.
  - apply settled_bind; [apply settled_call_ffmpeg |]. intros _ w1.
    apply settled_bind; [apply settled_call_ffmpeg |]. intros _ w2.
    apply settled_bind; [apply settled_call_ffmpeg |]. intros v w3.
    apply unchanged_since_refl.
  - intros w1.
    apply settled_bind; [apply settled_try_deleteFile |]. intros _ w2.
    apply settled_bind; [apply settled_try_deleteFile |]. intros _ w3.
    apply unchanged_since_released.
Qed.

Lemma unchanged_since_loaded w : unchanged_since w (set_loading false w).
Proof. split; [reflexivity |]. intros _. split; [discriminate | auto]. Qed.

Lemma settled_later_ensureLoaded coreURL wasmURL w :
  settled_later (ensureLoaded coreURL wasmURL w).
Proof.
  unfold ensureLoaded, post. async_unfold. simpl.
  assert (Hload : ∀ w0,
    settled_later
      (bind_run (or_blob_url coreURL CORE_JS_URL "text/javascript" w0)
         (λ (resolvedCoreURL : string) (w1 : Worker),
            bind_run (or_blob_url wasmURL CORE_WASM_URL "application/wasm" w1)
              (λ (resolvedWasmURL : string) (w2 : Worker),
                 bind_run (call_ffmpeg "load" (RqLoad resolvedCoreURL resolvedWasmURL) w2)
                   (λ (_ : Value) (w3 : Worker),
                      Emit EvLoaded (Return (set_loading false w3) ())))))).
  { intros w0. apply (settled_is_later w0).
    apply settled_bind; [apply settled_or_blob_url |]. intros c w1.
    apply settled_bind; [apply settled_or_blob_url |]. intros u w2.
    apply settled_bind; [apply settled_call_ffmpeg |]. intros _ w3.
    apply unchanged_since_loaded. }
  destruct (ffmpeg w) as [eng |] eqn:Hf, (loading w) eqn:Hl; simpl;
    try exact I; rewrite Hl; simpl; try exact I.
  apply Hload.
Qed.

Lemma settled_later_onmessage msg w : settled_later (onmessage msg w).
Proof.
  unfold onmessage. async_unfold.
  apply settled_later_catch; [| intros e w1; apply unchanged_since_refl].
  destruct msg as [payload | p | p | |].
  - apply settled_later_ensureLoaded.
  - apply settled_later_bind; [apply settled_later_ensureLoaded |].
    intros _ w1. simpl. destruct (busy w1); simpl;
      [apply unchanged_since_refl | apply settled_doPreview].
  - apply settled_later_bind; [apply settled_later_ensureLoaded |].
    intros _ w1. simpl. destruct (busy w1); simpl;
      [apply unchanged_since_refl | apply settled_doSnapshot].
  - unfold cancelCurrent, post. async_unfold. simpl. now destruct (ffmpeg w).
  - unfold cancelCurrent, post. async_unfold. simpl. now destruct (ffmpeg w).
Qed.

Lemma absorb_settled (r : Run unit) waiting out :
  settled_later r → Forall task_settled waiting →
  Forall task_settled (pool (absorb r waiting out)).
Proof.
  intros Hr Hpool. revert out.
  induction r as [w a | w e | ev r IH | w rq k IH]; intros out; simpl in *; auto.
  destruct Hr as [_ Hk]. apply Forall_app. split; [assumption |].
  apply Forall_singleton. exact Hk.
Qed.

Lemma reject_pending_settled ts s :
  Forall task_settled ts → Forall task_settled (pool s) →
  Forall task_settled (pool (reject_pending ts s)).
Proof.
  revert s. induction ts as [| t ts IH]; intros s Hts Hs; simpl; [assumption |].
  apply Forall_cons in Hts as [Ht Hts].
  destruct (is_engine_request (awaited t)); apply IH; try assumption.
  - apply absorb_settled; [| assumption]. eapply settled_is_later, Ht.
  - simpl. apply Forall_app. split; [assumption | now apply Forall_singleton].
Qed.

Lemma step_settled a s :
  Forall task_settled (pool s) → Forall task_settled (pool (step a s)).
Proof.
  intros Hpool. destruct a as [msg | i]; simpl.
  - unfold deliver.
    pose proof (absorb_settled _ _ (outbox s) (settled_later_onmessage msg (vars s)) Hpool)
      as Hpool1.
    destruct (bool_decide _ && bool_decide _); [| assumption].
    apply reject_pending_settled; [assumption | constructor].
  - unfold settle. destruct (pool s !! i) as [t |] eqn:Ht; [| assumption].
    destruct (promise_end (awaited t) (vars s)) as [[w evs] o].
    apply absorb_settled.
    + eapply Forall_lookup_1 in Hpool; [| exact Ht]. eapply settled_is_later, Hpool.
    + now apply Forall_delete.
Qed.

Lemma reachable_settled s : reachable s → Forall task_settled (pool s).
Proof.
  intros [acts ->]. unfold run.
  assert (Hgen : ∀ s0, Forall task_settled (pool s0) →
                       Forall task_settled (pool (foldl (fun s a => step a s) s0 acts))).
  { induction acts as [| a acts IH]; intros s0 Hs0; simpl; [assumption |].
    apply IH, step_settled, Hs0. }
  apply Hgen. constructor.
Qed.

Lemma unchanged_since_initial w : unchanged_since initial w → w = initial.
Proof.
  intros [Hf Hflags]. destruct (Hflags eq_refl) as [Hl Hb].
  destruct w as [f l b]; simpl in *. subst f.
  destruct l; [now specialize (Hl eq_refl) |].
  destruct b; [now specialize (Hb eq_refl) |]. reflexivity.
Qed.

(** A handler resumed after a teardown leaves the variables at their
    initial values, waits at most for something else than the engine, and
    only adds to what has been posted. *)
Lemma absorb_torn (r : Run unit) waiting out :
  settled initial r → Forall awaits_elsewhere waiting →
  vars (absorb r waiting out) = initial
  ∧ Forall awaits_elsewhere (pool (absorb r waiting out))
  ∧ ∃ later, outbox (absorb r waiting out) = (out ++ later)%list.
Proof.
  intros Hr Hpool. revert out.
  induction r as [w a | w e | ev r IH | w rq k IH]; intros out; simpl in *.
  - split; [now apply unchanged_since_initial |]. split; [assumption |].
    exists []. now rewrite app_nil_r.
  - split; [now apply unchanged_since_initial |]. split; [assumption |].
    exists []. now rewrite app_nil_r.
  - destruct (IH Hr (out ++ [ev])%list) as (Hv & Hp & later & Hlater).
    split; [assumption |]. split; [assumption |].
    exists (ev :: later). rewrite Hlater. now rewrite <- app_assoc.
  - destruct Hr as (Hu & Hrq & _). apply unchanged_since_initial in Hu. subst w.
    split; [reflexivity |]. split.
    + apply Forall_app. split; [assumption |]. apply Forall_singleton.
      now apply Hrq.
    + exists []. now rewrite app_nil_r.
Qed.

Lemma reject_pending_torn ts s :
  Forall task_settled ts → vars s = initial → Forall awaits_elsewhere (pool s) →
  vars (reject_pending ts s) = initial
  ∧ Forall awaits_elsewhere (pool (reject_pending ts s))
  ∧ ∃ later, outbox (reject_pending ts s) = (outbox s ++ later)%list.
Proof.
  revert s. induction ts as [| t ts IH]; intros s Hts Hv Hpool; simpl.
  - split; [assumption |]. split; [assumption |]. exists []. now rewrite app_nil_r.
  - apply Forall_cons in Hts as [Ht Hts].
    destruct (is_engine_request (awaited t)) eqn:Hrq.
    + rewrite Hv.
      destruct (absorb_torn (resume t (Rejected ERROR_TERMINATED) initial) (pool s) (outbox s)
                  (Ht _ _) Hpool) as (Hv1 & Hp1 & later1 & Hl1).
      destruct (IH _ Hts Hv1 Hp1) as (Hv2 & Hp2 & later2 & Hl2).
      split; [assumption |]. split; [assumption |].
      exists (later1 ++ later2)%list. rewrite Hl2, Hl1. now rewrite <- app_assoc.
    + apply (IH (mkSystem (vars s) (pool s ++ [t]) (outbox s))); try assumption.
      simpl. apply Forall_app. split; [assumption | now apply Forall_singleton].
Qed.

End Teardown.

(** Cancel and terminate free the worker, whatever it was doing: in every
    state the worker reaches with an instance in [ffmpeg], a [cancel]
    command leaves [ffmpeg] at [null] and both flags down, posts "canceled"
    before anything else, and leaves no handler waiting for the engine (a
    handler still waiting waits for a blob URL).  A [terminate] command does
    the same and posts "terminated" right after "canceled". *)
Theorem teardown_frees_worker `{Platform} (s : System) :
  reachable s → ffmpeg (vars s) ≠ None →
  (vars (deliver CmdCancel s) = initial
   ∧ Forall awaits_elsewhere (pool (deliver CmdCancel s))
   ∧ ∃ later, outbox (deliver CmdCancel s) = (outbox s ++ EvCanceled :: later)%list)
  ∧ (vars (deliver CmdTerminate s) = initial
     ∧ Forall awaits_elsewhere (pool (deliver CmdTerminate s))
     ∧ ∃ later,
         outbox (deliver CmdTerminate s)
         = (outbox s ++ EvCanceled :: EvTerminated :: later)%list).
Proof.
  intros Hreach Hf. pose proof (reachable_settled s Hreach) as Hpool.
  destruct (ffmpeg (vars s)) as [eng |] eqn:He; [| congruence].
  split.
  - unfold deliver, onmessage, cancelCurrent, post. async_unfold. simpl.
    rewrite He. simpl.
    change (set_busy false (set_loading false (set_ffmpeg None (vars s)))) with initial.
    destruct (reject_pending_torn (pool s)
                (mkSystem initial [] (outbox s ++ [EvCanceled])%list) Hpool eq_refl)
      as (Hv & Hp & later & Hl); [constructor |].
    split; [exact Hv |]. split; [exact Hp |].
    exists later. rewrite Hl. simpl. now rewrite <- app_assoc.
  - unfold deliver, onmessage, cancelCurrent, post. async_unfold. simpl.
    rewrite He. simpl.
    change (set_busy false (set_loading false (set_ffmpeg None (vars s)))) with initial.
    destruct (reject_pending_torn (pool s)
                (mkSystem initial [] ((outbox s ++ [EvCanceled]) ++ [EvTerminated])%list)
                Hpool eq_refl)
      as (Hv & Hp & later & Hl); [constructor |].
    split; [exact Hv |]. split; [exact Hp |].
    exists later. rewrite Hl. simpl. now rewrite <- !app_assoc.
Qed.

Lemma teardown_frees_worker_witness :
  vars (@deliver copy_platform CmdCancel (@run copy_platform preview_under_way boot))
  = initial.
Proof.
  refine (proj1 (proj1 (@teardown_frees_worker copy_platform
                          (@run copy_platform preview_under_way boot)
                          (ex_intro _ preview_under_way eq_refl) _))).
  vm_compute. discriminate.
Defined.

(* ===================================================================== *)
(** * Further properties: the capture session and its dashboard *)
(* ===================================================================== *)

Lemma head_filter_first {A} (P : A → bool) (l : list A) :
  match head (filter (fun x => P x = true) l) with
  | Some t => ∃ before after, l = (before ++ t :: after)%list ∧ P t = true
                              ∧ Forall (fun c => P c = false) before
  | None => Forall (fun c => P c = false) l
  end.
Proof.
  induction l as [| x l IH]; simpl; [constructor |].
  destruct (P x) eqn:Hx.
  - rewrite filter_cons_True by assumption. simpl.
    exists [], l. split; [reflexivity |]. split; [assumption | constructor].
  - rewrite filter_cons_False by congruence.
    destruct (head (filter (fun x => P x = true) l)) as [t |].
    + destruct IH as (before & after & -> & Ht & Hbefore).
      exists (x :: before), after. split; [reflexivity |]. split; [assumption |].
      now constructor.
    + now constructor.
Qed.

(** [pickSupportedMimeType] returns the first candidate the browser's
    [MediaRecorder] supports: every candidate before it is unsupported; it
    returns [null] exactly when no candidate is supported, and always
    without a window or without [MediaRecorder]. *)
Theorem pick_first_supported (candidates : list string) :
  Recorder.pickSupportedMimeType None candidates = None
  ∧ (∀ b, Recorder.isTypeSupported b = None →
          Recorder.pickSupportedMimeType (Some b) candidates = None)
  ∧ (∀ b supported, Recorder.isTypeSupported b = Some supported →
       match Recorder.pickSupportedMimeType (Some b) candidates with
       | Some t => ∃ before after,
                     candidates = (before ++ t :: after)%list ∧ supported t = true
                     ∧ Forall (fun c => supported c = false) before
       | None => Forall (fun c => supported c = false) candidates
       end).
Proof.
  split; [reflexivity |]. split.
  - intros b Hb. unfold Recorder.pickSupportedMimeType. now rewrite Hb.
  - intros b supported Hb. unfold Recorder.pickSupportedMimeType. rewrite Hb.
    apply head_filter_first.
Qed.

Lemma pick_first_supported_witness :
  match Recorder.pickSupportedMimeType (Some Recorder.granting) Recorder.mimeCandidates with
  | Some t => ∃ before after,
                Recorder.mimeCandidates = (before ++ t :: after)%list
                ∧ bool_decide (t = "video/webm") = true
                ∧ Forall (fun c => bool_decide (c = "video/webm") = false) before
  | None => Forall (fun c => bool_decide (c = "video/webm") = false) Recorder.mimeCandidates
  end.
Proof.
  exact (proj2 (proj2 (pick_first_supported Recorder.mimeCandidates))
           Recorder.granting _ eq_refl).
Defined.

(** While a recorder records, the chunks that arrive pile up in the state
    and in [chunksRef], in the order they come. *)
Lemma chunks_pile_up (ds : list (option Blob)) st em sm r ch bl ou mt ur us rl orp :
  Recorder.run (Recorder.DataAvailable <$> ds)
    (Recorder.mkProvider (Recorder.mkRecorderState st em sm (Some r) ch bl ou mt) ur ch us
       rl orp)
  = Recorder.mkProvider
      (Recorder.mkRecorderState st em sm (Some r) (ch ++ Recorder.kept ds)%list bl ou mt)
      ur (ch ++ Recorder.kept ds)%list us rl orp.
Proof.
  unfold Recorder.run. revert ch.
  induction ds as [| d ds IH]; intros ch.
  - unfold Recorder.kept. simpl. now rewrite app_nil_r.
  - cbn [fmap list_fmap foldl]. unfold Recorder.apply at 2. simpl.
    unfold Recorder.ondataavailable, Recorder.kept. destruct d as [d |]; simpl.
    + destruct (bool_decide (0 < length (parts d))) eqn:Hd.
      * unfold Recorder.dispatch, Recorder.set_chunksRef. simpl. rewrite IH.
        apply bool_decide_eq_true_1 in Hd.
        rewrite filter_cons_True by assumption.
        unfold Recorder.kept. now rewrite <- !app_assoc.
      * rewrite IH. apply bool_decide_eq_false_1 in Hd.
        now rewrite filter_cons_False by assumption.
    + now rewrite IH.
Qed.

(** A take, from start to the recorder's "stop" event: with a recorder
    that is not recording, [start()], the chunks that arrive while it
    records, [stop()], the chunks that arrive before the "stop" event, and
    that event leave the status "stopped" and a blob made of the non-empty
    chunks that arrived since the start, in their order, typed as the
    recorder was created (or "video/webm"); the state's URL is freshly
    minted, it is the one [urlRef] holds and it serves that blob; the chunk
    lists are empty again. *)
Theorem take_collects_chunks (p : Recorder.Provider) (r : Recorder.MediaRecorder)
  (ds ds' : list (option Blob)) :
  Recorder.recorder (Recorder.state p) = Some r →
  Recorder.active r = false →
  Recorder.status (Recorder.state p) ≠ Recorder.recording →
  let p' := Recorder.run
              (Recorder.Start :: (Recorder.DataAvailable <$> ds)
               ++ Recorder.Stop :: (Recorder.DataAvailable <$> ds')
               ++ [Recorder.Stopped])%list p in
  let b := Recorder.new_Blob (Recorder.kept (ds ++ ds'))
             (or_string (Recorder.created_with r) "video/webm") in
  Recorder.status (Recorder.state p') = Recorder.stopped
  ∧ Recorder.blob (Recorder.state p') = Some b
  ∧ Recorder.chunks (Recorder.state p') = []
  ∧ Recorder.chunksRef p' = []
  ∧ Recorder.objectUrl (Recorder.state p') = Some (minted (Recorder.urls p))
  ∧ Recorder.urlRef p' = Some (minted (Recorder.urls p))
  ∧ live (Recorder.urls p') !! minted (Recorder.urls p) = Some b.
Proof.
  destruct p as [[st em sm rc ch bl ou mt] ur cr us rl orp]. simpl.
  intros -> Hactive Hst.
  assert (Hkept : Recorder.kept (ds ++ ds') = (Recorder.kept ds ++ Recorder.kept ds')%list).
  { unfold Recorder.kept. now rewrite omap_app, filter_app. }
  unfold Recorder.run. cbn [foldl]. rewrite foldl_app. cbn [foldl]. rewrite foldl_app.
  unfold Recorder.apply at 5. unfold Recorder.start. simpl.
  rewrite bool_decide_eq_false_2 by assumption. rewrite Hactive. simpl.
  unfold Recorder.mutate_recorder, Recorder.dispatch. simpl.
  pose proof (chunks_pile_up ds Recorder.recording em sm
                (Recorder.mkRecorder (Recorder.created_with r) true (Recorder.stop_pending r))
                [] bl ou mt ur us rl orp) as Hpile.
  unfold Recorder.run in Hpile. rewrite Hpile. simpl.
  unfold Recorder.stop, Recorder.mutate_recorder. simpl.
  pose proof (chunks_pile_up ds' Recorder.recording em sm
                (Recorder.mkRecorder (Recorder.created_with r) false true)
                (Recorder.kept ds) bl ou mt ur us rl orp) as Hpile'.
  unfold Recorder.run in Hpile'. rewrite Hpile'. simpl.
  unfold Recorder.onstop. simpl. rewrite Hkept.
  destruct ur as [u |]; simpl; repeat split; apply lookup_insert_eq.
Qed.

Lemma take_collects_chunks_witness :
  let p := Recorder.run [Recorder.Init (Some Recorder.granting)] Recorder.mount in
  let p' := Recorder.run
              [Recorder.Start; Recorder.DataAvailable (Some (mkBlob [Byte.x2a] "video/webm"));
               Recorder.DataAvailable None; Recorder.Stop;
               Recorder.DataAvailable (Some (mkBlob [] "video/webm"));
               Recorder.DataAvailable (Some (mkBlob [Byte.x2b] "video/webm"));
               Recorder.Stopped] p in
  Recorder.blob (Recorder.state p')
  = Some (Recorder.new_Blob [mkBlob [Byte.x2a] "video/webm"; mkBlob [Byte.x2b] "video/webm"]
            "video/webm").
Proof.
  refine (proj1 (proj2 (take_collects_chunks
            (Recorder.run [Recorder.Init (Some Recorder.granting)] Recorder.mount)
            (Recorder.mkRecorder (Some "video/webm") false false)
            [Some (mkBlob [Byte.x2a] "video/webm"); None]
            [Some (mkBlob [] "video/webm"); Some (mkBlob [Byte.x2b] "video/webm")]
            eq_refl eq_refl _))).
  vm_compute. discriminate.
Defined.

Lemma url_invariant_mount : Recorder.url_invariant Recorder.mount.
Proof.
  split; simpl; [| discriminate].
  intros u [b Hb]. now rewrite lookup_empty in Hb.
Qed.

(** Revoking what [urlRef] holds leaves no URL live. *)
Lemma revoke_urlRef_none (ur : option nat) (us : Store) :
  (∀ u, is_Some (live us !! u) → ur = Some u) →
  ∀ u, live (revoke_current ur us) !! u = None.
Proof.
  intros Hlive u. destruct (live (revoke_current ur us) !! u) as [b |] eqn:Hu; [| reflexivity].
  destruct ur as [u0 |]; simpl in Hu.
  - destruct (decide (u = u0)) as [-> | Hne]; [now rewrite lookup_delete_eq in Hu |].
    rewrite lookup_delete_ne in Hu by congruence.
    specialize (Hlive u (ex_intro _ b Hu)). congruence.
  - specialize (Hlive u (ex_intro _ b Hu)). discriminate.
Qed.

Lemma url_invariant_apply o p :
  Recorder.url_invariant p → Recorder.url_invariant (Recorder.apply o p).
Proof.
  unfold Recorder.url_invariant.
  destruct p as [[st em sm rc ch bl ou mt] ur cr us rl orp]. simpl.
  intros (Hlive & Hurl).
  pose proof (revoke_urlRef_none ur us Hlive) as Hnone.
  destruct o as [window | | | | | d | | m | i d | i | i m]; unfold Recorder.apply.
  - unfold Recorder.init. destruct window as [b |]; [| session_auto]. cbv beta iota.
    destruct (Recorder.requestUserMedia (Some b)) as [s | e]; [| session_auto].
    destruct (Recorder.isTypeSupported b); session_auto.
  - unfold Recorder.start. simpl. destruct rc as [r |]; [| session_auto]. simpl.
    destruct (bool_decide (st = Recorder.recording)); [session_auto |].
    destruct (Recorder.active r); session_auto.
  - unfold Recorder.stop. simpl. destruct rc as [r |]; [| session_auto]. simpl.
    destruct (bool_decide (st = Recorder.recording)); [| session_auto].
    destruct (Recorder.active r); session_auto.
  - unfold Recorder.reset. simpl. split; [| discriminate].
    intros u [b Hb]. now rewrite Hnone in Hb.
  - unfold Recorder.cleanup. simpl. split; [| discriminate].
    intros u [b Hb]. now rewrite Hnone in Hb.
  - destruct rc as [r |]; [| session_auto]. simpl.
    unfold Recorder.ondataavailable. destruct d as [d |]; [| session_auto].
    destruct (bool_decide _); session_auto.
  - destruct rc as [r |]; [| session_auto]. simpl.
    destruct (Recorder.stop_pending r); [| session_auto].
    unfold Recorder.onstop. simpl. split.
    + intros u [b Hb].
      destruct (decide (u = minted (revoke_current ur us))) as [-> | Hne].
      * destruct ur; reflexivity.
      * rewrite lookup_insert_ne in Hb by congruence. now rewrite Hnone in Hb.
    + intros u Hu. inversion Hu; subst. split; [| split]; [| eauto |].
      * destruct ur; reflexivity.
      * destruct ur; simpl; apply lookup_insert_eq.
  - destruct rc as [r |]; [| session_auto]. simpl.
    unfold Recorder.onerror. session_auto.
  - simpl. destruct (orp !! i) as [r |]; [| session_auto].
    unfold Recorder.ondataavailable. destruct d as [d |]; [| session_auto].
    destruct (bool_decide _); session_auto.
  - simpl. destruct (orp !! i) as [r |]; [| session_auto].
    destruct (Recorder.stop_pending r); [| session_auto].
    unfold Recorder.onstop. simpl. split.
    + intros u [b Hb].
      destruct (decide (u = minted (revoke_current ur us))) as [-> | Hne].
      * destruct ur; reflexivity.
      * rewrite lookup_insert_ne in Hb by congruence. now rewrite Hnone in Hb.
    + intros u Hu. inversion Hu; subst. split; [| split]; [| eauto |].
      * destruct ur; reflexivity.
      * destruct ur; simpl; apply lookup_insert_eq.
  - simpl. destruct (orp !! i) as [r |]; [| session_auto].
    unfold Recorder.onerror. session_auto.
Qed.

Lemma url_invariant_run ops p :
  Recorder.url_invariant p → Recorder.url_invariant (Recorder.run ops p).
Proof.
  revert p. induction ops as [| o ops IH]; intros p Hp; simpl; [assumption |].
  apply IH, url_invariant_apply, Hp.
Qed.

(** The download link never dangles: in every state the session reaches,
    when the dashboard offers the download ([canDownload]), the link's URL
    is live, it is the one [urlRef] holds, and it serves the blob in the
    state. *)
Theorem download_link_live (ops : list Recorder.Op) :
  let p := Recorder.run ops Recorder.mount in
  RecorderDashboard.canDownload (Recorder.state p) = true →
  ∃ u b, Recorder.objectUrl (Recorder.state p) = Some u
         ∧ Recorder.blob (Recorder.state p) = Some b
         ∧ Recorder.urlRef p = Some u
         ∧ live (Recorder.urls p) !! u = Some b.
Proof.
  intros p Hcan.
  destruct (url_invariant_run ops _ url_invariant_mount) as (_ & Hurl).
  fold p in Hurl. unfold RecorderDashboard.canDownload in Hcan.
  apply andb_prop in Hcan as [Hu Hb].
  apply bool_decide_eq_true_1 in Hu as [u Hu]. apply bool_decide_eq_true_1 in Hb as [b Hb].
  destruct (Hurl u Hu) as (Href & _ & Hlive).
  exists u, b. rewrite Hlive. auto.
Qed.

Lemma download_link_live_witness :
  ∃ u b, Recorder.objectUrl (Recorder.state (Recorder.run one_take Recorder.mount)) = Some u
         ∧ Recorder.blob (Recorder.state (Recorder.run one_take Recorder.mount)) = Some b
         ∧ Recorder.urlRef (Recorder.run one_take Recorder.mount) = Some u
         ∧ live (Recorder.urls (Recorder.run one_take Recorder.mount)) !! u = Some b.
Proof. exact (download_link_live one_take eq_refl). Defined.

(** Whatever happens, a live URL is the one [urlRef] holds. *)
Lemma live_is_held_apply o p :
  (∀ u, is_Some (live (Recorder.urls p) !! u) → Recorder.urlRef p = Some u) →
  ∀ u, is_Some (live (Recorder.urls (Recorder.apply o p)) !! u) →
       Recorder.urlRef (Recorder.apply o p) = Some u.
Proof.
  destruct p as [[st em sm rc ch bl ou mt] ur cr us rl orp]. simpl.
  intros Hlive.
  pose proof (revoke_urlRef_none ur us Hlive) as Hnone.
  assert (Hstop : ∀ picked p0,
    Recorder.urlRef p0 = ur → Recorder.urls p0 = us →
    ∀ u, is_Some (live (Recorder.urls (Recorder.onstop picked p0)) !! u) →
         Recorder.urlRef (Recorder.onstop picked p0) = Some u).
  { intros picked p0 Hur Hus u. unfold Recorder.onstop. simpl. rewrite Hur, Hus.
    intros [b Hb].
    destruct (decide (u = minted (revoke_current ur us))) as [-> | Hne]; [reflexivity |].
    rewrite lookup_insert_ne in Hb by congruence. now rewrite Hnone in Hb. }
  destruct o as [window | | | | | d | | m | i d | i | i m]; unfold Recorder.apply.
  - unfold Recorder.init. destruct window as [b |]; [| session_auto]. cbv beta iota.
    destruct (Recorder.requestUserMedia (Some b)) as [s | e]; [| session_auto].
    destruct (Recorder.isTypeSupported b); session_auto.
  - unfold Recorder.start. simpl. destruct rc as [r |]; [| session_auto]. simpl.
    destruct (bool_decide (st = Recorder.recording)); [session_auto |].
    destruct (Recorder.active r); session_auto.
  - unfold Recorder.stop. simpl. destruct rc as [r |]; [| session_auto]. simpl.
    destruct (bool_decide (st = Recorder.recording)); [| session_auto].
    destruct (Recorder.active r); session_auto.
  - unfold Recorder.reset. simpl. intros u [b Hb]. now rewrite Hnone in Hb.
  - unfold Recorder.cleanup. simpl. intros u [b Hb]. now rewrite Hnone in Hb.
  - simpl. destruct rc as [r |]; [| session_auto].
    unfold Recorder.ondataavailable. destruct d as [d |]; [| session_auto].
    destruct (bool_decide _); session_auto.
  - simpl. destruct rc as [r |]; [| session_auto].
    destruct (Recorder.stop_pending r); [| session_auto].
    now apply Hstop.
  - simpl. destruct rc as [r |]; [| session_auto].
    unfold Recorder.onerror. session_auto.
  - simpl. destruct (orp !! i) as [r |]; [| session_auto].
    unfold Recorder.ondataavailable. destruct d as [d |]; [| session_auto].
    destruct (bool_decide _); session_auto.
  - simpl. destruct (orp !! i) as [r |]; [| session_auto].
    destruct (Recorder.stop_pending r); [| session_auto].
    now apply Hstop.
  - simpl. destruct (orp !! i) as [r |]; [| session_auto].
    unfold Recorder.onerror. session_auto.
Qed.

Lemma live_is_held_run ops p :
  (∀ u, is_Some (live (Recorder.urls p) !! u) → Recorder.urlRef p = Some u) →
  ∀ u, is_Some (live (Recorder.urls (Recorder.run ops p)) !! u) →
       Recorder.urlRef (Recorder.run ops p) = Some u.
Proof.
  revert p. induction ops as [| o ops IH]; intros p Hp; simpl; [assumption |].
  apply IH, live_is_held_apply, Hp.
Qed.

(** At any time at most one object URL of the session is live, the one
    [urlRef] holds: in every state the session reaches, whatever the
    buttons do and whatever the recorders fire, those the state has let go
    of included; when the provider unmounts that URL is revoked and none is
    live; and while the recorders' events keep coming after the unmount the
    same holds again, of the URL a late "stop" event mints. *)
Theorem session_urls_revoked (ops evs : list Recorder.Op) :
  let p := Recorder.run ops Recorder.mount in
  (∀ u, is_Some (live (Recorder.urls p) !! u) → Recorder.urlRef p = Some u)
  ∧ (∀ u v, is_Some (live (Recorder.urls p) !! u) →
            is_Some (live (Recorder.urls p) !! v) → u = v)
  ∧ (∀ u, live (Recorder.urls (Recorder.unmount p)) !! u = None)
  ∧ (Forall (fun o => Recorder.is_event o = true) evs →
     let q := Recorder.run evs (Recorder.unmount p) in
     (∀ u, is_Some (live (Recorder.urls q) !! u) → Recorder.urlRef q = Some u)
     ∧ (∀ u v, is_Some (live (Recorder.urls q) !! u) →
               is_Some (live (Recorder.urls q) !! v) → u = v)).
Proof.
  intros p.
  destruct (url_invariant_run ops _ url_invariant_mount) as (Hlive & _).
  fold p in Hlive.
  assert (Hnone : ∀ u, live (Recorder.urls (Recorder.unmount p)) !! u = None).
  { intros u. unfold Recorder.unmount, Recorder.revoke_urlRef. simpl.
    now apply revoke_urlRef_none. }
  split; [exact Hlive |]. split; [| split; [exact Hnone |]].
  - intros u v Hu Hv. apply Hlive in Hu, Hv. congruence.
  - intros _ q.
    assert (Hq : ∀ u, is_Some (live (Recorder.urls q) !! u) → Recorder.urlRef q = Some u).
    { apply live_is_held_run. intros u [b Hb]. now rewrite Hnone in Hb. }
    split; [exact Hq |].
    intros u v Hu Hv. apply Hq in Hu, Hv. congruence.
Qed.

Lemma session_urls_revoked_witness :
  Recorder.urlRef
    (Recorder.run [Recorder.Stopped]
       (Recorder.unmount
          (Recorder.run [Recorder.Init (Some Recorder.granting); Recorder.Start;
                         Recorder.Stop] Recorder.mount)))
  = Some 0.
Proof.
  refine (proj1 (proj2 (proj2 (proj2
            (session_urls_revoked
               [Recorder.Init (Some Recorder.granting); Recorder.Start; Recorder.Stop]
               [Recorder.Stopped]))) _) 0 _).
  - repeat constructor.
  - vm_compute. eauto.
Defined.

(** A "stop" event that comes after the unmount: the recorder was stopped,
    the provider unmounted before the event, and the handler then mints a
    URL that [urlRef] holds and nothing revokes. *)
Example stop_after_unmount :
  let q := Recorder.run [Recorder.Stopped]
             (Recorder.unmount
                (Recorder.run [Recorder.Init (Some Recorder.granting); Recorder.Start;
                               Recorder.DataAvailable (Some (mkBlob [Byte.x2a] "video/webm"));
                               Recorder.Stop] Recorder.mount)) in
  Recorder.urlRef q = Some 0
  ∧ live (Recorder.urls q) !! 0 = Some (mkBlob [Byte.x2a] "video/webm").
Proof. vm_compute. split; reflexivity. Qed.

(** A second [init()] during a recording: the state gets a new stream and a
    new recorder; the first recorder goes on recording and the first
    stream's tracks stay live, out of the page's reach, and the chunks the
    first recorder still delivers land in the chunk lists. *)
Example second_init_while_recording :
  let p := Recorder.run [Recorder.Init (Some Recorder.granting); Recorder.Start;
                         Recorder.Init (Some Recorder.granting);
                         Recorder.OrphanDataAvailable 0
                           (Some (mkBlob [Byte.x2a] "video/webm"))]
             Recorder.mount in
  Recorder.status (Recorder.state p) = Recorder.ready
  ∧ Recorder.recorder (Recorder.state p)
    = Some (Recorder.mkRecorder (Some "video/webm") false false)
  ∧ Recorder.orphans p = [Recorder.mkRecorder (Some "video/webm") true false]
  ∧ Recorder.released p = [Recorder.mkStream true]
  ∧ Recorder.chunksRef p = [mkBlob [Byte.x2a] "video/webm"].
Proof. vm_compute. repeat split. Qed.

Lemma recording_has_recorder_apply o p :
  (Recorder.status (Recorder.state p) = Recorder.recording →
   Recorder.recorder (Recorder.state p) ≠ None) →
  Recorder.status (Recorder.state (Recorder.apply o p)) = Recorder.recording →
  Recorder.recorder (Recorder.state (Recorder.apply o p)) ≠ None.
Proof.
  destruct p as [[st em sm rc ch bl ou mt] ur cr us rl orp]. simpl. intros Hrec.
  destruct o as [window | | | | | d | | m | i d | i | i m]; unfold Recorder.apply.
  - unfold Recorder.init. destruct window as [b |]; [| session_auto]. cbv beta iota.
    destruct (Recorder.requestUserMedia (Some b)) as [s | e]; [| session_auto].
    destruct (Recorder.isTypeSupported b); session_auto.
  - unfold Recorder.start. simpl. destruct rc as [r |]; [| session_auto]. simpl.
    destruct (bool_decide (st = Recorder.recording)); [session_auto |].
    destruct (Recorder.active r); session_auto.
  - unfold Recorder.stop. simpl. destruct rc as [r |]; [| session_auto]. simpl.
    destruct (bool_decide (st = Recorder.recording)); [| session_auto].
    destruct (Recorder.active r); session_auto.
  - unfold Recorder.reset. simpl. destruct sm; session_auto.
  - unfold Recorder.cleanup. session_auto.
  - destruct rc as [r |]; [| session_auto]. simpl.
    unfold Recorder.ondataavailable. destruct d as [d |]; [| session_auto].
    destruct (bool_decide _); session_auto.
  - destruct rc as [r |]; [| session_auto]. simpl.
    destruct (Recorder.stop_pending r); [| session_auto].
    unfold Recorder.onstop. session_auto.
  - destruct rc as [r |]; [| session_auto]. simpl.
    unfold Recorder.onerror. session_auto.
  - simpl. destruct (orp !! i) as [r |]; [| session_auto].
    unfold Recorder.ondataavailable. destruct d as [d |]; [| session_auto].
    destruct (bool_decide _); session_auto.
  - simpl. destruct (orp !! i) as [r |]; [| session_auto].
    destruct (Recorder.stop_pending r); [| session_auto].
    unfold Recorder.onstop. session_auto.
  - simpl. destruct (orp !! i) as [r |]; [| session_auto].
    unfold Recorder.onerror. session_auto.
Qed.

Lemma recording_has_recorder_run ops p :
  (Recorder.status (Recorder.state p) = Recorder.recording →
   Recorder.recorder (Recorder.state p) ≠ None) →
  Recorder.status (Recorder.state (Recorder.run ops p)) = Recorder.recording →
  Recorder.recorder (Recorder.state (Recorder.run ops p)) ≠ None.
Proof.
  revert p. induction ops as [| o ops IH]; intros p Hp; simpl; [assumption |].
  apply IH. now apply recording_has_recorder_apply.
Qed.

(** In each status the dashboard enables exactly one of Initialize, Start
    and Stop, and Reset exactly when the status is neither "idle" nor
    "recording".  In every state the session reaches, an enabled Stop comes
    with a recorder, so [stop()] passes its guard and reaches
    [recorder.stop()]. *)
Theorem dashboard_buttons (ops : list Recorder.Op) :
  (∀ st, Nat.b2n (RecorderDashboard.canInit st) + Nat.b2n (Recorder.canStart st)
         + Nat.b2n (RecorderDashboard.canStop st) = 1
         ∧ (RecorderDashboard.canReset st = true
            ↔ st ≠ Recorder.idle ∧ st ≠ Recorder.recording))
  ∧ (let p := Recorder.run ops Recorder.mount in
     RecorderDashboard.canStop (Recorder.status (Recorder.state p)) = true →
     ∃ r, Recorder.recorder (Recorder.state p) = Some r
          ∧ Recorder.stop p
            = if Recorder.active r
              then Recorder.mutate_recorder
                     (fun r => Recorder.mkRecorder (Recorder.created_with r) false true) p
              else p).
Proof.
  split.
  - intros st. destruct st; (split; [reflexivity |]); vm_compute; split;
      first [ discriminate | intros [? ?]; congruence | intros _; split; discriminate ].
  - intros p Hcan. unfold RecorderDashboard.canStop in Hcan.
    apply bool_decide_eq_true_1 in Hcan.
    pose proof (recording_has_recorder_run ops Recorder.mount) as Hrec.
    fold p in Hrec. specialize (Hrec ltac:(discriminate) Hcan).
    destruct (Recorder.recorder (Recorder.state p)) as [r |] eqn:Hr; [| congruence].
    exists r. split; [reflexivity |].
    unfold Recorder.stop. rewrite Hr, Hcan. reflexivity.
Qed.

Lemma dashboard_buttons_witness :
  let p := Recorder.run [Recorder.Init (Some Recorder.granting); Recorder.Start]
             Recorder.mount in
  ∃ r, Recorder.recorder (Recorder.state p) = Some r
       ∧ Recorder.stop p
         = if Recorder.active r
           then Recorder.mutate_recorder
                  (fun r => Recorder.mkRecorder (Recorder.created_with r) false true) p
           else p.
Proof.
  exact (proj2 (dashboard_buttons [Recorder.Init (Some Recorder.granting); Recorder.Start])
           eq_refl).
Defined.

(** The two places that derive a file extension from the recording's type
    agree on every recording the session can make: whatever the browser
    supports, the extension the dashboard proposes for the download (from
    the picked MIME type) is the extension the worker hook gives the input
    file (from the type of the blob the recorder's "stop" handler builds). *)
Theorem extensions_agree (window : option Recorder.Browser) :
  let picked := Recorder.pickSupportedMimeType window Recorder.mimeCandidates in
  RecorderDashboard.ext picked
  = UseFfmpegWorker.mimeToExt (or_string picked "video/webm")
  ∧ ∀ chunks,
      UseFfmpegWorker.inferInputName
        (Recorder.new_Blob chunks (or_string picked "video/webm"))
      = "input." +:+ RecorderDashboard.ext picked.
Proof.
  intros picked.
  assert (Hpick : picked = None ∨ ∃ t, picked = Some t ∧ t ∈ Recorder.mimeCandidates).
  { unfold picked, Recorder.pickSupportedMimeType.
    destruct window as [b |]; [| now left].
    destruct (Recorder.isTypeSupported b) as [supported |]; [| now left].
    pose proof (head_filter_first supported Recorder.mimeCandidates) as Hhead.
    destruct (head _) as [t |]; [| now left].
    right. exists t. split; [reflexivity |].
    destruct Hhead as (before & after & -> & _). apply elem_of_app. right. now left. }
  assert (Hext : RecorderDashboard.ext picked
                 = UseFfmpegWorker.mimeToExt (or_string picked "video/webm")).
  { destruct Hpick as [-> | (t & -> & Ht)]; [reflexivity |].
    unfold Recorder.mimeCandidates in Ht.
    repeat (apply elem_of_cons in Ht as [-> | Ht]; [vm_compute; reflexivity |]).
    now apply elem_of_nil in Ht. }
  split; [exact Hext |]. intros chunks.
  unfold UseFfmpegWorker.inferInputName, Recorder.new_Blob. simpl. now rewrite Hext.
Qed.

(* ===================================================================== *)
(** * Further properties: the asset cache and its manager *)
(* ===================================================================== *)

(** What [isCoreCached] answers, and that it leaves the bucket's entries
    alone. *)
Lemma isCoreCached_reads (g : FfmpegCache.Global) :
  ∃ b, (FfmpegCache.isCoreCached g).2 = Resolved b
       ∧ (b = true ↔ FfmpegCacheManager.both_stored g)
       ∧ FfmpegCache.bucket (FfmpegCache.isCoreCached g).1 = FfmpegCache.bucket g.
Proof.
  unfold FfmpegCache.isCoreCached, FfmpegCacheManager.both_stored.
  destruct (FfmpegCache.getCaches g) as [cs |] eqn:Hg.
  - destruct (open_bucket cs) as [Hopen Hsame].
    assert (Hb : FfmpegCache.bucket g = FfmpegCache.bucket (FfmpegCache.Window (Some cs)))
      by (unfold FfmpegCache.bucket; now rewrite Hg).
    destruct (FfmpegCache.open FFMPEG_CACHE_NAME cs) as [cs' c] eqn:Ho. simpl in *.
    rewrite Hb, <- Hopen. eexists. split; [reflexivity |]. split; [| congruence].
    rewrite andb_true_iff, !bool_decide_eq_true. reflexivity.
  - exists false. split; [reflexivity |]. split; [| reflexivity].
    unfold FfmpegCache.bucket. rewrite Hg. simpl. rewrite !lookup_empty.
    split; [discriminate | intros [[? ?] _]; discriminate].
Qed.

(** [getCoreBlobURLsFromCache] gives URLs exactly when [isCoreCached] says
    the assets are cached.  It then mints two fresh URLs, one after the
    other, which serve the bodies of the cached script and binary, and it
    leaves every URL that was live as it was; otherwise it mints nothing.
    It never changes the bucket's entries. *)
Theorem cached_urls_iff_cached (contentType : FfmpegCache.Response → string)
  (g : FfmpegCache.Global) (st : Store) :
  let '(g', st', r) := FfmpegCache.getCoreBlobURLsFromCache contentType g st in
  FfmpegCache.bucket g' = FfmpegCache.bucket g
  ∧ match r with
    | Resolved (Some (coreURL, wasmURL)) =>
        (FfmpegCache.isCoreCached g).2 = Resolved true
        ∧ coreURL = minted st ∧ wasmURL = S (minted st) ∧ minted st' = S (S (minted st))
        ∧ (∃ js, FfmpegCache.bucket g !! CORE_JS_URL = Some js
                 ∧ live st' !! coreURL = Some (mkBlob (FfmpegCache.body js) (contentType js)))
        ∧ (∃ wasm, FfmpegCache.bucket g !! CORE_WASM_URL = Some wasm
                   ∧ live st' !! wasmURL
                     = Some (mkBlob (FfmpegCache.body wasm) (contentType wasm)))
        ∧ ∀ u, u ≠ coreURL → u ≠ wasmURL → live st' !! u = live st !! u
    | Resolved None => (FfmpegCache.isCoreCached g).2 = Resolved false ∧ st' = st
    | Rejected _ => False
    end.
Proof.
  unfold FfmpegCache.getCoreBlobURLsFromCache, FfmpegCache.isCoreCached.
  destruct (FfmpegCache.getCaches g) as [cs |] eqn:Hg; [| auto].
  destruct (open_bucket cs) as [Hopen Hsame].
  assert (Hb : FfmpegCache.bucket g = FfmpegCache.bucket (FfmpegCache.Window (Some cs)))
    by (unfold FfmpegCache.bucket; now rewrite Hg).
  destruct (FfmpegCache.open FFMPEG_CACHE_NAME cs) as [cs' c] eqn:Ho. simpl in Hopen, Hsame.
  rewrite Hb, <- Hopen.
  destruct (c !! CORE_JS_URL) as [js |] eqn:Hjs, (c !! CORE_WASM_URL) as [wasm |] eqn:Hwasm;
    simpl; (split; [congruence |]); try (split; reflexivity).
  split; [reflexivity |]. split; [reflexivity |]. split; [reflexivity |].
  split; [reflexivity |]. split; [| split].
  - exists js. split; [reflexivity |].
    rewrite lookup_insert_ne by lia. apply lookup_insert_eq.
  - exists wasm. split; [reflexivity |]. apply lookup_insert_eq.
  - intros u Hu1 Hu2. now rewrite !lookup_insert_ne by congruence.
Qed.

(** [cacheCoreAssets] never removes an entry of the bucket, and when it
    succeeds both assets are stored. *)
Lemma cacheCoreAssets_grows net signal g :
  (∀ k, is_Some (FfmpegCache.bucket g !! k) →
        is_Some (FfmpegCache.bucket (FfmpegCache.cacheCoreAssets net signal g).1 !! k))
  ∧ ((FfmpegCache.cacheCoreAssets net signal g).2 = Resolved tt →
     FfmpegCacheManager.both_stored (FfmpegCache.cacheCoreAssets net signal g).1).
Proof.
  unfold FfmpegCache.cacheCoreAssets, FfmpegCacheManager.both_stored.
  destruct (FfmpegCache.getCaches g) as [cs |] eqn:Hg; [| split; [auto | discriminate]].
  destruct (open_bucket cs) as [Hopen Hsame].
  assert (Hb : FfmpegCache.bucket g = FfmpegCache.bucket (FfmpegCache.Window (Some cs)))
    by (unfold FfmpegCache.bucket; now rewrite Hg).
  destruct (FfmpegCache.open FFMPEG_CACHE_NAME cs) as [cs' c] eqn:Ho. simpl in Hopen, Hsame.
  rewrite Hb, <- Hopen.
  assert (Hkeep : ∀ k, is_Some (c !! k) →
            is_Some (FfmpegCache.bucket (FfmpegCache.Window (Some cs')) !! k))
    by (intros k; now rewrite Hsame, <- Hopen).
  destruct (FfmpegCache.fetch net signal CORE_JS_URL) as [js | e1];
    destruct (FfmpegCache.fetch net signal CORE_WASM_URL) as [wasm | e2];
    try (split; [exact Hkeep | discriminate]).
  destruct (negb (FfmpegCache.ok js)); [split; [exact Hkeep | discriminate] |].
  destruct (negb (FfmpegCache.ok wasm)); [split; [exact Hkeep | discriminate] |].
  unfold FfmpegCache.put.
  destruct (FfmpegCache.status js =? 206)%N, (FfmpegCache.status wasm =? 206)%N;
    simpl; rewrite bucket_stored; (split; [| try discriminate]).
  - auto.
  - intros k Hk. destruct (decide (k = CORE_WASM_URL)) as [-> | Hne];
      [rewrite lookup_insert_eq; eauto | now rewrite lookup_insert_ne by congruence].
  - intros k Hk. destruct (decide (k = CORE_JS_URL)) as [-> | Hne];
      [rewrite lookup_insert_eq; eauto | now rewrite lookup_insert_ne by congruence].
  - intros k Hk. destruct (decide (k = CORE_WASM_URL)) as [-> | Hne];
      [rewrite lookup_insert_eq; eauto |].
    rewrite lookup_insert_ne by congruence.
    destruct (decide (k = CORE_JS_URL)) as [-> | Hne'];
      [rewrite lookup_insert_eq; eauto | now rewrite lookup_insert_ne by congruence].
  - intros _. rewrite lookup_insert_eq.
    rewrite lookup_insert_ne
      by (apply (bool_decide_eq_false_1 (CORE_WASM_URL = CORE_JS_URL)); reflexivity).
    rewrite lookup_insert_eq. eauto.
Qed.

(** The "cached" light never lies: after any sequence of the manager's
    actions (the check on mount, preloads over any network, clears), the
    component is not busy, and if it shows "cached" then [isCoreCached()]
    is true. *)
Theorem manager_light_sound (ops : list FfmpegCacheManager.Op) (g0 : FfmpegCache.Global) :
  let s := FfmpegCacheManager.run ops (g0, FfmpegCacheManager.mount) in
  FfmpegCacheManager.busy s.2 = false
  ∧ (FfmpegCacheManager.cached s.2 = true →
     (FfmpegCache.isCoreCached s.1).2 = Resolved true).
Proof.
  assert (Hgen : ∀ s0,
    FfmpegCacheManager.busy s0.2 = false
    ∧ (FfmpegCacheManager.cached s0.2 = true → FfmpegCacheManager.both_stored s0.1) →
    let s := FfmpegCacheManager.run ops s0 in
    FfmpegCacheManager.busy s.2 = false
    ∧ (FfmpegCacheManager.cached s.2 = true → FfmpegCacheManager.both_stored s.1)).
  { induction ops as [| o ops IH]; intros s0 Hs0; [exact Hs0 |].
    simpl. apply IH. destruct s0 as [g m]. destruct Hs0 as [Hbusy Hcached]. simpl in *.
    destruct o as [| net |]; simpl.
    - destruct (isCoreCached_reads g) as (b & Hr & Hb & Hsame).
      destruct (FfmpegCache.isCoreCached g) as [g' r]. simpl in *. subst r. simpl.
      split; [assumption |]. intros ->.
      unfold FfmpegCacheManager.both_stored. rewrite Hsame. now apply Hb.
    - destruct (cacheCoreAssets_grows net None g) as [Hgrow Hdone].
      destruct (FfmpegCache.cacheCoreAssets net None g) as [g' [[] | e]]; simpl in *.
      + split; [reflexivity |]. intros _. now apply Hdone.
      + split; [reflexivity |]. intros Hc. destruct (Hcached Hc) as [Hjs Hwasm].
        split; now apply Hgrow.
    - unfold FfmpegCache.clearCoreCache.
      destruct (FfmpegCache.getCaches g); simpl; (split; [reflexivity | discriminate]). }
  intros s. destruct (Hgen (g0, FfmpegCacheManager.mount)) as [Hbusy Hcached].
  { split; [reflexivity | discriminate]. }
  split; [exact Hbusy |]. intros Hc. fold s in Hcached.
  destruct (isCoreCached_reads s.1) as (b & Hr & Hb & _).
  rewrite Hr. f_equal. apply Hb, Hcached, Hc.
Qed.

(** The light can lag behind: two preloads that each store one asset and
    fail on the other leave both assets cached and the light off. *)
Example manager_light_can_lag :
  let s := FfmpegCacheManager.run
             [FfmpegCacheManager.CheckOnMount;
              FfmpegCacheManager.Precache cdn_partial_wasm;
              FfmpegCacheManager.Precache cdn_partial_js]
             (empty_storage, FfmpegCacheManager.mount) in
  FfmpegCacheManager.cached s.2 = false
  ∧ (FfmpegCache.isCoreCached s.1).2 = Resolved true.
Proof. vm_compute. split; reflexivity. Qed.

(* ===================================================================== *)
(** * Further properties: the hook's callbacks and the panel's buttons *)
(* ===================================================================== *)

Lemma live_after_create (b : Blob) (st : Store) (u : nat) :
  is_Some (live (createObjectURL b st).2 !! u) ↔ u = minted st ∨ is_Some (live st !! u).
Proof.
  simpl. rewrite lookup_insert_is_Some'. split; (intros [? | ?]; [left; congruence | now right]).
Qed.

Lemma live_after_revoke (ref : option nat) (st : Store) (u : nat) :
  is_Some (live (revoke_current ref st) !! u) ↔ ref ≠ Some u ∧ is_Some (live st !! u).
Proof.
  destruct ref as [o |]; simpl.
  - rewrite lookup_delete_is_Some. split; (intros [? ?]; split; [congruence | assumption]).
  - split; [intros ?; split; [discriminate | assumption] | now intros [_ ?]].
Qed.

(** Minting the URL of a result and revoking the one its ref held, beside
    the other ref and the URLs in [C]. *)
Lemma mint_then_revoke_beside (st : Store) (b : Blob) (old other : option nat)
  (C : nat → Prop) :
  (∀ u, is_Some (live st !! u) ↔ old = Some u ∨ other = Some u ∨ C u) →
  (∀ u, is_Some (live st !! u) → u < minted st) →
  (∀ u, old = Some u → other ≠ Some u) →
  (∀ u, C u → old ≠ Some u ∧ other ≠ Some u) →
  let st' := revoke_current old (createObjectURL b st).2 in
  (∀ u, is_Some (live st' !! u) ↔ u = minted st ∨ other = Some u ∨ C u)
  ∧ (∀ u, is_Some (live st' !! u) → u < minted st')
  ∧ other ≠ Some (minted st)
  ∧ ¬ C (minted st).
Proof.
  intros Hlive Hold Hdiff Hcore st'.
  assert (Hfresh : ¬ is_Some (live st !! minted st)).
  { intros Hu. apply Hold in Hu. lia. }
  assert (Hother : other ≠ Some (minted st)).
  { intros Ho. apply Hfresh, Hlive. auto. }
  assert (HC : ¬ C (minted st)).
  { intros Hc. apply Hfresh, Hlive. auto. }
  assert (Hnot_old : old ≠ Some (minted st)).
  { intros Ho. apply Hfresh, Hlive. auto. }
  split; [| split; [| split]]; try assumption.
  - intros u. unfold st'. rewrite live_after_revoke, live_after_create, Hlive. split.
    + intros [Hne [-> | [Ho | [Ho | Hc]]]]; auto. congruence.
    + intros [-> | [Ho | Hc]].
      * split; [assumption | now left].
      * split; [| auto]. intros Hold'. now apply (Hdiff u).
      * split; [| auto]. now apply Hcore.
  - intros u. unfold st'. rewrite live_after_revoke, live_after_create.
    assert (Hm : minted (revoke_current old (createObjectURL b st).2) = S (minted st))
      by (destruct old; reflexivity).
    rewrite Hm. intros [_ [-> | Hu]]; [lia |]. apply Hold in Hu. lia.
Qed.

Lemma core_url_posted_same (h h' : UseFfmpegWorker.Hook) :
  UseFfmpegWorker.posted h' = UseFfmpegWorker.posted h →
  ∀ u, UseFfmpegWorkerCallbacks.core_url_posted u h'
       ↔ UseFfmpegWorkerCallbacks.core_url_posted u h.
Proof. intros Hp u. unfold UseFfmpegWorkerCallbacks.core_url_posted. now rewrite Hp. Qed.

Lemma core_url_posted_other (h h' : UseFfmpegWorker.Hook) (cmd : WorkerCommand) :
  UseFfmpegWorker.posted h' = (UseFfmpegWorker.posted h ++ [cmd])%list →
  (∀ payload, cmd ≠ CmdLoad (Some payload)) →
  ∀ u, UseFfmpegWorkerCallbacks.core_url_posted u h'
       ↔ UseFfmpegWorkerCallbacks.core_url_posted u h.
Proof.
  intros Hp Hcmd u. unfold UseFfmpegWorkerCallbacks.core_url_posted. rewrite Hp. split.
  - intros (payload & Hin & Hu). exists payload. split; [| assumption].
    apply elem_of_app in Hin as [Hin | Hin]; [assumption |].
    apply list_elem_of_singleton in Hin. now destruct (Hcmd payload).
  - intros (payload & Hin & Hu). exists payload. split; [| assumption].
    apply elem_of_app. now left.
Qed.

Lemma core_url_posted_load (h h' : UseFfmpegWorker.Hook) (c w : nat) :
  UseFfmpegWorker.posted h'
  = (UseFfmpegWorker.posted h
     ++ [CmdLoad (Some (mkLoadPayload
                          (Some (UseFfmpegWorkerCallbacks.objectURL_string c))
                          (Some (UseFfmpegWorkerCallbacks.objectURL_string w))))])%list →
  ∀ u, UseFfmpegWorkerCallbacks.core_url_posted u h'
       ↔ u = c ∨ u = w ∨ UseFfmpegWorkerCallbacks.core_url_posted u h.
Proof.
  intros Hp u. unfold UseFfmpegWorkerCallbacks.core_url_posted. rewrite Hp.
  assert (Hinj : ∀ a b, UseFfmpegWorkerCallbacks.objectURL_string a
                        = UseFfmpegWorkerCallbacks.objectURL_string b → a = b).
  { intros a b Hab. unfold UseFfmpegWorkerCallbacks.objectURL_string in Hab.
    apply (inj pretty), (inj (String.app "blob:")), Hab. }
  split.
  - intros (payload & Hin & Hu).
    apply elem_of_app in Hin as [Hin | Hin]; [right; right; eauto |].
    apply list_elem_of_singleton in Hin. inversion Hin; subst payload. simpl in Hu.
    destruct Hu as [Hu | Hu]; apply (inj Some), Hinj in Hu; auto.
  - intros [-> | [-> | (payload & Hin & Hu)]].
    + eexists. split; [apply elem_of_app; right; apply list_elem_of_singleton; reflexivity |].
      now left.
    + eexists. split; [apply elem_of_app; right; apply list_elem_of_singleton; reflexivity |].
      now right.
    + exists payload. split; [apply elem_of_app; now left | assumption].
Qed.

(** The account of the URLs depends on the refs, the store and what was
    posted only. *)
Lemma urls_accounted_same (h h' : UseFfmpegWorker.Hook) :
  UseFfmpegWorker.previewUrlRef h' = UseFfmpegWorker.previewUrlRef h →
  UseFfmpegWorker.snapshotUrlRef h' = UseFfmpegWorker.snapshotUrlRef h →
  UseFfmpegWorker.urls h' = UseFfmpegWorker.urls h →
  (∀ u, UseFfmpegWorkerCallbacks.core_url_posted u h'
        ↔ UseFfmpegWorkerCallbacks.core_url_posted u h) →
  UseFfmpegWorkerCallbacks.urls_accounted h →
  UseFfmpegWorkerCallbacks.urls_accounted h'.
Proof.
  intros Hp Hs Hu Hc (Hlive & Hold & Hdiff & Hcore).
  unfold UseFfmpegWorkerCallbacks.urls_accounted. rewrite Hp, Hs, Hu.
  split; [| split; [| split]]; try assumption.
  - intros u. rewrite Hlive, Hc. reflexivity.
  - intros u Hcu. apply Hcore, Hc, Hcu.
Qed.

Lemma urls_accounted_mount : UseFfmpegWorkerCallbacks.urls_accounted UseFfmpegWorker.mount.
Proof.
  split; [| split; [| split]]; simpl.
  - intros u. rewrite lookup_empty. split.
    + intros [b Hb]. discriminate.
    + intros [Hu | [Hu | (payload & Hin & _)]]; try discriminate.
      now apply elem_of_nil in Hin.
  - intros u [b Hb]. now rewrite lookup_empty in Hb.
  - discriminate.
  - intros u (payload & Hin & _). now apply elem_of_nil in Hin.
Qed.

Lemma urls_accounted_onmessage ev h :
  UseFfmpegWorkerCallbacks.urls_accounted h →
  UseFfmpegWorkerCallbacks.urls_accounted (UseFfmpegWorker.onmessage ev h).
Proof.
  intros Hacc.
  destruct ev as [| ratio t | m | payload | m | |];
    try (apply (urls_accounted_same h); [reflexivity .. | | assumption];
         now apply core_url_posted_same).
  destruct Hacc as (Hlive & Hold & Hdiff & Hcore).
  unfold UseFfmpegWorkerCallbacks.urls_accounted, UseFfmpegWorker.onmessage.
  destruct (kind payload).
  - destruct (mint_then_revoke_beside (UseFfmpegWorker.urls h)
                (mkBlob (data payload) (mime payload))
                (UseFfmpegWorker.previewUrlRef h) (UseFfmpegWorker.snapshotUrlRef h)
                (fun u => UseFfmpegWorkerCallbacks.core_url_posted u h)
                Hlive Hold Hdiff Hcore) as (Hlive' & Hold' & Hother & Hc).
    simpl in *. split; [| split; [| split]].
    + intros u. rewrite Hlive'. split.
      * intros [-> | [? | ?]]; auto.
      * intros [Hu | [? | ?]]; auto. left. congruence.
    + assumption.
    + intros u Hu. congruence.
    + intros u Hcu. split; [| now apply Hcore]. intros Hu.
      inversion Hu; subst. now apply Hc.
  - assert (Hlive_s : ∀ u, is_Some (live (UseFfmpegWorker.urls h) !! u)
                       ↔ UseFfmpegWorker.snapshotUrlRef h = Some u
                         ∨ UseFfmpegWorker.previewUrlRef h = Some u
                         ∨ UseFfmpegWorkerCallbacks.core_url_posted u h)
      by (intros u; rewrite Hlive; tauto).
    assert (Hdiff_s : ∀ u, UseFfmpegWorker.snapshotUrlRef h = Some u →
                           UseFfmpegWorker.previewUrlRef h ≠ Some u)
      by (intros u Hs Hp; now apply (Hdiff u)).
    assert (Hcore_s : ∀ u, UseFfmpegWorkerCallbacks.core_url_posted u h →
                           UseFfmpegWorker.snapshotUrlRef h ≠ Some u
                           ∧ UseFfmpegWorker.previewUrlRef h ≠ Some u)
      by (intros u Hcu; destruct (Hcore u Hcu); now split).
    destruct (mint_then_revoke_beside (UseFfmpegWorker.urls h)
                (mkBlob (data payload) (mime payload))
                (UseFfmpegWorker.snapshotUrlRef h) (UseFfmpegWorker.previewUrlRef h)
                (fun u => UseFfmpegWorkerCallbacks.core_url_posted u h)
                Hlive_s Hold Hdiff_s Hcore_s) as (Hlive' & Hold' & Hother & Hc).
    simpl in *. split; [| split; [| split]].
    + intros u. rewrite Hlive'. split.
      * intros [-> | [? | ?]]; auto.
      * intros [? | [Hu | ?]]; auto. left. congruence.
    + assumption.
    + intros u Hu Hs. congruence.
    + intros u Hcu. split; [now apply Hcore |]. intros Hu.
      inversion Hu; subst. now apply Hc.
Qed.

Lemma urls_accounted_submit window cmd h :
  (∀ payload, cmd ≠ CmdLoad (Some payload)) →
  UseFfmpegWorkerCallbacks.urls_accounted h →
  UseFfmpegWorkerCallbacks.urls_accounted (UseFfmpegWorker.submit window cmd h).
Proof.
  intros Hcmd Hacc. unfold UseFfmpegWorker.submit, UseFfmpegWorker.submit_from.
  destruct window; simpl; [| assumption].
  destruct (UseFfmpegWorker.status (UseFfmpegWorker.state h));
    first [ apply (urls_accounted_same h); [reflexivity .. | | assumption];
            now apply core_url_posted_same
          | apply (urls_accounted_same h); [reflexivity .. | | assumption];
            now apply (core_url_posted_other h _ cmd) ].
Qed.

Lemma urls_accounted_loadCore window preferCache contentType g h :
  UseFfmpegWorkerCallbacks.urls_accounted h →
  UseFfmpegWorkerCallbacks.urls_accounted
    (UseFfmpegWorkerCallbacks.loadCore window preferCache contentType g h).2.
Proof.
  intros Hacc. unfold UseFfmpegWorkerCallbacks.loadCore.
  destruct window; simpl; [| assumption].
  assert (Hnone : UseFfmpegWorkerCallbacks.urls_accounted
            (UseFfmpegWorkerCallbacks.postMessage (CmdLoad None)
               (UseFfmpegWorker.setState
                  (fun s => UseFfmpegWorker.mkState UseFfmpegWorker.WorkerStatus.loading 0
                              (UseFfmpegWorker.time s) (UseFfmpegWorker.lastLog s) None
                              (UseFfmpegWorker.previewUrl s) (UseFfmpegWorker.snapshotUrl s))
                  (UseFfmpegWorkerCallbacks.ensureWorker h)))).
  { apply (urls_accounted_same h); [reflexivity .. | | assumption].
    apply (core_url_posted_other h _ (CmdLoad None)); [reflexivity | discriminate]. }
  destruct (bool_decide (preferCache ≠ Some false)); [| exact Hnone].
  unfold FfmpegCache.getCoreBlobURLsFromCache.
  destruct (FfmpegCache.getCaches g) as [cs |]; [| exact Hnone].
  destruct (FfmpegCache.open FFMPEG_CACHE_NAME cs) as [cs' c].
  destruct (c !! CORE_JS_URL) as [js |]; [| exact Hnone].
  destruct (c !! CORE_WASM_URL) as [wasm |]; [| exact Hnone].
  simpl. destruct Hacc as (Hlive & Hold & Hdiff & Hcore).
  set (n := minted (UseFfmpegWorker.urls h)).
  assert (Hfresh : ∀ k : nat, (n ≤ k)%nat → ¬ is_Some (live (UseFfmpegWorker.urls h) !! k)).
  { intros k Hk Hu. apply Hold in Hu. unfold n in Hk. lia. }
  match goal with
  | |- UseFfmpegWorkerCallbacks.urls_accounted ?h1 =>
      pose proof (core_url_posted_load h h1 n (S n) eq_refl) as Hposted
  end.
  split; [| split; [| split]]; simpl.
  - intros u. rewrite Hposted, !lookup_insert_is_Some', Hlive. fold n. split.
    + intros [<- | [<- | [? | [? | ?]]]]; auto.
    + intros [? | [? | [-> | [-> | ?]]]]; auto.
  - intros u. rewrite !lookup_insert_is_Some'. fold n.
    intros [<- | [<- | Hu]]; [lia | lia |]. apply Hold in Hu. fold n in Hu. lia.
  - assumption.
  - intros u Hu. apply Hposted in Hu as [-> | [-> | Hu]]; [| | now apply Hcore].
    + split; intros Href; apply (Hfresh n); [lia | apply Hlive; auto | lia | apply Hlive; auto].
    + split; intros Href; apply (Hfresh (S n));
        [lia | apply Hlive; auto | lia | apply Hlive; auto].
Qed.

Lemma urls_accounted_apply o h :
  UseFfmpegWorkerCallbacks.urls_accounted h →
  UseFfmpegWorkerCallbacks.urls_accounted (UseFfmpegWorkerCallbacks.apply o h).
Proof.
  intros Hacc. destruct o as [ev | window pc ct g | window file opts | window file opts
                              | window | window]; simpl.
  - now apply urls_accounted_onmessage.
  - now apply urls_accounted_loadCore.
  - apply urls_accounted_submit; [discriminate | assumption].
  - apply urls_accounted_submit; [discriminate | assumption].
  - unfold UseFfmpegWorkerCallbacks.cancel. destruct window; simpl; [| assumption].
    apply (urls_accounted_same h); [reflexivity .. | | assumption].
    apply (core_url_posted_other h _ CmdCancel); [reflexivity | discriminate].
  - unfold UseFfmpegWorkerCallbacks.terminate. destruct window; simpl; [| assumption].
    apply (urls_accounted_same h); [reflexivity .. | | assumption].
    apply (core_url_posted_other h _ CmdTerminate); [reflexivity | discriminate].
Qed.

Lemma urls_accounted_run ops h :
  UseFfmpegWorkerCallbacks.urls_accounted h →
  UseFfmpegWorkerCallbacks.urls_accounted (UseFfmpegWorkerCallbacks.run ops h).
Proof.
  revert h. induction ops as [| o ops IH]; intros h Hh; simpl; [assumption |].
  apply IH, urls_accounted_apply, Hh.
Qed.

(** The hook revokes every result URL and no core URL: after any sequence
    of worker events and callbacks, the live URLs are the ones the two refs
    hold and the ones [loadCore] minted for the core assets and posted to a
    worker; once the hook has unmounted, the live URLs are exactly the
    latter. *)
Theorem hook_urls_accounted (ops : list UseFfmpegWorkerCallbacks.Op) :
  let h := UseFfmpegWorkerCallbacks.run ops UseFfmpegWorker.mount in
  (∀ u, is_Some (live (UseFfmpegWorker.urls h) !! u)
        ↔ UseFfmpegWorker.previewUrlRef h = Some u
          ∨ UseFfmpegWorker.snapshotUrlRef h = Some u
          ∨ UseFfmpegWorkerCallbacks.core_url_posted u h)
  ∧ (∀ u, is_Some (live (UseFfmpegWorker.urls (UseFfmpegWorkerCallbacks.unmount h)) !! u)
          ↔ UseFfmpegWorkerCallbacks.core_url_posted u h).
Proof.
  intros h.
  destruct (urls_accounted_run ops _ urls_accounted_mount) as (Hlive & Hold & Hdiff & Hcore).
  fold h in Hlive, Hold, Hdiff, Hcore. split; [exact Hlive |].
  intros u. unfold UseFfmpegWorkerCallbacks.unmount. simpl.
  rewrite !live_after_revoke, Hlive. split.
  - intros (Hs & Hp & [? | [? | ?]]); congruence.
  - intros Hc. destruct (Hcore u Hc). auto.
Qed.

(** A load from the cache fetches nothing: when the assets are cached and
    the cache is not declined, [loadCore] posts a load command carrying two
    object URLs, and a worker that gets it goes straight to the engine's
    [load] with exactly those two URLs.  A load command without URLs makes
    the worker fetch the script first. *)
Theorem cached_load_skips_fetch `{Platform}
  (contentType : FfmpegCache.Response → string) (g : FfmpegCache.Global)
  (h : UseFfmpegWorker.Hook) (preferCache : option bool) :
  (FfmpegCache.isCoreCached g).2 = Resolved true →
  preferCache ≠ Some false →
  let h' := (UseFfmpegWorkerCallbacks.loadCore true preferCache contentType g h).2 in
  let c := UseFfmpegWorkerCallbacks.objectURL_string (minted (UseFfmpegWorker.urls h)) in
  let w := UseFfmpegWorkerCallbacks.objectURL_string (S (minted (UseFfmpegWorker.urls h))) in
  UseFfmpegWorker.posted h'
  = (UseFfmpegWorker.posted h ++ [CmdLoad (Some (mkLoadPayload (Some c) (Some w)))])%list
  ∧ awaited <$> pool (deliver (CmdLoad (Some (mkLoadPayload (Some c) (Some w)))) boot)
    = [RqLoad c w]
  ∧ UseFfmpegWorker.status (UseFfmpegWorker.state h') = UseFfmpegWorker.WorkerStatus.loading
  ∧ awaited <$> pool (deliver (CmdLoad None) boot)
    = [RqToBlobURL CORE_JS_URL "text/javascript"].
Proof.
  intros Hcached Hprefer. unfold UseFfmpegWorkerCallbacks.loadCore. simpl.
  rewrite bool_decide_eq_true_2 by assumption.
  unfold FfmpegCache.getCoreBlobURLsFromCache.
  unfold FfmpegCache.isCoreCached in Hcached.
  destruct (FfmpegCache.getCaches g) as [cs |]; [| discriminate].
  destruct (FfmpegCache.open FFMPEG_CACHE_NAME cs) as [cs' c]. simpl in Hcached.
  destruct (c !! CORE_JS_URL) as [js |]; [| discriminate].
  destruct (c !! CORE_WASM_URL) as [wasm |]; [| discriminate].
  simpl. repeat split.
Qed.

Lemma cached_load_skips_fetch_witness :
  let g := (FfmpegCache.cacheCoreAssets cdn_200 None empty_storage).1 in
  UseFfmpegWorker.posted
    (UseFfmpegWorkerCallbacks.loadCore true None (fun _ => "") g UseFfmpegWorker.mount).2
  = ([] ++ [CmdLoad (Some (mkLoadPayload (Some "blob:0") (Some "blob:1")))])%list.
Proof.
  refine (proj1 (@cached_load_skips_fetch quiet_platform (fun _ => "")
                   (FfmpegCache.cacheCoreAssets cdn_200 None empty_storage).1
                   UseFfmpegWorker.mount None eq_refl _)).
  discriminate.
Defined.

(** The panel's buttons and the hook's guard fit together: with a
    recording at hand, in each status either the job buttons are enabled or
    the panel counts as busy, never both; and a job button that is enabled
    always posts its command: the hook's own guard (status "working") does
    not fire, the status becomes "working", the progress 0 and the error is
    cleared. *)
Theorem panel_enabled_posts (h : UseFfmpegWorker.Hook) (file : Blob) :
  (∀ st, PanelControls.canWork true st = negb (PanelControls.isBusy st))
  ∧ (∀ hasBlob,
       PanelControls.canWork hasBlob (UseFfmpegWorker.status (UseFfmpegWorker.state h)) = true →
       (∀ opts,
          let h' := UseFfmpegWorker.makePreview true file opts h in
          UseFfmpegWorker.posted h'
          = (UseFfmpegWorker.posted h ++ [UseFfmpegWorker.preview_command file opts])%list
          ∧ UseFfmpegWorker.status (UseFfmpegWorker.state h')
            = UseFfmpegWorker.WorkerStatus.working
          ∧ UseFfmpegWorker.progress (UseFfmpegWorker.state h') = 0%float
          ∧ UseFfmpegWorker.error (UseFfmpegWorker.state h') = None)
       ∧ (∀ opts,
            let h' := UseFfmpegWorker.makeSnapshot true file opts h in
            UseFfmpegWorker.posted h'
            = (UseFfmpegWorker.posted h ++ [UseFfmpegWorker.snapshot_command file opts])%list
            ∧ UseFfmpegWorker.status (UseFfmpegWorker.state h')
              = UseFfmpegWorker.WorkerStatus.working
            ∧ UseFfmpegWorker.progress (UseFfmpegWorker.state h') = 0%float
            ∧ UseFfmpegWorker.error (UseFfmpegWorker.state h') = None)).
Proof.
  split; [intros st; now destruct st |].
  intros hasBlob Hcan.
  unfold UseFfmpegWorker.makePreview, UseFfmpegWorker.makeSnapshot, UseFfmpegWorker.submit,
    UseFfmpegWorker.submit_from.
  simpl. unfold PanelControls.canWork in Hcan.
  destruct hasBlob; [| discriminate].
  destruct (UseFfmpegWorker.status (UseFfmpegWorker.state h)); try discriminate;
    split; intros opts; simpl; auto.
Qed.

Lemma panel_enabled_posts_witness :
  UseFfmpegWorker.posted
    (UseFfmpegWorker.makePreview true (mkBlob [Byte.x2a] "video/webm") None
       UseFfmpegWorker.mount)
  = ([] ++ [UseFfmpegWorker.preview_command (mkBlob [Byte.x2a] "video/webm") None])%list.
Proof.
  exact (proj1 (proj1 (proj2 (panel_enabled_posts UseFfmpegWorker.mount
                                (mkBlob [Byte.x2a] "video/webm")) true eq_refl) None)).
Defined.

(* ===================================================================== *)
(** * Further properties: loading, and the way from the page and back *)
(* ===================================================================== *)

(** Loading on a fresh worker.  Without URLs in the command, the script
    and the binary are fetched as blob URLs, one after the other, and given
    to the engine's [load]; with two non-empty URLs in the command, these go
    to [load] as they are.  When [load] resolves, the worker posts "loaded"
    and nothing else, [loading] is down again, and no handler waits. *)
Theorem load_succeeds `{Platform} :
  (∀ u1 u2,
     toBlobURL CORE_JS_URL "text/javascript" = Resolved u1 →
     toBlobURL CORE_WASM_URL "application/wasm" = Resolved u2 →
     ffmpeg_load u1 u2 = Resolved tt →
     run [Deliver (CmdLoad None); Settle 0; Settle 0; Settle 0] boot
     = mkSystem (mkWorker (Some (mkFFmpeg (Some ∅) true)) false false) [] [EvLoaded])
  ∧ (∀ c w,
       c ≠ "" → w ≠ "" →
       ffmpeg_load c w = Resolved tt →
       run [Deliver (CmdLoad (Some (mkLoadPayload (Some c) (Some w)))); Settle 0] boot
       = mkSystem (mkWorker (Some (mkFFmpeg (Some ∅) true)) false false) [] [EvLoaded]).
Proof.
  split.
  - intros u1 u2 H1 H2 Hload.
    unfold run, boot, initial. simpl. unfold settle, deliver. simpl.
    rewrite H1. simpl. rewrite H2. simpl. rewrite Hload. reflexivity.
  - intros c w Hc Hw Hload.
    unfold run, boot, initial. simpl. unfold deliver, onmessage, ensureLoaded, or_blob_url.
    async_unfold. simpl.
    destruct (decide (c = "")) as [? | _]; [contradiction |].
    destruct (decide (w = "")) as [? | _]; [contradiction |].
    simpl. unfold settle. simpl. rewrite Hload. reflexivity.
Qed.

Lemma load_succeeds_witness :
  @run quiet_platform [Deliver (CmdLoad None); Settle 0; Settle 0; Settle 0] boot
  = mkSystem (mkWorker (Some (mkFFmpeg (Some ∅) true)) false false) [] [EvLoaded].
Proof. exact (proj1 (@load_succeeds quiet_platform) _ _ eq_refl eq_refl eq_refl). Defined.

(** Jobs load the core on their own: a preview sent to a fresh worker
    first loads the core from the CDN and posts "loaded", then runs as on a
    loaded worker: it posts what the engine reported and one result with
    the bytes of the output file, and ends with the flags down, no handler
    waiting, and its files removed. *)
Theorem preview_loads_lazily `{Platform} (p : PreviewParams.t) (u1 u2 : string)
  (fs' : FS) (notes : list EngineNote) (d : bytes) :
  let inputName := or_string (PreviewParams.inputName p) "input.webm" in
  let mp4 := bool_decide (PreviewParams.toMp4 p ≠ Some false) in
  let outName := if mp4 then "preview.mp4" else "preview.webm" in
  toBlobURL CORE_JS_URL "text/javascript" = Resolved u1 →
  toBlobURL CORE_WASM_URL "application/wasm" = Resolved u2 →
  ffmpeg_load u1 u2 = Resolved tt →
  ffmpeg_exec (preview_args p inputName outName) (<[inputName := PreviewParams.data p]> ∅)
  = (fs', notes, Resolved tt) →
  fs' !! outName = Some d →
  run (Deliver (CmdPreview p) :: replicate 9 (Settle 0)) boot
  = mkSystem
      (mkWorker
         (Some (mkFFmpeg
                  (Some (delete inputName (delete "preview.webm" (delete "preview.mp4" fs'))))
                  true))
         false false)
      []
      ([EvLoaded] ++ (note_event <$> notes)
       ++ [EvResult (mkResult preview outName
                       (if mp4 then "video/mp4" else "video/webm") d)])%list.
Proof.
  intros inputName mp4 outName H1 H2 Hload Hexec Hout.
  unfold run, boot, initial. simpl foldl. unfold deliver at 1.
  unfold onmessage, ensureLoaded, doPreview. async_unfold. simpl.
  fold mp4. fold outName. fold inputName.
  rewrite settle_first. cbn [awaited]. unfold promise_end at 1. rewrite H1.
  cbn [resume]. simpl.
  rewrite settle_first. cbn [awaited]. unfold promise_end at 1. rewrite H2.
  cbn [resume]. simpl.
  rewrite settle_first. cbn [awaited]. unfold promise_end at 1. simpl. rewrite Hload.
  cbn [resume]. simpl. unfold set_busy, set_loading, with_fs. simpl.
  serve_with writeFile_served.
  serve_with (exec_served _ _ _ _ _ true false true Hexec).
  serve_with readFile_served. rewrite Hout. simpl.
  assert (Hmime : (if endsWith outName ".mp4" then "video/mp4" else "video/webm")
                  = if mp4 then "video/mp4" else "video/webm")
    by (unfold outName; now destruct mp4).
  rewrite Hmime.
  do 3 serve_delete; now rewrite !app_nil_r.
Qed.

Lemma preview_loads_lazily_witness :
  @run copy_platform (Deliver (CmdPreview clip) :: replicate 9 (Settle 0)) boot
  = mkSystem
      (mkWorker
         (Some (mkFFmpeg
                  (Some (delete "input.webm"
                           (delete "preview.webm"
                              (delete "preview.mp4"
                                 (<["preview.mp4" := [Byte.x01; Byte.x02]]>
                                    (<["input.webm" := [Byte.x01; Byte.x02]]> ∅))))))
                  true))
         false false)
      []
      ([EvLoaded] ++ [EvProgress (Some 1.7%float) None]
       ++ [EvResult (mkResult preview "preview.mp4" "video/mp4" [Byte.x01; Byte.x02])])%list.
Proof.
  exact (@preview_loads_lazily copy_platform clip _ _ _ _ _
           eq_refl eq_refl eq_refl eq_refl eq_refl).
Defined.

(** The engine's reports change the progress, the time and the last log
    line of the hook's state, and nothing else. *)
Lemma receive_reports (notes : list EngineNote) (h : UseFfmpegWorker.Hook) :
  let h' := UseFfmpegWorker.receive (note_event <$> notes) h in
  UseFfmpegWorker.previewUrlRef h' = UseFfmpegWorker.previewUrlRef h
  ∧ UseFfmpegWorker.snapshotUrlRef h' = UseFfmpegWorker.snapshotUrlRef h
  ∧ UseFfmpegWorker.urls h' = UseFfmpegWorker.urls h
  ∧ UseFfmpegWorker.posted h' = UseFfmpegWorker.posted h
  ∧ UseFfmpegWorker.status (UseFfmpegWorker.state h')
    = UseFfmpegWorker.status (UseFfmpegWorker.state h)
  ∧ UseFfmpegWorker.error (UseFfmpegWorker.state h')
    = UseFfmpegWorker.error (UseFfmpegWorker.state h)
  ∧ UseFfmpegWorker.previewUrl (UseFfmpegWorker.state h')
    = UseFfmpegWorker.previewUrl (UseFfmpegWorker.state h)
  ∧ UseFfmpegWorker.snapshotUrl (UseFfmpegWorker.state h')
    = UseFfmpegWorker.snapshotUrl (UseFfmpegWorker.state h).
Proof.
  unfold UseFfmpegWorker.receive. revert h.
  induction notes as [| n notes IH]; intros h; [repeat split |].
  cbn [fmap list_fmap foldl].
  destruct (IH (UseFfmpegWorker.onmessage (note_event n) h))
    as (H1 & H2 & H3 & H4 & H5 & H6 & H7 & H8).
  unfold UseFfmpegWorker.receive in *.
  rewrite H1, H2, H3, H4, H5, H6, H7, H8. now destruct n.
Qed.

(** From the page to the engine and back.  [makePreview] on a hook that is
    not working posts a preview command with the file's bytes; a loaded,
    idle worker with wired listeners that gets it writes these bytes to the
    input file and runs the command; when the command succeeds and leaves
    the output file, the events the worker posts, handled by the hook in
    their order, leave the status "ready", the progress 1, and as preview
    URL a freshly minted object URL that serves the bytes of the output
    file under the MIME type of the container. *)
Theorem preview_round_trip `{Platform} (h : UseFfmpegWorker.Hook) (file : Blob)
  (opts : option PreviewParams.t) (p : PreviewParams.t) (fs fs' : FS)
  (notes : list EngineNote) (d : bytes) :
  let inputName := or_string (PreviewParams.inputName p) "input.webm" in
  let mp4 := bool_decide (PreviewParams.toMp4 p ≠ Some false) in
  let outName := if mp4 then "preview.mp4" else "preview.webm" in
  UseFfmpegWorker.preview_command file opts = CmdPreview p →
  UseFfmpegWorker.status (UseFfmpegWorker.state h) ≠ UseFfmpegWorker.WorkerStatus.working →
  (∀ u, UseFfmpegWorker.previewUrlRef h = Some u → u ≠ minted (UseFfmpegWorker.urls h)) →
  ffmpeg_exec (preview_args p inputName outName) (<[inputName := parts file]> fs)
  = (fs', notes, Resolved tt) →
  fs' !! outName = Some d →
  let h1 := UseFfmpegWorker.makePreview true file opts h in
  let s := run (Deliver (CmdPreview p) :: replicate 6 (Settle 0))
             (mkSystem (mkWorker (Some (mkFFmpeg (Some fs) true)) false false) [] []) in
  let h2 := UseFfmpegWorker.receive (outbox s) h1 in
  UseFfmpegWorker.posted h1 = (UseFfmpegWorker.posted h ++ [CmdPreview p])%list
  ∧ UseFfmpegWorker.status (UseFfmpegWorker.state h2) = UseFfmpegWorker.WorkerStatus.ready
  ∧ UseFfmpegWorker.progress (UseFfmpegWorker.state h2) = 1%float
  ∧ UseFfmpegWorker.error (UseFfmpegWorker.state h2) = None
  ∧ UseFfmpegWorker.previewUrl (UseFfmpegWorker.state h2)
    = Some (minted (UseFfmpegWorker.urls h))
  ∧ live (UseFfmpegWorker.urls h2) !! minted (UseFfmpegWorker.urls h)
    = Some (mkBlob d (if mp4 then "video/mp4" else "video/webm")).
Proof.
  intros inputName mp4 outName Hcmd Hst Hfresh Hexec Hout h1 s h2.
  assert (Hdata : PreviewParams.data p = parts file)
    by (unfold UseFfmpegWorker.preview_command in Hcmd; now inversion Hcmd).
  assert (Hs : outbox s
               = ((note_event <$> notes)
                  ++ [EvResult (mkResult preview outName
                                  (if mp4 then "video/mp4" else "video/webm") d)])%list).
  { unfold s, run. simpl foldl. unfold deliver at 1.
    unfold onmessage, ensureLoaded, doPreview. async_unfold. simpl.
    fold mp4. fold outName. fold inputName. unfold set_busy. simpl. rewrite Hdata.
    serve_with writeFile_served.
    serve_with (exec_served _ _ _ _ _ true false true Hexec).
    serve_with readFile_served. rewrite Hout. simpl.
    assert (Hmime : (if endsWith outName ".mp4" then "video/mp4" else "video/webm")
                    = if mp4 then "video/mp4" else "video/webm")
      by (unfold outName; now destruct mp4).
    rewrite Hmime.
    do 3 serve_delete; now rewrite !app_nil_r. }
  assert (Hh1 : UseFfmpegWorker.posted h1
                = (UseFfmpegWorker.posted h ++ [CmdPreview p])%list
                ∧ UseFfmpegWorker.previewUrlRef h1 = UseFfmpegWorker.previewUrlRef h
                ∧ UseFfmpegWorker.urls h1 = UseFfmpegWorker.urls h
                ∧ UseFfmpegWorker.error (UseFfmpegWorker.state h1) = None).
  { unfold h1, UseFfmpegWorker.makePreview, UseFfmpegWorker.submit,
      UseFfmpegWorker.submit_from. rewrite Hcmd. simpl.
    destruct (UseFfmpegWorker.status (UseFfmpegWorker.state h)); try contradiction;
      repeat split. }
  destruct Hh1 as (Hposted & Href1 & Hurls1 & Herr1).
  split; [exact Hposted |].
  unfold h2. rewrite Hs. unfold UseFfmpegWorker.receive. rewrite foldl_app.
  destruct (receive_reports notes h1) as (Href & _ & Hurls & _ & _ & Herr & _ & _).
  unfold UseFfmpegWorker.receive in Href, Hurls, Herr.
  cbn [foldl]. unfold UseFfmpegWorker.onmessage at 1. cbn [kind data mime].
  simpl. rewrite Href, Hurls, Herr, Href1, Hurls1, Herr1.
  repeat split.
  destruct (UseFfmpegWorker.previewUrlRef h) as [u |] eqn:Hu; simpl.
  - rewrite lookup_delete_ne by (apply Hfresh; reflexivity). apply lookup_insert_eq.
  - apply lookup_insert_eq.
Qed.

Lemma preview_round_trip_witness :
  let file := mkBlob [Byte.x01; Byte.x02] "video/webm" in
  let p := PreviewParams.mk [Byte.x01; Byte.x02] (Some "input.webm") (Some 0%float)
             (Some 10%float) None None (Some true) (Some 28%float) (Some veryfast) in
  let h1 := UseFfmpegWorker.makePreview true file None UseFfmpegWorker.mount in
  let s := @run copy_platform (Deliver (CmdPreview p) :: replicate 6 (Settle 0))
             (mkSystem (mkWorker (Some (mkFFmpeg (Some ∅) true)) false false) [] []) in
  live (UseFfmpegWorker.urls (UseFfmpegWorker.receive (outbox s) h1)) !! 0
  = Some (mkBlob [Byte.x01; Byte.x02] "video/mp4").
Proof.
  refine (proj2 (proj2 (proj2 (proj2 (proj2
            (@preview_round_trip copy_platform UseFfmpegWorker.mount
               (mkBlob [Byte.x01; Byte.x02] "video/webm") None _ ∅ _ _ _
               eq_refl _ _ eq_refl eq_refl)))))).
  - discriminate.
  - discriminate.
Defined.



Lemma Provider_eq (p q : Recorder.Provider) :
  Recorder.state p = Recorder.state q → Recorder.urlRef p = Recorder.urlRef q →
  Recorder.chunksRef p = Recorder.chunksRef q → Recorder.urls p = Recorder.urls q →
  Recorder.released p = Recorder.released q → Recorder.orphans p = Recorder.orphans q →
  p = q.
Proof. destruct p, q. simpl. congruence. Qed.

(** The chunks a recorder the state has let go of still delivers pile up in
    the state and in [chunksRef] like any others. *)
Lemma orphan_chunks_pile_up (ds : list (option Blob)) k r st em sm rc ch bl ou mt ur cr us
  rl orp :
  orp !! k = Some r →
  Recorder.run (Recorder.OrphanDataAvailable k <$> ds)
    (Recorder.mkProvider (Recorder.mkRecorderState st em sm rc ch bl ou mt) ur cr us rl orp)
  = Recorder.mkProvider
      (Recorder.mkRecorderState st em sm rc (ch ++ Recorder.kept ds)%list bl ou mt)
      ur (cr ++ Recorder.kept ds)%list us rl orp.
Proof.
  intros Hk. unfold Recorder.run. revert ch cr.
  induction ds as [| d ds IH]; intros ch cr.
  - unfold Recorder.kept. simpl. now rewrite !app_nil_r.
  - cbn [fmap list_fmap foldl]. unfold Recorder.apply at 2. simpl. rewrite Hk.
    unfold Recorder.ondataavailable, Recorder.kept. destruct d as [d |]; simpl.
    + destruct (bool_decide (0 < length (parts d))) eqn:Hd.
      * unfold Recorder.dispatch, Recorder.set_chunksRef. simpl. rewrite IH.
        apply bool_decide_eq_true_1 in Hd.
        rewrite filter_cons_True by assumption.
        unfold Recorder.kept. now rewrite <- !app_assoc.
      * rewrite IH. apply bool_decide_eq_false_1 in Hd.
        now rewrite filter_cons_False by assumption.
    + now rewrite IH.
Qed.

(** What [reset()] and [cleanup()] leave, in every state the session
    reaches.  After [reset()] there is no URL in the state nor in [urlRef],
    no URL is live, the chunk lists are empty, the stream, the recorder and
    the blob are as before, and the status is "ready" exactly when there is
    a recorder ("idle" otherwise).  After [cleanup()] the state is the
    initial one but for the MIME type and the last error message, which
    stay; [urlRef] is empty and no URL is live; the stream the state held
    is let go of with its tracks stopped, and the recorder with
    [recorder.stop()] called on it.  That is not the end when the recorder
    was recording: its "stop" event is still to come, and with the chunks
    that come before it, it brings the status "stopped", a blob of those
    chunks and a new live URL into a state that has no stream and no
    recorder. *)
Theorem reset_and_cleanup_leave (ops : list Recorder.Op) :
  let p := Recorder.run ops Recorder.mount in
  (let q := Recorder.reset p in
   Recorder.objectUrl (Recorder.state q) = None
   ∧ Recorder.urlRef q = None
   ∧ (∀ u, live (Recorder.urls q) !! u = None)
   ∧ Recorder.chunks (Recorder.state q) = [] ∧ Recorder.chunksRef q = []
   ∧ Recorder.stream (Recorder.state q) = Recorder.stream (Recorder.state p)
   ∧ Recorder.recorder (Recorder.state q) = Recorder.recorder (Recorder.state p)
   ∧ Recorder.blob (Recorder.state q) = Recorder.blob (Recorder.state p)
   ∧ Recorder.status (Recorder.state q)
     = if bool_decide (is_Some (Recorder.recorder (Recorder.state p)))
       then Recorder.ready else Recorder.idle)
  ∧ (let q := Recorder.cleanup p in
     Recorder.state q
     = Recorder.mkRecorderState Recorder.idle (Recorder.errorMessage (Recorder.state p))
         None None [] None None (Recorder.mimeType (Recorder.state p))
     ∧ Recorder.urlRef q = None
     ∧ (∀ u, live (Recorder.urls q) !! u = None)
     ∧ Recorder.chunksRef q = []
     ∧ Recorder.released q
       = (Recorder.released p
          ++ option_list ((fun _ => Recorder.mkStream false)
                            <$> Recorder.stream (Recorder.state p)))%list
     ∧ Recorder.orphans q
       = (Recorder.orphans p
          ++ option_list ((fun r => if Recorder.active r
                                    then Recorder.mkRecorder (Recorder.created_with r)
                                           false true
                                    else r)
                            <$> Recorder.recorder (Recorder.state p)))%list)
  ∧ (∀ r ds, Recorder.recorder (Recorder.state p) = Some r → Recorder.active r = true →
     let k := length (Recorder.orphans p) in
     let q := Recorder.run ((Recorder.OrphanDataAvailable k <$> ds)
                            ++ [Recorder.OrphanStopped k])%list (Recorder.cleanup p) in
     let b := Recorder.new_Blob (Recorder.kept ds)
                (or_string (Recorder.created_with r) "video/webm") in
     Recorder.status (Recorder.state q) = Recorder.stopped
     ∧ Recorder.blob (Recorder.state q) = Some b
     ∧ Recorder.objectUrl (Recorder.state q) = Some (minted (Recorder.urls p))
     ∧ Recorder.urlRef q = Some (minted (Recorder.urls p))
     ∧ live (Recorder.urls q) !! minted (Recorder.urls p) = Some b
     ∧ Recorder.stream (Recorder.state q) = None
     ∧ Recorder.recorder (Recorder.state q) = None
     ∧ Recorder.canStart (Recorder.status (Recorder.state q)) = true
     ∧ Recorder.start q = q).
Proof.
  intros p.
  destruct (url_invariant_run ops _ url_invariant_mount) as (Hlive & _).
  destruct (session_invariant_run ops _ session_invariant_mount) as (Hsr & Hrs & _ & _).
  fold p in Hlive, Hsr, Hrs.
  pose proof (revoke_urlRef_none _ _ Hlive) as Hnone.
  destruct p as [[st em sm rc ch bl ou mt] ur cr us rl orp]. simpl in *.
  split; [| split].
  - unfold Recorder.reset. simpl. repeat split; try assumption.
    destruct sm as [m |], rc as [r |]; simpl; try reflexivity.
    + now specialize (Hrs eq_refl).
    + now specialize (Hsr eq_refl).
  - unfold Recorder.cleanup. simpl. repeat split; assumption.
  - intros r ds -> Hactive.
    assert (Hrun : ∀ a b q, Recorder.run (a ++ b)%list q = Recorder.run b (Recorder.run a q))
      by (intros; apply foldl_app).
    assert (Hc : Recorder.cleanup
                   (Recorder.mkProvider
                      (Recorder.mkRecorderState st em sm (Some r) ch bl ou mt) ur cr us rl orp)
                 = Recorder.mkProvider
                     (Recorder.mkRecorderState Recorder.idle em None None [] None None mt)
                     None [] (revoke_current ur us)
                     (rl ++ option_list (Recorder.stop_tracks <$> sm))%list
                     (orp ++ [Recorder.mkRecorder (Recorder.created_with r) false true])%list).
    { apply Provider_eq; unfold Recorder.cleanup; simpl; try reflexivity.
      unfold Recorder.MediaRecorder_stop. now rewrite Hactive. }
    assert (Hk : (orp ++ [Recorder.mkRecorder (Recorder.created_with r) false true])%list
                   !! length orp
                 = Some (Recorder.mkRecorder (Recorder.created_with r) false true)).
    { rewrite lookup_app_r by lia. now rewrite Nat.sub_diag. }
    rewrite Hrun, Hc.
    rewrite (orphan_chunks_pile_up ds (length orp) _ Recorder.idle em None None []
               None None mt None [] (revoke_current ur us) _ _ Hk).
    unfold Recorder.run. cbn [foldl]. unfold Recorder.apply.
    cbn [Recorder.orphans]. rewrite Hk. cbn [Recorder.stop_pending].
    unfold Recorder.onstop. simpl.
    assert (Hm : minted (revoke_current ur us) = minted us) by (now destruct ur).
    rewrite Hm. repeat split. apply lookup_insert_eq.
Qed.

Lemma reset_and_cleanup_leave_witness :
  let p := Recorder.run [Recorder.Init (Some Recorder.granting); Recorder.Start]
             Recorder.mount in
  let q := Recorder.run [Recorder.OrphanDataAvailable 0
                           (Some (mkBlob [Byte.x2a] "video/webm"));
                         Recorder.OrphanStopped 0] (Recorder.cleanup p) in
  Recorder.status (Recorder.state q) = Recorder.stopped
  ∧ Recorder.blob (Recorder.state q)
    = Some (Recorder.new_Blob [mkBlob [Byte.x2a] "video/webm"] "video/webm").
Proof.
  pose proof (proj2 (proj2 (reset_and_cleanup_leave
                              [Recorder.Init (Some Recorder.granting); Recorder.Start]))
                (Recorder.mkRecorder (Some "video/webm") true false)
                [Some (mkBlob [Byte.x2a] "video/webm")] eq_refl eq_refl) as Hw.
  exact (conj (proj1 Hw) (proj1 (proj2 Hw))).
Defined.

(** How [init()] ends.  Outside a browser it changes nothing.  In a browser
    it succeeds exactly when [requestUserMedia] resolves and [MediaRecorder]
    is defined: the status is then "ready", the stream and a recorder made
    for the picked MIME type are in the state, and chunks, blob and URL are
    cleared.  Otherwise the status is "error" with the message of what
    failed, and the stream, the recorder, the chunks, the blob, the URL and
    the MIME type are as they were.  [requestUserMedia] rejects outside a
    secure context unless the host is localhost, without asking for the
    camera; it prefers [navigator.mediaDevices] to a legacy entry point and
    rejects when there is neither. *)
Theorem init_outcomes (b : Recorder.Browser) (p : Recorder.Provider) :
  Recorder.init None p = p
  ∧ (let q := Recorder.init (Some b) p in
     match Recorder.requestUserMedia (Some b), Recorder.isTypeSupported b with
     | Resolved s, Some _ =>
         let picked := Recorder.pickSupportedMimeType (Some b) Recorder.mimeCandidates in
         Recorder.state q
         = Recorder.mkRecorderState Recorder.ready (Recorder.errorMessage (Recorder.state p))
             (Some s) (Some (Recorder.mkRecorder picked false false)) [] None None picked
     | Resolved _, None =>
         Recorder.state q
         = Recorder.reducer (Recorder.state p) (Recorder.SET_ERROR "MediaRecorder is not defined")
     | Rejected e, _ =>
         Recorder.state q
         = Recorder.reducer (Recorder.state p) (Recorder.SET_ERROR (Js.message e))
     end
     ∧ Recorder.urlRef q = Recorder.urlRef p
     ∧ Recorder.chunksRef q = Recorder.chunksRef p
     ∧ Recorder.urls q = Recorder.urls p)
  ∧ (Recorder.isSecureContext b = false → Recorder.hostname b ≠ "localhost" →
     Recorder.requestUserMedia (Some b)
     = Rejected (new_Error
         "MediaDevices API requires a secure context (HTTPS). Please use HTTPS or localhost."))
  ∧ (Recorder.isSecureContext b = true ∨ Recorder.hostname b = "localhost" →
     Recorder.requestUserMedia (Some b)
     = match Recorder.mediaDevices_getUserMedia b, Recorder.legacy_getUserMedia b with
       | Some r, _ => r
       | None, Some r => r
       | None, None =>
           Rejected (new_Error
             "MediaDevices.getUserMedia is not supported in this browser. Please try a modern browser and ensure HTTPS or localhost.")
       end).
Proof.
  split; [reflexivity |]. split; [| split].
  - unfold Recorder.init.
    destruct (Recorder.requestUserMedia (Some b)) as [s | e]; [| repeat split].
    destruct (Recorder.isTypeSupported b); repeat split.
  - intros Hsec Hhost. unfold Recorder.requestUserMedia. rewrite Hsec.
    now rewrite bool_decide_eq_false_2 by assumption.
  - intros Hok. unfold Recorder.requestUserMedia.
    assert (Hsecure : negb (Recorder.isSecureContext b)
                    && negb (bool_decide (Recorder.hostname b = "localhost")) = false).
    { destruct Hok as [-> | Hhost]; [reflexivity |].
      rewrite (bool_decide_eq_true_2 _ Hhost). apply andb_false_r. }
    rewrite Hsecure. destruct (Recorder.mediaDevices_getUserMedia b); reflexivity.
Qed.

Lemma init_outcomes_witness :
  Recorder.requestUserMedia
    (Some (Recorder.mkBrowser false "example.org" (Some (Resolved (Recorder.mkStream true)))
             None None))
  = Rejected (new_Error
      "MediaDevices API requires a secure context (HTTPS). Please use HTTPS or localhost.").
Proof.
  refine (proj1 (proj2 (proj2 (init_outcomes
            (Recorder.mkBrowser false "example.org"
               (Some (Resolved (Recorder.mkStream true))) None None)
            Recorder.mount))) eq_refl _).
  discriminate.
Defined.
